(** * O3DE: the reflection adapter of the document property editor, and two
    shader includes of the PBR material pipeline.

    Shallow embedding of
    - [Code/Framework/AzFramework/AzFramework/DocumentPropertyEditor/ReflectionAdapter.cpp]
      (the adapter, its bound containers, the generation of the DOM and the
      message handlers),
    - the [EvaluateSurface_EnhancedPBR] include,
    - [Atom/Features/PBR/Lights/SimplePointLight.azsli].

    The engine pieces the adapter binds against (the DOM value and patch
    library, the prefix tree, the builder, the serialize context's containers,
    JSON serialization) are not part of these sources.  The data they exchange
    with the adapter is modelled concretely (DOM trees, paths, patches, the
    prefix tree as a finite map, the builder as a stack of open nodes); what
    they compute on live memory is taken as an interface ([Engine]). *)

From stdpp Require Import gmap strings list pretty.
From Stdlib Require Import ZArith QArith.

Set Warnings "-register-all".

Open Scope string_scope.
Open Scope list_scope.
Open Scope Z_scope.

(** ** AZ::Dom : paths, values, patches *)

Module Dom.

(** A path entry is an index into a node's children or the key of a member. *)
Inductive PathEntry :=
| Index (i : nat)
| Key (k : string).

#[global] Instance PathEntry_eq_dec : EqDecision PathEntry.
Proof. solve_decision. Defined.

#[global] Instance PathEntry_countable : Countable PathEntry.
Proof.
  refine (inj_countable'
    (λ e, match e with Index i => inl i | Key k => inr k end)
    (λ s, match s with inl i => Index i | inr k => Key k end) _).
  by intros [].
Defined.

Abbreviation Path := (list PathEntry).

(** [AZ::TypeId] is a Uuid. *)
Abbreviation TypeId := Z (only parsing).

(** [void*]; [nullptr] is 0. *)
Abbreviation Address := Z (only parsing).
Definition nullptr : Z := 0.

(** [AZ::PointerObject]. *)
Module PointerObject.
Record t := {
  m_address : Address;
  m_typeId : TypeId
}.
Definition IsValid (p : t) : bool := negb (m_address p =? nullptr).
End PointerObject.

(** Opaque payloads the adapter stores in the DOM: typed pointers and the
    bound message handlers that [AdapterBuilder::AddMessageHandler] installs. *)
Inductive OpaqueObject :=
| OPointer (p : PointerObject.t)
| OMessageHandler (messageName : string) (messageOrigin : list PathEntry)
| OOther (tag : Z).

(** [AZ::Dom::Value]: the kinds of value the adapter produces and inspects.
    A node has a name, members (attributes, in insertion order) and children. *)
Inductive Value :=
| Null
| Bool (b : bool)
| Int64 (z : Z)
| Str (s : string)
| Opaque (o : OpaqueObject)
| Node (name : string) (members : list (string * Value)) (children : list Value).

Definition IsNull (v : Value) : bool := match v with Null => true | _ => false end.
Definition IsNode (v : Value) : bool := match v with Node _ _ _ => true | _ => false end.
Definition IsBool (v : Value) : bool := match v with Bool _ => true | _ => false end.
Definition IsString (v : Value) : bool := match v with Str _ => true | _ => false end.
Definition IsOpaqueValue (v : Value) : bool := match v with Opaque _ => true | _ => false end.

(** [Value::GetBool] answers [false] on a value that is no boolean. *)
Definition GetBool (v : Value) : bool := match v with Bool b => b | _ => false end.
Definition GetString (v : Value) : string := match v with Str s => s | _ => "" end.
Definition GetInt64 (v : Value) : Z := match v with Int64 z => z | _ => 0 end.
Definition GetNodeName (v : Value) : string := match v with Node n _ _ => n | _ => "" end.

Definition CreateNode (name : string) : Value := Node name [] [].

(** Members are an ordered association list. *)
Fixpoint assoc_find {A} (k : string) (ms : list (string * A)) : option A :=
  match ms with
  | [] => None
  | (k', v) :: ms' => if String.eqb k k' then Some v else assoc_find k ms'
  end.

Fixpoint assoc_set {A} (k : string) (v : A) (ms : list (string * A)) : list (string * A) :=
  match ms with
  | [] => [(k, v)]
  | (k', v') :: ms' =>
      if String.eqb k k' then (k, v) :: ms' else (k', v') :: assoc_set k v ms'
  end.

Fixpoint assoc_remove {A} (k : string) (ms : list (string * A)) : list (string * A) :=
  match ms with
  | [] => []
  | (k', v') :: ms' =>
      if String.eqb k k' then ms' else (k', v') :: assoc_remove k ms'
  end.

Definition Members (v : Value) : list (string * Value) :=
  match v with Node _ ms _ => ms | _ => [] end.

(** [ArrayBegin() .. ArrayEnd()] of a node: its children. *)
Definition Children (v : Value) : list Value :=
  match v with Node _ _ ch => ch | _ => [] end.

(** [Value::FindMember]; [None] stands for [MemberEnd()]. *)
Definition FindMember (name : string) (v : Value) : option Value :=
  assoc_find name (Members v).

(** [node[name] = value]. *)
Definition SetMember (name : string) (x : Value) (v : Value) : Value :=
  match v with
  | Node n ms ch => Node n (assoc_set name x ms) ch
  | _ => v
  end.

Definition RemoveMember (name : string) (v : Value) : Value :=
  match v with
  | Node n ms ch => Node n (assoc_remove name ms) ch
  | _ => v
  end.

Definition ArrayPushBack (x : Value) (v : Value) : Value :=
  match v with
  | Node n ms ch => Node n ms (ch ++ [x])
  | _ => v
  end.

(** [value[entry]]: a child by index, a member by key; [Null] when absent. *)
Definition at_entry (v : Value) (e : PathEntry) : Value :=
  match e with
  | Index i => default Null (Children v !! i)
  | Key k => default Null (FindMember k v)
  end.

(** [value[path]]. *)
Definition at_path (v : Value) (p : Path) : Value := fold_left at_entry p v.

(** [AZ::Dom::PatchOperation], the three kinds the adapter emits. *)
Inductive PatchOperation :=
| AddOperation (path : Path) (value : Value)
| RemoveOperation (path : Path)
| ReplaceOperation (path : Path) (value : Value).

Abbreviation Patch := (list PatchOperation).

End Dom.

Import Dom.

(** ** AZ::Dom::DomPrefixTree *)

Module PrefixTree.
Section PrefixTree.
Context {T : Type}.

(** Modelled from the spec: [AZ::Dom::DomPrefixTree] is not among the sources.
    The adapter keeps its look-up tables in it, keyed by DOM path; it is a
    finite map from paths to values. *)
Definition SetValue (path : Path) (v : T) (t : gmap Path T) : gmap Path T :=
  <[path := v]> t.

Definition Clear : gmap Path T := ∅.

(** [ValueAtPath(path, PrefixTreeMatch::ExactPath)]. *)
Definition ValueAtPath_ExactPath (t : gmap Path T) (path : Path) : option T :=
  t !! path.

(** The most specific entry among the prefixes of [path] of length at most [n]. *)
Fixpoint closest_prefix (t : gmap Path T) (path : Path) (n : nat) : option (Path * T) :=
  match t !! take n path with
  | Some v => Some (take n path, v)
  | None => match n with O => None | S n' => closest_prefix t path n' end
  end.

(** Modelled from the spec: [ValueAtPath(path, PrefixTreeMatch::ParentsOnly)],
    the parents-only prefix match: the value stored at the longest proper
    prefix of [path], with the path it is stored at.  (The source guards the
    empty path before it asks.) *)
Definition ValueAtPath_ParentsOnly (t : gmap Path T) (path : Path) : option (Path * T) :=
  match length path with
  | O => None
  | S n => closest_prefix t path n
  end.

Fixpoint entries_upto (t : gmap Path T) (path : Path) (n : nat) : list (Path * T) :=
  let here := match t !! take n path with Some v => [(take n path, v)] | None => [] end in
  match n with
  | O => here
  | S n' => here ++ entries_upto t path n'
  end.

(** Modelled from the spec: [VisitPath] with the flags
    [ExcludeChildPaths | TraverseMostToLeastSpecific]: the entries stored at
    [path] and at its prefixes, the longest path first. *)
Definition VisitPath_MostToLeastSpecific (t : gmap Path T) (path : Path) : list (Path * T) :=
  entries_upto t path (length path).

End PrefixTree.
End PrefixTree.

(** ** The serialize context's containers *)

(** What [FindAttribute(AZ_CRC_CE("KeyType"))] found on the container's class
    element, seen through [azdynamic_cast<const AttributeData<AZ::Uuid>*>]. *)
Inductive KeyTypeAttribute :=
| AttributeData_Uuid (keyType : TypeId)
| AttributeData_other.

(** [AZ::SerializeContext::IDataContainer::IAssociativeDataContainer]. *)
Record IAssociativeDataContainer (Memory : Type) := {
  SetElementKey : Memory → Address → Address → Memory
}.
Arguments SetElementKey {Memory}.

(** [AZ::SerializeContext::IDataContainer]: the virtual interface a bound
    container is driven through.  Every method reads or updates live memory. *)
Record IDataContainer (Memory : Type) := {
  IsFixedSize : bool;
  IsFixedCapacity : bool;
  IsSequenceContainer : bool;
  Size : Memory → Address → nat;
  Capacity : Memory → Address → nat;
  (** [ReserveElement(instance, classElement)]: the reserved element. *)
  ReserveElement : Memory → Address → Address * Memory;
  StoreElement : Memory → Address → Address → Memory;
  FreeReservedElement : Memory → Address → Address → Memory;
  RemoveElement : Memory → Address → Address → Memory;
  ClearElements : Memory → Address → Memory;
  (** [SwapElements(instance, firstIndex, secondIndex)], indices as [size_t]. *)
  SwapElements : Memory → Address → Z → Z → Memory;
  GetAssociativeContainerInterface : option (IAssociativeDataContainer Memory);
  (** [GetElement(GetDefaultElementNameCrc())->FindAttribute(KeyType)]. *)
  FindAttribute_KeyType : option KeyTypeAttribute
}.
Arguments IsFixedSize {Memory}.
Arguments IsFixedCapacity {Memory}.
Arguments IsSequenceContainer {Memory}.
Arguments Size {Memory}.
Arguments Capacity {Memory}.
Arguments ReserveElement {Memory}.
Arguments StoreElement {Memory}.
Arguments FreeReservedElement {Memory}.
Arguments RemoveElement {Memory}.
Arguments ClearElements {Memory}.
Arguments SwapElements {Memory}.
Arguments GetAssociativeContainerInterface {Memory}.
Arguments FindAttribute_KeyType {Memory}.

(** Conversion of an [AZ::s64] to [size_t] (64 bits). *)
Definition to_size_t (z : Z) : Z := z mod 2 ^ 64.

(** ** Names of nodes, attributes and messages ([PropertyEditorNodes.h]) *)

Module Nodes.
Definition Adapter_Name := "Adapter".
Definition Row_Name := "Row".
Definition Label_Name := "Label".
Definition PropertyEditor_Name := "PropertyEditor".
Definition ComboBox_Name := "ComboBox".
Definition ContainerActionButton_Name := "ContainerActionButton".

Definition PropertyEditor_Type := "Type".
Definition PropertyEditor_Value := "Value".
Definition PropertyEditor_ValueHashed := "ValueHashed".
Definition PropertyEditor_Visibility := "Visibility".
Definition PropertyEditor_EnumType := "EnumType".
Definition PropertyEditor_SharePriorColumn := "SharePriorColumn".
Definition PropertyEditor_UseMinimumWidth := "UseMinimumWidth".
Definition PropertyEditor_Alignment := "Alignment".
Definition Label_Value := "Value".
Definition Label_ValueText := "ValueText".
Definition Container_ContainerCanBeModified := "ContainerCanBeModified".
Definition ContainerActionButton_Action := "Action".
Definition ContainerActionButton_ContainerIndex := "ContainerIndex".
Definition Disabled := "Disabled".
Definition AncestorDisabled := "AncestorDisabled".

Definition PropertyEditor_OnChanged := "OnChanged".
Definition PropertyEditor_RequestTreeUpdate := "RequestTreeUpdate".
Definition ContainerActionButton_OnActivate := "OnActivate".
Definition Adapter_QueryKey := "QueryKey".
Definition Adapter_AddContainerKey := "AddContainerKey".
Definition Adapter_RejectContainerKey := "RejectContainerKey".
Definition Adapter_SetNodeDisabled := "SetNodeDisabled".

Inductive ContainerAction := AddElement | RemoveElement | Clear | MoveUp | MoveDown.
Inductive PropertyVisibility := Show | ShowChildrenOnly | Hide | HideChildren.
Inductive ValueChangeType := InProgressEdit | FinishedEdit.
Inductive PropertyRefreshLevel :=
  Undefined | None_ | ValuesOnly | AttributesAndValues | EntireTree.
Inductive Align := AlignLeft | AlignCenter | AlignRight.

(** An enum attribute is stored in the DOM as its ordinal. *)
Definition ContainerAction_ToDom (a : ContainerAction) : Value :=
  Int64 match a with
        | AddElement => 0 | RemoveElement => 1 | Clear => 2 | MoveUp => 3 | MoveDown => 4
        end.

Definition ContainerAction_DomToValue (v : Value) : option ContainerAction :=
  match v with
  | Int64 0 => Some AddElement
  | Int64 1 => Some RemoveElement
  | Int64 2 => Some Clear
  | Int64 3 => Some MoveUp
  | Int64 4 => Some MoveDown
  | _ => None
  end.

Definition Align_ToDom (a : Align) : Value :=
  Int64 match a with AlignLeft => 0 | AlignCenter => 1 | AlignRight => 2 end.

(** [Action.ExtractFromDomNode(node)]. *)
Definition Action_ExtractFromDomNode (node : Value) : option ContainerAction :=
  FindMember ContainerActionButton_Action node ≫= ContainerAction_DomToValue.

(** [ContainerIndex.ExtractFromDomNode(node)]. *)
Definition ContainerIndex_ExtractFromDomNode (node : Value) : option Z :=
  match FindMember ContainerActionButton_ContainerIndex node with
  | Some (Int64 z) => Some z
  | _ => None
  end.
End Nodes.

(** [AZ::Reflection::DescriptorAttributes]. *)
Module DescriptorAttributes.
Definition Handler := "Handler".
Definition Label := "Label".
Definition SerializedPath := "SerializedPath".
Definition Container := "Container".
Definition ParentContainer := "ParentContainer".
Definition ParentContainerInstance := "ParentContainerInstance".
Definition ParentContainerCanBeModified := "ParentContainerCanBeModified".
Definition ContainerElementOverride := "ContainerElementOverride".
Definition ContainerIndex := "ContainerIndex".
End DescriptorAttributes.

(** ** The reflection visitor's inputs *)

(** [Reflection::IAttributes]: (group, name, value) in listing order. *)
Abbreviation IAttributes := (list (string * string * Value)).

(** [attributes.Find(name)]: the attribute of that name in the default group. *)
Fixpoint Find (name : string) (attributes : IAttributes) : option Value :=
  match attributes with
  | [] => None
  | (g, n, v) :: rest =>
      if String.eqb g "" && String.eqb n name then Some v else Find name rest
  end.

(** [Reflection::IObjectAccess]: [GetType()] and [Get()]. *)
Record IObjectAccess := {
  GetType : TypeId;
  Get : Address
}.

(** The types [VisitPrimitive] is instantiated at. *)
Inductive PrimitiveType :=
| T_bool | T_char | T_s8 | T_s16 | T_s32 | T_s64
| T_u8 | T_u16 | T_u32 | T_u64 | T_float | T_double.

(** The calls [Reflection::VisitLegacyInMemoryInstance] makes on the visitor
    ([AZ::Reflection::IReadWrite]).  The overloads with an empty body (string
    view, array, map, dictionary, enum, pointer, buffer, asset) are
    [call_Visit_ignored]. *)
Inductive VisitCall :=
| call_Visit (T : PrimitiveType) (value : Address) (attributes : IAttributes)
| call_VisitObjectBegin (access : IObjectAccess) (attributes : IAttributes)
| call_VisitObjectEnd (access : IObjectAccess) (attributes : IAttributes)
| call_Visit_ignored.

(** [JsonSerializationResult::Processing]. *)
Inductive Processing := Completed | Altered | PartialAlter | Halted.

Definition is_Halted (p : Processing) : bool :=
  match p with Halted => true | _ => false end.

(** ** The engine interface *)

(** What the adapter calls in the engine and cannot see into: live memory, the
    container descriptors behind [IDataContainer*], primitive loads and
    stores through references, JSON serialization, RTTI, the reflection walk. *)
Class Engine := {
  Memory : Type;
  Json : Type;
  Primitive : Type;
  (** [reinterpret_cast<IDataContainer*>(address)]. *)
  dataContainerAt : Address → IDataContainer Memory;
  azrtti_typeid_IDataContainer : TypeId;
  azrtti_typeid_string : TypeId;
  azrtti_typeid_bool : TypeId;
  (** Reading and assigning through a [T&]. *)
  load : PrimitiveType → Memory → Address → Primitive;
  store : PrimitiveType → Memory → Address → Primitive → Memory;
  load_string : Memory → Address → string;
  store_string : Memory → Address → string → Memory;
  load_bool : Memory → Address → bool;
  store_bool : Memory → Address → bool → Memory;
  sizeof : PrimitiveType → nat;
  sizeof_string : nat;
  (** [Dom::Utils::ValueFromType] and [Dom::Utils::ValueToType<T>]. *)
  ValueFromType : PrimitiveType → Primitive → Value;
  ValueToType : PrimitiveType → Value → option Primitive;
  (** [JsonSerialization::Store(buffer, allocator, object, defaultObject, type)]. *)
  JsonSerialization_Store : Memory → Address → Address → TypeId → Processing * Json;
  (** [JsonSerialization::Load(object, type, buffer)]. *)
  JsonSerialization_Load : Memory → Address → TypeId → Json → Processing * Memory;
  TryMarshalValueToPointer : Value → TypeId → Address;
  MarshalTypedPointerToValue : Address → TypeId → Value;
  LoadViaJsonSerialization : Memory → Address → TypeId → Value → Processing * Memory;
  (** [StoreViaJsonSerialization(object, defaultObject, type, out, settings)]
      with [m_keepDefaults] as given: the DOM value written. *)
  StoreViaJsonSerialization : Memory → Address → Address → TypeId → bool → Value;
  VisitRapidJsonValue : Json → Value;
  (** [FindClassData(type)->m_azRtti->GetTypeSize()], 0 when either is null. *)
  GetTypeSize : TypeId → nat;
  (** [AZStd::hash<Uuid>{}(Uuid::CreateData(instance, size))]. *)
  hash_instance : Memory → Address → nat → Z;
  (** The console variable [ed_enableInspectorOverrideManagement]. *)
  ed_enableInspectorOverrideManagement : bool;
  (** The names of [Nodes::Row::RowAttributes]. *)
  RowAttributes : list string;
  (** [Nodes::PropertyEditor::Visibility.DomToValue]. *)
  Visibility_DomToValue : Value → option Nodes.PropertyVisibility;
  (** The visitor calls of [Reflection::VisitLegacyInMemoryInstance]. *)
  VisitLegacyInMemoryInstance : Memory → Address → TypeId → list VisitCall
}.

(** ** AdapterBuilder *)

Module AdapterBuilder.

(** Modelled from the spec: [AdapterBuilder] is not among the sources.  It
    produces the DOM tree: a stack of open nodes ([m_entries], innermost
    first), the path of the innermost open node, and the finished value. *)
Record t := {
  m_entries : list Value;
  m_currentPath : Path;
  m_value : Value
}.

Definition empty : t := {| m_entries := []; m_currentPath := []; m_value := Null |}.

Definition GetCurrentPath (b : t) : Path := m_currentPath b.

(** A node opened under an open node gets the path of its parent extended by
    the index it will have among the parent's children. *)
Definition BeginNode (name : string) (b : t) : t :=
  match m_entries b with
  | [] => {| m_entries := [CreateNode name];
             m_currentPath := m_currentPath b;
             m_value := m_value b |}
  | parent :: _ =>
      {| m_entries := CreateNode name :: m_entries b;
         m_currentPath := m_currentPath b ++ [Index (length (Children parent))];
         m_value := m_value b |}
  end.

(** Closing a node appends it to its parent; closing the outermost node
    yields the result. *)
Definition EndNode (b : t) : t :=
  match m_entries b with
  | [] => b
  | [v] => {| m_entries := []; m_currentPath := m_currentPath b; m_value := v |}
  | v :: parent :: rest =>
      {| m_entries := ArrayPushBack v parent :: rest;
         m_currentPath := removelast (m_currentPath b);
         m_value := m_value b |}
  end.

(** [Attribute(name, value)] sets a member of the innermost open node. *)
Definition Attribute (name : string) (v : Value) (b : t) : t :=
  match m_entries b with
  | [] => b
  | top :: rest =>
      {| m_entries := SetMember name v top :: rest;
         m_currentPath := m_currentPath b;
         m_value := m_value b |}
  end.

(** [AddMessageHandler(adapter, messageName)] binds the message to the
    current path and stores the bound handler as an attribute of that name. *)
Definition AddMessageHandler (messageName : string) (b : t) : t :=
  Attribute messageName (Opaque (OMessageHandler messageName (m_currentPath b))) b.

Definition BeginAdapter : t → t := BeginNode Nodes.Adapter_Name.
Definition EndAdapter : t → t := EndNode.
Definition BeginRow : t → t := BeginNode Nodes.Row_Name.
Definition EndRow : t → t := EndNode.

Definition Label (text : string) (b : t) : t :=
  EndNode (Attribute Nodes.Label_Value (Str text) (BeginNode Nodes.Label_Name b)).

Definition BeginPropertyEditor (editorType : string) (value : Value) (b : t) : t :=
  Attribute Nodes.PropertyEditor_Value value
    (Attribute Nodes.PropertyEditor_Type (Str editorType)
       (BeginNode Nodes.PropertyEditor_Name b)).

Definition EndPropertyEditor : t → t := EndNode.

(** [FinishAndTakeResult()] moves the finished value out. *)
Definition FinishAndTakeResult (b : t) : Value * t :=
  (m_value b, {| m_entries := m_entries b; m_currentPath := m_currentPath b; m_value := Null |}).

End AdapterBuilder.

(** ** The adapter's look-up tables *)

(** [ReflectionAdapterReflectionImpl::BoundContainer]. *)
Module BoundContainer.
Record t := {
  m_container : Address;
  m_containerInstance : Address;
  m_reservedElementInstance : Address
}.
Definition set_reserved (r : Address) (bc : t) : t :=
  {| m_container := m_container bc;
     m_containerInstance := m_containerInstance bc;
     m_reservedElementInstance := r |}.
End BoundContainer.

(** [ReflectionAdapterReflectionImpl::ContainerElement]. *)
Module ContainerElement.
Record t := {
  m_container : Address;
  m_containerInstance : Address;
  m_elementInstance : Address
}.
End ContainerElement.

(** [ReflectionAdapterReflectionImpl::ContainerEntry]; [None] is a null
    [unique_ptr]. *)
Module ContainerEntry.
Record t := {
  m_container : option BoundContainer.t;
  m_element : option ContainerElement.t
}.
End ContainerEntry.

(** The [onChanged] closures the visitor registers, by the lambda they come
    from and what it captures. *)
Inductive OnChangedCallback :=
| VisitPrimitive_onChanged (T : PrimitiveType) (value : Address)
| VisitObjectBegin_string_onChanged (value : Address)
| VisitObjectBegin_bool_onChanged (value : Address)
| StoreValueIntoPointer (valuePointer : Address) (valueType : TypeId)
| VisitValueWithSerializedPath_onChanged (valuePointer : Address) (valueType : TypeId).

(** [ReflectionAdapter::PropertyChangeInfo]. *)
Record PropertyChangeInfo := {
  path : Path;
  newValue : Value;
  changeType : Nodes.ValueChangeType
}.

Inductive DocumentResetType := SoftReset | HardReset.

(** What the adapter sends out: notifications of the [DocumentAdapter] base
    class, the property-change event, and attribute invocations on DOM nodes. *)
Inductive Event :=
| ChangeNotify_InvokeOnDomNode (node : Value)
| NotifyResetDocument (resetType : DocumentResetType)
| NotifyContentsChanged (patch : Patch)
| PropertyChangeEvent_Signal (info : PropertyChangeInfo)
| QueryKey_InvokeOnDomNode (contents : Value) (keyInstance : Address) (keyType : TypeId) (path : Path).

(** [AdapterMessage], as [Match] reads it: the origin and the message with its
    parameters.  A message of another name matches no handler. *)
Inductive MessageBody :=
| OnChanged (valueFromEditor : Value) (changeType : Nodes.ValueChangeType)
| OnActivate
| RequestTreeUpdate (level : Nodes.PropertyRefreshLevel)
| SetNodeDisabled (shouldDisable : bool) (targetNodePath : Path)
| AddContainerKey (adapterContainingKey_instance : Address) (containerPath : Path)
| RejectContainerKey (containerPath : Path)
| Unmatched (messageName : string).

Record AdapterMessage := {
  m_messageOrigin : Path;
  m_message : MessageBody
}.

(** ** ReflectionAdapter *)

Section ReflectionAdapter.
Context `{Engine}.

(** The adapter ([m_instance], [m_typeId]), its implementation object
    ([m_builder], [m_onChangedCallbacks], [m_containers]), the document its
    base class currently serves ([GetContents()]), live memory, and the
    notifications sent so far (oldest first). *)
Record State := {
  m_instance : Address;
  m_typeId : TypeId;
  m_builder : AdapterBuilder.t;
  m_onChangedCallbacks : gmap Path OnChangedCallback;
  m_containers : gmap Path ContainerEntry.t;
  GetContents : Value;
  memory : Memory;
  trace : list Event
}.

Definition with_memory (m : Memory) (s : State) : State :=
  {| m_instance := m_instance s; m_typeId := m_typeId s; m_builder := m_builder s;
     m_onChangedCallbacks := m_onChangedCallbacks s; m_containers := m_containers s;
     GetContents := GetContents s; memory := m; trace := trace s |}.

Definition with_containers (c : gmap Path ContainerEntry.t) (s : State) : State :=
  {| m_instance := m_instance s; m_typeId := m_typeId s; m_builder := m_builder s;
     m_onChangedCallbacks := m_onChangedCallbacks s; m_containers := c;
     GetContents := GetContents s; memory := memory s; trace := trace s |}.

Definition with_onChangedCallbacks (c : gmap Path OnChangedCallback) (s : State) : State :=
  {| m_instance := m_instance s; m_typeId := m_typeId s; m_builder := m_builder s;
     m_onChangedCallbacks := c; m_containers := m_containers s;
     GetContents := GetContents s; memory := memory s; trace := trace s |}.

Definition with_builder (b : AdapterBuilder.t) (s : State) : State :=
  {| m_instance := m_instance s; m_typeId := m_typeId s; m_builder := b;
     m_onChangedCallbacks := m_onChangedCallbacks s; m_containers := m_containers s;
     GetContents := GetContents s; memory := memory s; trace := trace s |}.

Definition emit (e : Event) (s : State) : State :=
  {| m_instance := m_instance s; m_typeId := m_typeId s; m_builder := m_builder s;
     m_onChangedCallbacks := m_onChangedCallbacks s; m_containers := m_containers s;
     GetContents := GetContents s; memory := memory s; trace := trace s ++ [e] |}.

(** Assignment to [m_reservedElementInstance] of the bound container that
    the table holds at [entryPath]. *)
Definition assign_reservedElementInstance (entryPath : Path) (r : Address) (s : State) : State :=
  with_containers
    (alter (λ e, {| ContainerEntry.m_container :=
                      BoundContainer.set_reserved r <$> ContainerEntry.m_container e;
                    ContainerEntry.m_element := ContainerEntry.m_element e |})
           entryPath (m_containers s)) s.

(** The visitor of [GetContainerNode]: the first entry on the way from [path]
    up whose bound container is driven by [container]. *)
Definition findContainerProcedure (container : Address) (x : Path * ContainerEntry.t) : bool :=
  match ContainerEntry.m_container x.2 with
  | Some bc => BoundContainer.m_container bc =? container
  | None => false
  end.

Definition is_container_editor (it : Value) : bool :=
  IsNode it && String.eqb (GetNodeName it) Nodes.PropertyEditor_Name
  && bool_decide (is_Some (FindMember DescriptorAttributes.SerializedPath it)).

(** [BoundContainer::GetContainerNode] and [ContainerElement::GetContainerNode]
    (the same body): the property editor carrying a [SerializedPath] within the
    row of the closest enclosing entry bound to [container]; a null value when
    there is none. *)
Definition GetContainerNode (container : Address) (s : State) (path : Path) : Value :=
  let containerRow :=
    match find (findContainerProcedure container)
               (PrefixTree.VisitPath_MostToLeastSpecific (m_containers s) path) with
    | Some (nodePath, _) => at_path (GetContents s) nodePath
    | None => Null
    end in
  if IsNode containerRow
  then default Null (find is_container_editor (Children containerRow))
  else Null.

(** The three lines every container operation ends with. *)
Definition notify_container_changed (container : Address) (path : Path) (s : State) : State :=
  let containerNode := GetContainerNode container s path in
  emit (NotifyResetDocument SoftReset) (emit (ChangeNotify_InvokeOnDomNode containerNode) s).

(** [BoundContainer::OnClear]. *)
Definition OnClear (this : BoundContainer.t) (s : State) (path : Path) : State :=
  let c := dataContainerAt (BoundContainer.m_container this) in
  let s := with_memory (ClearElements c (memory s) (BoundContainer.m_containerInstance this)) s in
  notify_container_changed (BoundContainer.m_container this) path s.

(** [BoundContainer::OnAddElement]; [entryPath] is where the table holds [this]. *)
Definition OnAddElement (entryPath : Path) (this : BoundContainer.t) (s : State) (path : Path)
  : State :=
  let c := dataContainerAt (BoundContainer.m_container this) in
  let instance := BoundContainer.m_containerInstance this in
  if IsFixedCapacity c && (Capacity c (memory s) instance <=? Size c (memory s) instance)%nat
  then s
  else
    let '(reserved, mem) := ReserveElement c (memory s) instance in
    let s := assign_reservedElementInstance entryPath reserved (with_memory mem s) in
    match GetAssociativeContainerInterface c, FindAttribute_KeyType c with
    | Some _, Some (AttributeData_Uuid keyType) =>
        emit (QueryKey_InvokeOnDomNode (GetContents s) reserved keyType path) s
    | _, _ =>
        let s := with_memory (StoreElement c (memory s) instance reserved) s in
        let s := assign_reservedElementInstance entryPath nullptr s in
        notify_container_changed (BoundContainer.m_container this) path s
    end.

(** The key type [OnAddElement] queries, when the container is associative
    and its class element declares one: the case in which it stores nothing. *)
Definition queried_key_type (c : IDataContainer Memory) : option TypeId :=
  match GetAssociativeContainerInterface c, FindAttribute_KeyType c with
  | Some _, Some (AttributeData_Uuid keyType) => Some keyType
  | _, _ => None
  end.

(** [BoundContainer::OnAddElementToAssociativeContainer]; [keyInstance] is
    [adapterContainingKey->GetInstance()]. *)
Definition OnAddElementToAssociativeContainer
  (entryPath : Path) (this : BoundContainer.t) (s : State)
  (keyInstance : Address) (containerPath : Path) : State :=
  let c := dataContainerAt (BoundContainer.m_container this) in
  let instance := BoundContainer.m_containerInstance this in
  let reserved := BoundContainer.m_reservedElementInstance this in
  let s :=
    match GetAssociativeContainerInterface c with
    | Some associativeContainer =>
        with_memory (SetElementKey associativeContainer (memory s) reserved keyInstance) s
    | None => s
    end in
  let s := with_memory (StoreElement c (memory s) instance reserved) s in
  let s := assign_reservedElementInstance entryPath nullptr s in
  notify_container_changed (BoundContainer.m_container this) containerPath s.

(** [BoundContainer::RejectAssociativeContainerKey]. *)
Definition RejectAssociativeContainerKey
  (entryPath : Path) (this : BoundContainer.t) (s : State) : State :=
  let c := dataContainerAt (BoundContainer.m_container this) in
  let s := with_memory
             (FreeReservedElement c (memory s) (BoundContainer.m_containerInstance this)
                (BoundContainer.m_reservedElementInstance this)) s in
  assign_reservedElementInstance entryPath nullptr s.

(** [ContainerElement::OnRemoveElement]. *)
Definition OnRemoveElement (this : ContainerElement.t) (s : State) (path : Path) : State :=
  let c := dataContainerAt (ContainerElement.m_container this) in
  let s := with_memory
             (RemoveElement c (memory s) (ContainerElement.m_containerInstance this)
                (ContainerElement.m_elementInstance this)) s in
  notify_container_changed (ContainerElement.m_container this) path s.

(** [ContainerElement::OnMoveElement]. *)
Definition OnMoveElement (this : ContainerElement.t) (s : State) (path : Path)
  (containerIndex : Z) (moveForward : bool) : State :=
  let c := dataContainerAt (ContainerElement.m_container this) in
  let s := with_memory
             (SwapElements c (memory s) (ContainerElement.m_containerInstance this)
                (to_size_t containerIndex)
                (to_size_t (if moveForward then containerIndex + 1 else containerIndex - 1))) s in
  notify_container_changed (ContainerElement.m_container this) path s.

(** *** The onChanged callbacks *)

(** The write-back shared by [StoreValueIntoPointer] and the lambda of
    [VisitValueWithSerializedPath]: the result code of the last serialization
    step that ran, and memory after it. *)
Definition write_back_via_json
  (valuePointer : Address) (valueType : TypeId) (newValue : Value) (mem : Memory)
  : Processing * Memory :=
  let marshalledPointer := TryMarshalValueToPointer newValue valueType in
  if negb (marshalledPointer =? nullptr)
  then
    let '(resultCode, buffer) :=
      JsonSerialization_Store mem marshalledPointer valuePointer valueType in
    if is_Halted resultCode
    then (resultCode, mem)
    else JsonSerialization_Load mem valuePointer valueType buffer
  else LoadViaJsonSerialization mem valuePointer valueType newValue.

(** Calling [changeHandler] on [valueFromEditor]: the value the callback returns and
    memory after it ran. *)
Definition invoke (changeHandler : OnChangedCallback) (newValue : Value) (mem : Memory)
  : Value * Memory :=
  match changeHandler with
  | VisitPrimitive_onChanged T value =>
      let mem :=
        match ValueToType T newValue with
        | Some extractedValue => store T mem value extractedValue
        | None => mem
        end in
      (ValueFromType T (load T mem value), mem)
  | VisitObjectBegin_string_onChanged value =>
      (newValue, store_string mem value (GetString newValue))
  | VisitObjectBegin_bool_onChanged value =>
      (newValue, store_bool mem value (GetBool newValue))
  | StoreValueIntoPointer valuePointer valueType =>
      let '(resultCode, mem) := write_back_via_json valuePointer valueType newValue mem in
      (newValue, mem)
  | VisitValueWithSerializedPath_onChanged valuePointer valueType =>
      let '(resultCode, mem) := write_back_via_json valuePointer valueType newValue mem in
      if is_Halted resultCode
      then (newValue, mem)
      else (StoreViaJsonSerialization mem valuePointer nullptr valueType true, mem)
  end.

(** *** HandleMessage *)

(** [ReflectionAdapter::UpdateDomContents]. *)
Definition UpdateDomContents (propertyChangeInfo : PropertyChangeInfo) (s : State) : State :=
  emit (NotifyContentsChanged
          [ReplaceOperation (path propertyChangeInfo ++ [Key "Value"])
                            (newValue propertyChangeInfo)]) s.

(** [ReflectionAdapter::NotifyPropertyChanged]. *)
Definition NotifyPropertyChanged (changeInfo : PropertyChangeInfo) (s : State) : State :=
  emit (PropertyChangeEvent_Signal changeInfo) s.

Definition handlePropertyEditorChanged
  (message : AdapterMessage) (valueFromEditor : Value) (changeType : Nodes.ValueChangeType)
  (s : State) : State :=
  match PrefixTree.ValueAtPath_ExactPath (m_onChangedCallbacks s) (m_messageOrigin message) with
  | Some changeHandler =>
      let '(newValue, mem) := invoke changeHandler valueFromEditor (memory s) in
      let s := with_memory mem s in
      let info := {| path := m_messageOrigin message; newValue := newValue;
                     changeType := changeType |} in
      NotifyPropertyChanged info (UpdateDomContents info s)
  | None => s
  end.

(** [None]: the handler dereferences an empty optional or a null pointer. *)
Definition handleContainerOperation (message : AdapterMessage) (s : State) : option State :=
  if bool_decide (length (m_messageOrigin message) = 0%nat)
  then Some s
  else
    match PrefixTree.ValueAtPath_ParentsOnly (m_containers s) (m_messageOrigin message) with
    | Some (entryPath, containerEntry) =>
        let node := at_path (GetContents s) (m_messageOrigin message) in
        match Nodes.Action_ExtractFromDomNode node with
        | None => Some s
        | Some Nodes.AddElement =>
            match ContainerEntry.m_container containerEntry with
            | Some container => Some (OnAddElement entryPath container s (m_messageOrigin message))
            | None => Some s
            end
        | Some Nodes.RemoveElement =>
            match ContainerEntry.m_element containerEntry with
            | Some element => Some (OnRemoveElement element s (m_messageOrigin message))
            | None => Some s
            end
        | Some Nodes.Clear =>
            match ContainerEntry.m_container containerEntry with
            | Some container => Some (OnClear container s (m_messageOrigin message))
            | None => Some s
            end
        | Some (Nodes.MoveUp as action) | Some (Nodes.MoveDown as action) =>
            match ContainerEntry.m_element containerEntry with
            | Some element =>
                containerIndex ← Nodes.ContainerIndex_ExtractFromDomNode node;
                Some (OnMoveElement element s (m_messageOrigin message) containerIndex
                        match action with Nodes.MoveDown => true | _ => false end)
            | None => Some s
            end
        end
    | None => Some s
    end.

Definition addKeyToContainer (keyInstance : Address) (containerPath : Path) (s : State)
  : option State :=
  '(entryPath, containerEntry) ← PrefixTree.ValueAtPath_ParentsOnly (m_containers s) containerPath;
  match ContainerEntry.m_container containerEntry with
  | Some container =>
      Some (OnAddElementToAssociativeContainer entryPath container s keyInstance containerPath)
  | None => Some s
  end.

Definition rejectKeyToContainer (containerPath : Path) (s : State) : option State :=
  '(entryPath, containerEntry) ← PrefixTree.ValueAtPath_ParentsOnly (m_containers s) containerPath;
  match ContainerEntry.m_container containerEntry with
  | Some container => Some (RejectAssociativeContainerKey entryPath container s)
  | None => Some s
  end.

Definition handleTreeUpdate (s : State) : State := emit (NotifyResetDocument SoftReset) s.

(** *** SetNodeDisabled *)

(** The stack [unvisitedDescendants]: its top is the head of the list. *)
Abbreviation DescendantStack := (list (Path * Value)).

Fixpoint queue_from (children : list Value) (index : nat) (parentPath : Path)
  (unvisitedDescendants : DescendantStack) : DescendantStack :=
  match children with
  | [] => unvisitedDescendants
  | child :: rest =>
      queue_from rest (S index) parentPath
        (if IsNode child
         then (parentPath ++ [Index index], child) :: unvisitedDescendants
         else unvisitedDescendants)
  end.

(** The lambda [queueDescendantsForSearch]: pushes the node children of
    [parentNode], first child first. *)
Definition queueDescendantsForSearch (parentNode : Value) (parentPath : Path)
  (unvisitedDescendants : DescendantStack) : DescendantStack :=
  queue_from (Children parentNode) 0 parentPath unvisitedDescendants.

(** [iter == node.MemberEnd() || !iter->second.GetBool()]. *)
Definition attribute_unset (attributeName : string) (node : Value) : bool :=
  match FindMember attributeName node with
  | None => true
  | Some v => negb (GetBool v)
  end.

(** The four procedures handed to the propagation lambdas: when disabling,
    add [attributeName = true] unless the node has it truthy; when enabling,
    remove it if the node has it truthy. *)
Definition procedure (shouldDisable : bool) (attributeName : string)
  (node : Value) (nodePath : Path) (patch : Patch) : Patch :=
  if shouldDisable
  then
    if attribute_unset attributeName node
    then patch ++ [AddOperation (nodePath ++ [Key attributeName]) (Bool true)]
    else patch
  else
    if attribute_unset attributeName node
    then patch
    else patch ++ [RemoveOperation (nodePath ++ [Key attributeName])].

Definition is_Row (node : Value) : bool := String.eqb (GetNodeName node) Nodes.Row_Name.

Fixpoint propagate_row_from (shouldDisable : bool) (children : list Value) (index : nat)
  (parentPath : Path) (acc : Patch * DescendantStack) : Patch * DescendantStack :=
  match children with
  | [] => acc
  | child :: rest =>
      propagate_row_from shouldDisable rest (S index) parentPath
        (if IsNode child
         then
           let childPath := parentPath ++ [Index index] in
           (if is_Row child then acc.1
            else procedure shouldDisable Nodes.Disabled child childPath acc.1,
            queueDescendantsForSearch child childPath acc.2)
         else acc)
  end.

(** The lambda [propagateAttributeChangeToRow]. *)
Definition propagateAttributeChangeToRow (shouldDisable : bool)
  (parentNode : Value) (parentPath : Path) (acc : Patch * DescendantStack)
  : Patch * DescendantStack :=
  propagate_row_from shouldDisable (Children parentNode) 0 parentPath acc.

(** The lambda [propagateAttributeChangeToDescendants]: the [while] loop over
    the stack, [fuel] bounding its iterations ([None] when it runs out). *)
Fixpoint propagateAttributeChangeToDescendants (fuel : nat) (shouldDisable : bool)
  (unvisitedDescendants : DescendantStack) (patch : Patch) : option Patch :=
  match unvisitedDescendants with
  | [] => Some patch
  | (nodePath, node) :: unvisitedDescendants =>
      match fuel with
      | O => None
      | S fuel =>
          let patch :=
            if is_Row node then patch
            else procedure shouldDisable Nodes.AncestorDisabled node nodePath patch in
          let unvisitedDescendants :=
            if attribute_unset Nodes.Disabled node
            then queueDescendantsForSearch node nodePath unvisitedDescendants
            else unvisitedDescendants in
          propagateAttributeChangeToDescendants fuel shouldDisable unvisitedDescendants patch
      end
  end.

(** *** What the traversal reaches, by the structure of the tree *)

(** The node children of a node with their paths, first child first. *)
Fixpoint node_children_from (children : list Value) (index : nat) (parentPath : Path)
  : list (Path * Value) :=
  match children with
  | [] => []
  | child :: rest =>
      (if IsNode child then [(parentPath ++ [Index index], child)] else [])
      ++ node_children_from rest (S index) parentPath
  end.

Definition node_children (parentNode : Value) (parentPath : Path) : list (Path * Value) :=
  node_children_from (Children parentNode) 0 parentPath.

(** The descendants below the children [l], last child first, given what
    is reached from one child. *)
Definition reached_below (reached_from : Value → Path → list (Path * Value))
  : list Value → nat → Path → list (Path * Value) :=
  fix go (l : list Value) (index : nat) (parentPath : Path) :=
    match l with
    | [] => []
    | child :: rest =>
        go rest (S index) parentPath
        ++ (if IsNode child then reached_from child (parentPath ++ [Index index]) else [])
    end.

(** The nodes reached from a node, itself included, without going below a
    node whose [Disabled] attribute is already true; in the order in which the
    stack of the traversal yields them. *)
Fixpoint reached_from (node : Value) (nodePath : Path) : list (Path * Value) :=
  (nodePath, node)
  :: match node with
     | Node _ _ children =>
         if attribute_unset Nodes.Disabled node
         then reached_below reached_from children 0 nodePath
         else []
     | _ => []
     end.

(** The operations on [AncestorDisabled] for the nodes reached. *)
Definition ancestor_operations (shouldDisable : bool) (reached : list (Path * Value))
  (patch : Patch) : Patch :=
  fold_left (λ patch x, if is_Row x.2 then patch
                         else procedure shouldDisable Nodes.AncestorDisabled x.2 x.1 patch)
            reached patch.

(** The operations on [Disabled] for the children of a row. *)
Definition row_operations (shouldDisable : bool) (children : list (Path * Value))
  (patch : Patch) : Patch :=
  fold_left (λ patch x, if is_Row x.2 then patch
                         else procedure shouldDisable Nodes.Disabled x.2 x.1 patch)
            children patch.

(** The operation a procedure pushes for a node, if any. *)
Definition operation_for (shouldDisable : bool) (attributeName : string)
  (node : Value) (nodePath : Path) : option PatchOperation :=
  if shouldDisable
  then
    if attribute_unset attributeName node
    then Some (AddOperation (nodePath ++ [Key attributeName]) (Bool true))
    else None
  else
    if attribute_unset attributeName node
    then None
    else Some (RemoveOperation (nodePath ++ [Key attributeName])).

(** The descendants the traversal reaches from a target: it starts at the
    node children of the target, or of each node child of a target row. *)
Definition reached_descendants (targetNode : Value) (targetNodePath : Path)
  : list (Path * Value) :=
  flat_map (λ x, reached_from x.2 x.1)
    (rev (if is_Row targetNode
          then flat_map (λ x, node_children x.2 x.1) (node_children targetNode targetNodePath)
          else node_children targetNode targetNodePath)).

(** The number of values in a tree: a bound on the loop's iterations. *)
Fixpoint node_count (v : Value) : nat :=
  match v with
  | Node _ _ children => S (list_sum (List.map node_count children))
  | _ => 1%nat
  end.

(** The nodes of a stack, counted with what is below them. *)
Definition stack_count (stack : list (Path * Value)) : nat :=
  list_sum (List.map (λ x, node_count x.2) stack).

(** The patch [handleSetNodeDisabled] builds for a valid target. *)
Definition SetNodeDisabled_patch (shouldDisable : bool) (targetNode : Value)
  (targetNodePath : Path) : option Patch :=
  let '(patch, unvisitedDescendants) :=
    if is_Row targetNode
    then propagateAttributeChangeToRow shouldDisable targetNode targetNodePath ([], [])
    else
      ([if shouldDisable
        then AddOperation (targetNodePath ++ [Key Nodes.Disabled]) (Bool true)
        else RemoveOperation (targetNodePath ++ [Key Nodes.Disabled])],
       queueDescendantsForSearch targetNode targetNodePath []) in
  propagateAttributeChangeToDescendants (node_count targetNode) shouldDisable
    unvisitedDescendants patch.

Definition handleSetNodeDisabled (shouldDisable : bool) (targetNodePath : Path) (s : State)
  : option State :=
  let targetNode := at_path (GetContents s) targetNodePath in
  if negb (IsNode targetNode) || IsNull targetNode
  then Some s
  else
    patch ← SetNodeDisabled_patch shouldDisable targetNode targetNodePath;
    Some (if bool_decide (0 < length patch)%nat then emit (NotifyContentsChanged patch) s else s).

(** [ReflectionAdapter::HandleMessage]: [message.Match] dispatches on the
    message; the state after the handler ran. *)
Definition HandleMessage (message : AdapterMessage) (s : State) : option State :=
  match m_message message with
  | OnChanged valueFromEditor changeType =>
      Some (handlePropertyEditorChanged message valueFromEditor changeType s)
  | OnActivate => handleContainerOperation message s
  | RequestTreeUpdate _ => Some (handleTreeUpdate s)
  | SetNodeDisabled shouldDisable targetNodePath =>
      handleSetNodeDisabled shouldDisable targetNodePath s
  | AddContainerKey keyInstance containerPath => addKeyToContainer keyInstance containerPath s
  | RejectContainerKey containerPath => rejectKeyToContainer containerPath s
  | Unmatched _ => Some s
  end.

(** *** The reflection visitor ([ReflectionAdapterReflectionImpl]) *)

Definition on_builder (f : AdapterBuilder.t → AdapterBuilder.t) (s : State) : State :=
  with_builder (f (m_builder s)) s.

(** [Dom::Utils::ValueToType<AZ::PointerObject>]. *)
Definition ValueToType_PointerObject (v : Value) : option PointerObject.t :=
  match v with
  | Opaque (OPointer p) => Some p
  | _ => None
  end.

(** The [IDataContainer*] an attribute carries, [nullptr] when it carries none. *)
Definition container_of_attribute (attribute : option Value) : Address :=
  match attribute with
  | Some v =>
      if IsNull v then nullptr
      else
        match ValueToType_PointerObject v with
        | Some containerObject =>
            if PointerObject.m_typeId containerObject =? azrtti_typeid_IDataContainer
            then PointerObject.m_address containerObject
            else nullptr
        | None => nullptr
        end
  | None => nullptr
  end.

(** The address a pointer attribute carries when it is a valid pointer object. *)
Definition valid_address_of (v : Value) : option Address :=
  match ValueToType_PointerObject v with
  | Some p => if PointerObject.IsValid p then Some (PointerObject.m_address p) else None
  | None => None
  end.

(** [BoundContainer::CreateBoundContainer]. *)
Definition CreateBoundContainer (instance : Address) (attributes : IAttributes)
  : option BoundContainer.t :=
  let container := container_of_attribute (Find DescriptorAttributes.Container attributes) in
  if negb (container =? nullptr)
  then Some {| BoundContainer.m_container := container;
               BoundContainer.m_containerInstance := instance;
               BoundContainer.m_reservedElementInstance := nullptr |}
  else None.

(** [ContainerElement::CreateContainerElement]; the outer [None] is the
    dereference of a missing [ParentContainerInstance] attribute. *)
Definition CreateContainerElement (instance : Address) (attributes : IAttributes)
  : option (option ContainerElement.t) :=
  let parentContainer :=
    container_of_attribute (Find DescriptorAttributes.ParentContainer attributes) in
  if negb (parentContainer =? nullptr)
  then
    parentContainerInstanceValue ← Find DescriptorAttributes.ParentContainerInstance attributes;
    let parentContainerInstance := default nullptr (valid_address_of parentContainerInstanceValue) in
    let instance :=
      match Find DescriptorAttributes.ContainerElementOverride attributes with
      | Some containerElementOverrideValue =>
          default instance (valid_address_of containerElementOverrideValue)
      | None => instance
      end in
    Some (Some {| ContainerElement.m_container := parentContainer;
                  ContainerElement.m_containerInstance := parentContainerInstance;
                  ContainerElement.m_elementInstance := instance |})
  else Some None.

Definition GetPropertyEditor (attributes : IAttributes) : string :=
  match Find DescriptorAttributes.Handler attributes with
  | Some (Str handler) => handler
  | _ =>
      match Find Nodes.PropertyEditor_EnumType attributes with
      | Some enumTypeHandler =>
          if IsNull enumTypeHandler then "" else Nodes.ComboBox_Name
      | None => ""
      end
  end.

Definition ExtractSerializedPath (attributes : IAttributes) : string :=
  match Find DescriptorAttributes.SerializedPath attributes with
  | Some (Str serializedPath) => serializedPath
  | _ => ""
  end.

(** [ReflectionAdapter::CreateLabel]. *)
Definition CreateLabel (labelText : string) (serializedPath : string) (s : State) : State :=
  on_builder (AdapterBuilder.Label labelText) s.

Definition ExtractAndCreateLabel (attributes : IAttributes) (s : State) : State :=
  match Find DescriptorAttributes.Label attributes with
  | Some (Str label) => CreateLabel label (ExtractSerializedPath attributes) s
  | _ => s
  end.

Definition ignoredAttributes : list string :=
  [DescriptorAttributes.Label; DescriptorAttributes.Handler;
   DescriptorAttributes.Container; Nodes.PropertyEditor_Visibility].

(** The callback [ForwardAttributes] hands to [ListAttributes]. *)
Definition forward_attribute (b : AdapterBuilder.t) (a : string * string * Value)
  : AdapterBuilder.t :=
  let '(group, name, value) := a in
  if negb (String.eqb group "") then b
  else if bool_decide (name ∈ ignoredAttributes) then b
  else if bool_decide (name ∈ RowAttributes) then b
  else AdapterBuilder.Attribute name value b.

Definition ForwardAttributes (attributes : IAttributes) (s : State) : State :=
  on_builder (λ b, fold_left forward_attribute attributes b) s.

Definition CreateContainerButton (action : Nodes.ContainerAction)
  (disabled ancestorDisabled : bool) (containerIndex : Z) (alignment : Nodes.Align)
  (s : State) : State :=
  let s := on_builder (AdapterBuilder.BeginPropertyEditor Nodes.ContainerActionButton_Name Null) s in
  let s := on_builder (AdapterBuilder.Attribute Nodes.PropertyEditor_SharePriorColumn (Bool true)) s in
  let s := on_builder (AdapterBuilder.Attribute Nodes.PropertyEditor_UseMinimumWidth (Bool true)) s in
  let s := on_builder (AdapterBuilder.Attribute Nodes.PropertyEditor_Alignment
                         (Nodes.Align_ToDom alignment)) s in
  let s := on_builder (AdapterBuilder.Attribute Nodes.ContainerActionButton_Action
                         (Nodes.ContainerAction_ToDom action)) s in
  let s := if ancestorDisabled
           then on_builder (AdapterBuilder.Attribute Nodes.AncestorDisabled (Bool true)) s
           else s in
  let s := if disabled
           then on_builder (AdapterBuilder.Attribute Nodes.Disabled (Bool true)) s
           else s in
  let s := if negb (containerIndex =? -1)
           then on_builder (AdapterBuilder.Attribute Nodes.ContainerActionButton_ContainerIndex
                              (Int64 containerIndex)) s
           else s in
  let s := on_builder (AdapterBuilder.AddMessageHandler Nodes.ContainerActionButton_OnActivate) s in
  on_builder AdapterBuilder.EndPropertyEditor s.

(** [attribute->IsBool() && attribute->GetBool()], [dflt] when it is absent. *)
Definition bool_attribute (dflt : bool) (attribute : option Value) : bool :=
  match attribute with
  | Some v => IsBool v && GetBool v
  | None => dflt
  end.

Definition CheckContainerElement (instance : Address) (attributes : IAttributes) (s : State)
  : option State :=
  let parentContainerAttribute := Find DescriptorAttributes.ParentContainer attributes in
  let parentContainerInstanceAttribute :=
    Find DescriptorAttributes.ParentContainerInstance attributes in
  let parentContainer := container_of_attribute parentContainerAttribute in
  match parentContainerInstanceAttribute with
  | Some parentContainerInstanceValue =>
      if negb (parentContainer =? nullptr) && negb (IsNull parentContainerInstanceValue)
      then
        let parentContainerInstance :=
          default nullptr (valid_address_of parentContainerInstanceValue) in
        element ← CreateContainerElement instance attributes;
        let currentPath := AdapterBuilder.GetCurrentPath (m_builder s) in
        let s :=
          match PrefixTree.ValueAtPath_ExactPath (m_containers s) currentPath with
          | Some containerEntry =>
              with_containers
                (PrefixTree.SetValue currentPath
                   {| ContainerEntry.m_container := ContainerEntry.m_container containerEntry;
                      ContainerEntry.m_element := element |} (m_containers s)) s
          | None =>
              with_containers
                (PrefixTree.SetValue currentPath
                   {| ContainerEntry.m_container := None;
                      ContainerEntry.m_element := element |} (m_containers s)) s
          end in
        let parentCanBeModified :=
          bool_attribute true (Find DescriptorAttributes.ParentContainerCanBeModified attributes) in
        let container := dataContainerAt parentContainer in
        if negb (IsFixedSize container) && parentCanBeModified
        then
          let isAncestorDisabledValue :=
            match Find Nodes.AncestorDisabled attributes with
            | Some (Bool b) => b
            | _ => false
            end in
          s ←
            (if negb (parentContainerInstance =? nullptr)
             then
               let containerSize := Z.of_nat (Size container (memory s) parentContainerInstance) in
               if (1 <? containerSize) && IsSequenceContainer container
               then
                 containerIndexAttribute ← Find DescriptorAttributes.ContainerIndex attributes;
                 let containerIndex := GetInt64 containerIndexAttribute in
                 let s := CreateContainerButton Nodes.MoveUp (containerIndex =? 0)
                            isAncestorDisabledValue containerIndex Nodes.AlignRight s in
                 Some (CreateContainerButton Nodes.MoveDown (containerIndex =? containerSize - 1)
                         isAncestorDisabledValue containerIndex Nodes.AlignRight s)
               else Some s
             else Some s);
          Some (CreateContainerButton Nodes.RemoveElement false isAncestorDisabledValue (-1)
                  Nodes.AlignRight s)
        else Some s
      else Some s
  | None => Some s
  end.

(** [VisitValue]. *)
Definition VisitValue (value : Value) (instance : Address) (valueSize : nat)
  (attributes : IAttributes) (onChanged : OnChangedCallback) (createRow hashValue : bool)
  (s : State) : option State :=
  let s := if createRow
           then ExtractAndCreateLabel attributes (on_builder AdapterBuilder.BeginRow s)
           else s in
  let s := on_builder (AdapterBuilder.BeginPropertyEditor (GetPropertyEditor attributes) value) s in
  let s := ForwardAttributes attributes s in
  let s := with_onChangedCallbacks
             (PrefixTree.SetValue (AdapterBuilder.GetCurrentPath (m_builder s)) onChanged
                (m_onChangedCallbacks s)) s in
  let s := on_builder (AdapterBuilder.AddMessageHandler Nodes.PropertyEditor_OnChanged) s in
  let s := on_builder (AdapterBuilder.AddMessageHandler Nodes.PropertyEditor_RequestTreeUpdate) s in
  let s := if hashValue
           then on_builder (AdapterBuilder.Attribute Nodes.PropertyEditor_ValueHashed
                              (Int64 (hash_instance (memory s) instance valueSize))) s
           else s in
  let s := on_builder AdapterBuilder.EndPropertyEditor s in
  s ← CheckContainerElement instance attributes s;
  Some (if createRow then on_builder AdapterBuilder.EndRow s else s).

(** The visibility test at the head of [VisitPrimitive], [VisitObjectBegin]
    and [VisitObjectEnd]: [true] when the visit returns at once. *)
Definition is_hidden (attributes : IAttributes) : bool :=
  let visibility :=
    match Find Nodes.PropertyEditor_Visibility attributes with
    | Some visibilityAttribute =>
        default Nodes.Show (Visibility_DomToValue visibilityAttribute)
    | None => Nodes.Show
    end in
  match visibility with
  | Nodes.Hide | Nodes.ShowChildrenOnly => true
  | _ => false
  end.

(** [VisitPrimitive<T>]. *)
Definition VisitPrimitive (T : PrimitiveType) (value : Address) (attributes : IAttributes)
  (s : State) : option State :=
  if is_hidden attributes then Some s
  else
    VisitValue (ValueFromType T (load T (memory s) value)) value (sizeof T) attributes
      (VisitPrimitive_onChanged T value) true false s.

(** [VisitValueWithSerializedPath]. *)
Definition VisitValueWithSerializedPath (access : IObjectAccess) (attributes : IAttributes)
  (s : State) : option State :=
  let valueType := GetType access in
  let valuePointer := Get access in
  let serializedValue := (JsonSerialization_Store (memory s) valuePointer nullptr valueType).2 in
  let instancePointerValue := VisitRapidJsonValue serializedValue in
  let typeSize := GetTypeSize valueType in
  VisitValue instancePointerValue valuePointer typeSize attributes
    (VisitValueWithSerializedPath_onChanged valuePointer valueType) false false s.

(** The container branch of [VisitObjectBegin]: the table entry, the labels
    and the add and clear buttons. *)
Definition begin_container (container : Address) (access : IObjectAccess)
  (attributes : IAttributes) (s : State) : State :=
  let s := with_containers
             (PrefixTree.SetValue (AdapterBuilder.GetCurrentPath (m_builder s))
                {| ContainerEntry.m_container := CreateBoundContainer (Get access) attributes;
                   ContainerEntry.m_element := None |} (m_containers s)) s in
  let c := dataContainerAt container in
  let s :=
    match Find DescriptorAttributes.Label attributes with
    | Some (Str label) =>
        let serializedPath := ExtractSerializedPath attributes in
        let s := CreateLabel label serializedPath s in
        match Find Nodes.Label_ValueText attributes with
        | Some (Str valueText) => CreateLabel valueText serializedPath s
        | _ =>
            let containerSize := Size c (memory s) (Get access) in
            if bool_decide (containerSize = 1%nat)
            then CreateLabel "1 element" serializedPath s
            else CreateLabel (pretty containerSize ++ " elements") serializedPath s
        end
    | _ => s
    end in
  let canBeModified :=
    bool_attribute true (Find Nodes.Container_ContainerCanBeModified attributes) in
  if canBeModified && negb (IsFixedSize c)
  then
    let isDisabled := bool_attribute false (Find Nodes.Disabled attributes) in
    let s := CreateContainerButton Nodes.AddElement isDisabled false (-1) Nodes.AlignRight s in
    let isDisabled :=
      if negb isDisabled
      then bool_decide (Size c (memory s) (Get access) = 0%nat)
      else isDisabled in
    CreateContainerButton Nodes.Clear isDisabled false (-1) Nodes.AlignRight s
  else s.

(** [VisitObjectBegin]. *)
Definition VisitObjectBegin (access : IObjectAccess) (attributes : IAttributes) (s : State)
  : option State :=
  if is_hidden attributes then Some s
  else
    let s := on_builder AdapterBuilder.BeginRow s in
    let s :=
      on_builder
        (λ b, fold_left
                (λ b attribute,
                   match Find attribute attributes with
                   | Some attributeValue =>
                       if IsNull attributeValue then b
                       else AdapterBuilder.Attribute attribute attributeValue b
                   | None => b
                   end) RowAttributes b) s in
    if GetType access =? azrtti_typeid_string
    then
      let s := ExtractAndCreateLabel attributes s in
      let value := Get access in
      VisitValue (Str (load_string (memory s) value)) value sizeof_string attributes
        (VisitObjectBegin_string_onChanged value) false false s
    else if GetType access =? azrtti_typeid_bool
    then
      let s := ExtractAndCreateLabel attributes s in
      let value := Get access in
      VisitValue (Bool (load_bool (memory s) value)) value (sizeof T_bool) attributes
        (VisitObjectBegin_bool_onChanged value) false false s
    else
      let container := container_of_attribute (Find DescriptorAttributes.Container attributes) in
      let s :=
        if negb (container =? nullptr)
        then begin_container container access attributes s
        else ExtractAndCreateLabel attributes s in
      let instancePointerValue := MarshalTypedPointerToValue (Get access) (GetType access) in
      let hashValue := IsOpaqueValue instancePointerValue in
      let serializedPath := ExtractSerializedPath attributes in
      if ed_enableInspectorOverrideManagement && negb (String.eqb serializedPath "")
      then VisitValueWithSerializedPath access attributes s
      else
        let typeSize := GetTypeSize (GetType access) in
        VisitValue instancePointerValue (Get access) typeSize attributes
          (StoreValueIntoPointer (Get access) (GetType access)) false hashValue s.

(** [VisitObjectEnd]. *)
Definition VisitObjectEnd (access : IObjectAccess) (attributes : IAttributes) (s : State)
  : State :=
  if is_hidden attributes then s else on_builder AdapterBuilder.EndRow s.

(** One call of the reflection walk on the visitor. *)
Definition visit (call : VisitCall) (s : State) : option State :=
  match call with
  | call_Visit T value attributes => VisitPrimitive T value attributes s
  | call_VisitObjectBegin access attributes => VisitObjectBegin access attributes s
  | call_VisitObjectEnd access attributes => Some (VisitObjectEnd access attributes s)
  | call_Visit_ignored => Some s
  end.

Fixpoint visit_all (calls : list VisitCall) (s : State) : option State :=
  match calls with
  | [] => Some s
  | call :: rest => s ← visit call s; visit_all rest s
  end.

(** [ReflectionAdapter::GenerateContents]: the DOM it returns and the state
    it leaves. *)
Definition GenerateContents (s : State) : option (Value * State) :=
  let s := on_builder AdapterBuilder.BeginAdapter s in
  let s := on_builder (AdapterBuilder.AddMessageHandler Nodes.Adapter_QueryKey) s in
  let s := on_builder (AdapterBuilder.AddMessageHandler Nodes.Adapter_AddContainerKey) s in
  let s := on_builder (AdapterBuilder.AddMessageHandler Nodes.Adapter_RejectContainerKey) s in
  let s := on_builder (AdapterBuilder.AddMessageHandler Nodes.Adapter_SetNodeDisabled) s in
  let s := with_onChangedCallbacks PrefixTree.Clear s in
  let s := with_containers PrefixTree.Clear s in
  s ← (if negb (m_instance s =? nullptr)
       then visit_all (VisitLegacyInMemoryInstance (memory s) (m_instance s) (m_typeId s)) s
       else Some s);
  let s := on_builder AdapterBuilder.EndAdapter s in
  let '(result, b) := AdapterBuilder.FinishAndTakeResult (m_builder s) in
  Some (result, with_builder b s).

(** The state [GenerateContents] hands to the walk: the adapter node is open
    with its four message handlers and both tables are cleared. *)
Definition begun (s : State) : State :=
  let s := on_builder AdapterBuilder.BeginAdapter s in
  let s := on_builder (AdapterBuilder.AddMessageHandler Nodes.Adapter_QueryKey) s in
  let s := on_builder (AdapterBuilder.AddMessageHandler Nodes.Adapter_AddContainerKey) s in
  let s := on_builder (AdapterBuilder.AddMessageHandler Nodes.Adapter_RejectContainerKey) s in
  let s := on_builder (AdapterBuilder.AddMessageHandler Nodes.Adapter_SetNodeDisabled) s in
  let s := with_onChangedCallbacks PrefixTree.Clear s in
  with_containers PrefixTree.Clear s.

(** [ReflectionAdapter::SetValue]. *)
Definition SetValue (instance : Address) (typeId : TypeId) (s : State) : State :=
  emit (NotifyResetDocument HardReset)
    {| m_instance := instance; m_typeId := typeId; m_builder := m_builder s;
       m_onChangedCallbacks := m_onChangedCallbacks s; m_containers := m_containers s;
       GetContents := GetContents s; memory := memory s; trace := trace s |}.

(** *** The document a walk describes *)

(** The reflection walk as a forest: an object's members are visited between
    its [VisitObjectBegin] and its [VisitObjectEnd]. *)
Inductive VisitTree :=
| visited_primitive (T : PrimitiveType) (value : Address) (attributes : IAttributes)
| visited_object (access : IObjectAccess) (attributes : IAttributes) (members : list VisitTree)
| visited_ignored.

Fixpoint calls_of (tree : VisitTree) : list VisitCall :=
  match tree with
  | visited_primitive T value attributes => [call_Visit T value attributes]
  | visited_object access attributes members =>
      call_VisitObjectBegin access attributes
      :: flat_map calls_of members ++ [call_VisitObjectEnd access attributes]
  | visited_ignored => [call_Visit_ignored]
  end.

Definition calls_of_forest (forest : list VisitTree) : list VisitCall :=
  flat_map calls_of forest.

(** The attribute a message handler is stored as. *)
Definition message_handler (messageName : string) (origin : Path) : Value :=
  Opaque (OMessageHandler messageName origin).

(** The nodes of the document.  Each function below gives the children of an
    open node at [path] after a step of the visit, from its children [ch]
    before the step; a node appended to [ch] sits at [path / length ch]. *)
Definition Label_node (text : string) : Value :=
  Node Nodes.Label_Name [(Nodes.Label_Value, Str text)] [].

Definition labelled (attributes : IAttributes) (ch : list Value) : list Value :=
  match Find DescriptorAttributes.Label attributes with
  | Some (Str label) => ch ++ [Label_node label]
  | _ => ch
  end.

Definition button_node (action : Nodes.ContainerAction) (disabled ancestorDisabled : bool)
  (containerIndex : Z) (alignment : Nodes.Align) (path : Path) : Value :=
  let n := SetMember Nodes.PropertyEditor_Value Null
             (SetMember Nodes.PropertyEditor_Type (Str Nodes.ContainerActionButton_Name)
                (CreateNode Nodes.PropertyEditor_Name)) in
  let n := SetMember Nodes.PropertyEditor_SharePriorColumn (Bool true) n in
  let n := SetMember Nodes.PropertyEditor_UseMinimumWidth (Bool true) n in
  let n := SetMember Nodes.PropertyEditor_Alignment (Nodes.Align_ToDom alignment) n in
  let n := SetMember Nodes.ContainerActionButton_Action (Nodes.ContainerAction_ToDom action) n in
  let n := if ancestorDisabled then SetMember Nodes.AncestorDisabled (Bool true) n else n in
  let n := if disabled then SetMember Nodes.Disabled (Bool true) n else n in
  let n := if negb (containerIndex =? -1)
           then SetMember Nodes.ContainerActionButton_ContainerIndex (Int64 containerIndex) n
           else n in
  SetMember Nodes.ContainerActionButton_OnActivate
    (message_handler Nodes.ContainerActionButton_OnActivate path) n.

Definition with_button (action : Nodes.ContainerAction) (disabled ancestorDisabled : bool)
  (containerIndex : Z) (alignment : Nodes.Align) (path : Path) (ch : list Value) : list Value :=
  ch ++ [button_node action disabled ancestorDisabled containerIndex alignment
           (path ++ [Index (length ch)])].

(** An attribute forwarded to the property editor. *)
Definition forwarded (node : Value) (a : string * string * Value) : Value :=
  let '(group, name, value) := a in
  if negb (String.eqb group "") then node
  else if bool_decide (name ∈ ignoredAttributes) then node
  else if bool_decide (name ∈ RowAttributes) then node
  else SetMember name value node.

(** The property editor of a value: its type and value, the forwarded
    attributes, the two message handlers and the hash of an opaque value. *)
Definition editor_node (value : Value) (instance : Address) (valueSize : nat)
  (attributes : IAttributes) (hashValue : bool) (m : Memory) (path : Path) : Value :=
  let n := SetMember Nodes.PropertyEditor_Value value
             (SetMember Nodes.PropertyEditor_Type (Str (GetPropertyEditor attributes))
                (CreateNode Nodes.PropertyEditor_Name)) in
  let n := fold_left forwarded attributes n in
  let n := SetMember Nodes.PropertyEditor_OnChanged
             (message_handler Nodes.PropertyEditor_OnChanged path) n in
  let n := SetMember Nodes.PropertyEditor_RequestTreeUpdate
             (message_handler Nodes.PropertyEditor_RequestTreeUpdate path) n in
  if hashValue
  then SetMember Nodes.PropertyEditor_ValueHashed (Int64 (hash_instance m instance valueSize)) n
  else n.

(** The buttons of a container element ([CheckContainerElement]). *)
Definition element_buttons (attributes : IAttributes) (m : Memory) (path : Path)
  (ch : list Value) : option (list Value) :=
  let parentContainer :=
    container_of_attribute (Find DescriptorAttributes.ParentContainer attributes) in
  match Find DescriptorAttributes.ParentContainerInstance attributes with
  | Some parentContainerInstanceValue =>
      if negb (parentContainer =? nullptr) && negb (IsNull parentContainerInstanceValue)
      then
        let parentContainerInstance :=
          default nullptr (valid_address_of parentContainerInstanceValue) in
        let parentCanBeModified :=
          bool_attribute true (Find DescriptorAttributes.ParentContainerCanBeModified attributes) in
        let container := dataContainerAt parentContainer in
        if negb (IsFixedSize container) && parentCanBeModified
        then
          let isAncestorDisabledValue :=
            match Find Nodes.AncestorDisabled attributes with
            | Some (Bool b) => b
            | _ => false
            end in
          ch ←
            (if negb (parentContainerInstance =? nullptr)
             then
               let containerSize := Z.of_nat (Size container m parentContainerInstance) in
               if (1 <? containerSize) && IsSequenceContainer container
               then
                 containerIndexAttribute ← Find DescriptorAttributes.ContainerIndex attributes;
                 let containerIndex := GetInt64 containerIndexAttribute in
                 let ch := with_button Nodes.MoveUp (containerIndex =? 0)
                             isAncestorDisabledValue containerIndex Nodes.AlignRight path ch in
                 Some (with_button Nodes.MoveDown (containerIndex =? containerSize - 1)
                         isAncestorDisabledValue containerIndex Nodes.AlignRight path ch)
               else Some ch
             else Some ch);
          Some (with_button Nodes.RemoveElement false isAncestorDisabledValue (-1)
                  Nodes.AlignRight path ch)
        else Some ch
      else Some ch
  | None => Some ch
  end.

(** The property editor of a value and the buttons after it ([VisitValue]
    without a row of its own). *)
Definition value_children (value : Value) (instance : Address) (valueSize : nat)
  (attributes : IAttributes) (hashValue : bool) (m : Memory) (path : Path)
  (ch : list Value) : option (list Value) :=
  element_buttons attributes m path
    (ch ++ [editor_node value instance valueSize attributes hashValue m
              (path ++ [Index (length ch)])]).

(** The Row of a visible primitive: the label if it has one, the property
    editor, the buttons of a container element. *)
Definition primitive_row (T : PrimitiveType) (value : Address) (attributes : IAttributes)
  (m : Memory) (rowPath : Path) : option Value :=
  Node Nodes.Row_Name []
  <$> value_children (ValueFromType T (load T m value)) value (sizeof T) attributes false m
        rowPath (labelled attributes []).

(** The members of the Row of an object: the row attributes it has. *)
Definition row_members (attributes : IAttributes) : list (string * Value) :=
  fold_left (λ ms attribute,
               match Find attribute attributes with
               | Some attributeValue =>
                   if IsNull attributeValue then ms else assoc_set attribute attributeValue ms
               | None => ms
               end) RowAttributes [].

(** The labels and the buttons of a container ([begin_container]). *)
Definition container_children (container : Address) (access : IObjectAccess)
  (attributes : IAttributes) (m : Memory) (path : Path) (ch : list Value) : list Value :=
  let c := dataContainerAt container in
  let ch :=
    match Find DescriptorAttributes.Label attributes with
    | Some (Str label) =>
        let ch := ch ++ [Label_node label] in
        match Find Nodes.Label_ValueText attributes with
        | Some (Str valueText) => ch ++ [Label_node valueText]
        | _ =>
            let containerSize := Size c m (Get access) in
            if bool_decide (containerSize = 1%nat)
            then ch ++ [Label_node "1 element"]
            else ch ++ [Label_node (pretty containerSize ++ " elements")]
        end
    | _ => ch
    end in
  let canBeModified :=
    bool_attribute true (Find Nodes.Container_ContainerCanBeModified attributes) in
  if canBeModified && negb (IsFixedSize c)
  then
    let isDisabled := bool_attribute false (Find Nodes.Disabled attributes) in
    let ch := with_button Nodes.AddElement isDisabled false (-1) Nodes.AlignRight path ch in
    let isDisabled :=
      if negb isDisabled
      then bool_decide (Size c m (Get access) = 0%nat)
      else isDisabled in
    with_button Nodes.Clear isDisabled false (-1) Nodes.AlignRight path ch
  else ch.

(** The children the Row of an object has when its members are about to be
    visited ([VisitObjectBegin]). *)
Definition object_children (access : IObjectAccess) (attributes : IAttributes)
  (m : Memory) (rowPath : Path) : option (list Value) :=
  if GetType access =? azrtti_typeid_string
  then value_children (Str (load_string m (Get access))) (Get access) sizeof_string
         attributes false m rowPath (labelled attributes [])
  else if GetType access =? azrtti_typeid_bool
  then value_children (Bool (load_bool m (Get access))) (Get access) (sizeof T_bool)
         attributes false m rowPath (labelled attributes [])
  else
    let container := container_of_attribute (Find DescriptorAttributes.Container attributes) in
    let ch :=
      if negb (container =? nullptr)
      then container_children container access attributes m rowPath []
      else labelled attributes [] in
    let instancePointerValue := MarshalTypedPointerToValue (Get access) (GetType access) in
    if ed_enableInspectorOverrideManagement
       && negb (String.eqb (ExtractSerializedPath attributes) "")
    then
      value_children
        (VisitRapidJsonValue (JsonSerialization_Store m (Get access) nullptr (GetType access)).2)
        (Get access) (GetTypeSize (GetType access)) attributes false m rowPath ch
    else
      value_children instancePointerValue (Get access) (GetTypeSize (GetType access))
        attributes (IsOpaqueValue instancePointerValue) m rowPath ch.

(** The children of the open node at [path] once the trees of a forest are
    visited one after the other, given the children after one tree. *)
Definition children_after
  (document_children : VisitTree → Path → list Value → option (list Value))
  : list VisitTree → Path → list Value → option (list Value) :=
  fix children_after (forest : list VisitTree) (path : Path) (ch : list Value) :=
    match forest with
    | [] => Some ch
    | tree :: rest =>
        ch ← document_children tree path ch;
        children_after rest path ch
    end.

(** The children of the open node at [path] once [tree] is visited: a
    visible primitive and a visible object each append one Row; the members
    of an object go into its Row, those of a hidden object into the open node
    itself. *)
Fixpoint document_children (m : Memory) (tree : VisitTree) (path : Path) (ch : list Value)
  : option (list Value) :=
  match tree with
  | visited_primitive T value attributes =>
      if is_hidden attributes then Some ch
      else
        row ← primitive_row T value attributes m (path ++ [Index (length ch)]);
        Some (ch ++ [row])
  | visited_object access attributes members =>
      if is_hidden attributes then children_after (document_children m) members path ch
      else
        let rowPath := path ++ [Index (length ch)] in
        rowChildren ← object_children access attributes m rowPath;
        rowChildren ← children_after (document_children m) members rowPath rowChildren;
        Some (ch ++ [Node Nodes.Row_Name (row_members attributes) rowChildren])
  | visited_ignored => Some ch
  end.

Definition forest_children (m : Memory) (forest : list VisitTree) (path : Path)
  (ch : list Value) : option (list Value) :=
  children_after (document_children m) forest path ch.

(** The members of the adapter node: its four message handlers. *)
Definition adapter_members : list (string * Value) :=
  [(Nodes.Adapter_QueryKey, message_handler Nodes.Adapter_QueryKey []);
   (Nodes.Adapter_AddContainerKey, message_handler Nodes.Adapter_AddContainerKey []);
   (Nodes.Adapter_RejectContainerKey, message_handler Nodes.Adapter_RejectContainerKey []);
   (Nodes.Adapter_SetNodeDisabled, message_handler Nodes.Adapter_SetNodeDisabled [])].




(** The builder of [s] has [entries] open at [path], and the memory is [m]. *)
Definition built (s : State) (entries : list Value) (path : Path) (value : Value)
  (m : Memory) : Prop :=
  m_builder s = AdapterBuilder.Build_t entries path value ∧ memory s = m.

(** What visiting [calls] makes of the children of the open node. *)
Definition appends (calls : list VisitCall) (m : Memory)
  (children : Path → list Value → option (list Value)) : Prop :=
  ∀ (s : State) name ms ch rest p v,
    built s (Node name ms ch :: rest) p v m →
    match children p ch with
    | Some ch' =>
        ∃ s', visit_all calls s = Some s' ∧ built s' (Node name ms ch' :: rest) p v m
    | None => visit_all calls s = None
    end.

(** *** Sequences of messages, and what the statements below speak of *)

(** The messages of a list handled one after the other. *)
Fixpoint HandleMessages (messages : list AdapterMessage) (s : State) : option State :=
  match messages with
  | [] => Some s
  | message :: rest => s ← HandleMessage message s; HandleMessages rest s
  end.

(** The two replies to a key query. *)
Definition is_key_reply (message : AdapterMessage) : bool :=
  match m_message message with
  | AddContainerKey _ _ | RejectContainerKey _ => true
  | _ => false
  end.

(** The bound container the table holds at [entryPath]. *)
Definition bound_container_at (entryPath : Path) (s : State) : option BoundContainer.t :=
  m_containers s !! entryPath ≫= ContainerEntry.m_container.

(** Its reserved-element pointer. *)
Definition reserved_at (entryPath : Path) (s : State) : option Address :=
  BoundContainer.m_reservedElementInstance <$> bound_container_at entryPath s.

(** The bound container at [entryPath] is driven by [container] and holds a
    reserved element. *)
Definition awaiting_key (entryPath : Path) (container : Address) (s : State) : Prop :=
  ∃ bc, bound_container_at entryPath s = Some bc
        ∧ BoundContainer.m_container bc = container
        ∧ BoundContainer.m_reservedElementInstance bc ≠ nullptr.

End ReflectionAdapter.


(** ** A small engine to run the adapter on *)

Module Toy.

(** Memory: the element lists of container instances, the key of each
    element of an associative container, the values of other objects, and the
    next address to hand out. *)
Record Mem := {
  containers : gmap Z (list Z);
  keys : gmap Z Z;
  cells : gmap Z Value;
  next : Z
}.

Definition elements (m : Mem) (instance : Z) : list Z := default [] (containers m !! instance).

Definition set_elements (m : Mem) (instance : Z) (l : list Z) : Mem :=
  {| containers := <[instance := l]> (containers m); keys := keys m;
     cells := cells m; next := next m |}.

Definition set_cell (m : Mem) (a : Z) (v : Value) : Mem :=
  {| containers := containers m; keys := keys m;
     cells := <[a := v]> (cells m); next := next m |}.

Definition cell (m : Mem) (a : Z) : Value := default Null (cells m !! a).

Definition swap (l : list Z) (i j : nat) : list Z :=
  match l !! i, l !! j with
  | Some x, Some y => <[j := x]> (<[i := y]> l)
  | _, _ => l
  end.

(** A container in the manner of [AZStd::vector], [AZStd::fixed_vector] (with
    a capacity) or [AZStd::unordered_map] (associative, its class element
    declaring the key type). *)
Definition container (capacity : option nat) (keyType : option Z) : IDataContainer Mem :=
  {| IsFixedSize := false;
     IsFixedCapacity := bool_decide (is_Some capacity);
     IsSequenceContainer := bool_decide (keyType = None);
     Size := λ m instance, length (elements m instance);
     Capacity := λ m instance, default 0%nat capacity;
     ReserveElement := λ m instance,
       (Z.max (next m) 1,
        {| containers := containers m; keys := keys m;
           cells := cells m; next := Z.max (next m) 1 + 1 |});
     StoreElement := λ m instance element,
       set_elements m instance (elements m instance ++ [element]);
     FreeReservedElement := λ m instance element, m;
     RemoveElement := λ m instance element,
       set_elements m instance (filter (λ e, e ≠ element) (elements m instance));
     ClearElements := λ m instance, set_elements m instance [];
     SwapElements := λ m instance i j,
       set_elements m instance (swap (elements m instance) (Z.to_nat i) (Z.to_nat j));
     GetAssociativeContainerInterface :=
       match keyType with
       | Some _ =>
           Some {| SetElementKey := λ m element key,
                     {| containers := containers m; keys := <[element := key]> (keys m);
                        cells := cells m; next := next m |} |}
       | None => None
       end;
     FindAttribute_KeyType := AttributeData_Uuid <$> keyType |}.

Definition vector_descriptor : Z := 100.
Definition fixed_vector_descriptor : Z := 101.
Definition map_descriptor : Z := 102.
Definition map_keyType : Z := 7.

(** The descriptors: a vector, a fixed vector of capacity 2, a map. *)
Definition descriptor_at (descriptor : Z) : IDataContainer Mem :=
  if descriptor =? fixed_vector_descriptor then container (Some 2%nat) None
  else if descriptor =? map_descriptor then container None (Some map_keyType)
  else container None None.

(** JSON documents are DOM values here.  Loading clamps integers at 100, so a
    loaded instance may differ from the value that was offered; the type 13
    cannot be stored and the type 14 cannot be loaded. *)
Definition clamp (v : Value) : Value :=
  match v with
  | Int64 z => Int64 (Z.min z 100)
  | _ => v
  end.

Definition Store (m : Mem) (object defaultObject : Z) (type : Z) : Processing * Value :=
  if type =? 13 then (Halted, Null) else (Completed, cell m object).

Definition Load (m : Mem) (object : Z) (type : Z) (buffer : Value) : Processing * Mem :=
  if type =? 14 then (Halted, m) else (Completed, set_cell m object (clamp buffer)).

(** A DOM value marshals to a pointer when it is a pointer object. *)
Definition TryMarshal (v : Value) (type : Z) : Z :=
  match v with
  | Opaque (OPointer p) => PointerObject.m_address p
  | _ => 0
  end.

Definition pointer (a type : Z) : Value :=
  Opaque (OPointer {| PointerObject.m_address := a; PointerObject.m_typeId := type |}).

(** The walk over a container instance: the container object, then each
    element as an [s32] that knows its parent container and its index. *)
Definition walk_container (descriptor : Z) (m : Mem) (instance type : Z) : list VisitCall :=
  let access := {| GetType := type; Get := instance |} in
  let attributes :=
    [("", "Label", Str "Items"); ("", "Container", pointer descriptor 1);
     ("", "SerializedPath", Str "items")] in
  call_VisitObjectBegin access attributes
  :: imap (λ i element,
             call_Visit T_s32 element
               [("", "ParentContainer", pointer descriptor 1);
                ("", "ParentContainerInstance", pointer instance type);
                ("", "ContainerIndex", Int64 (Z.of_nat i))])
          (elements m instance)
  ++ [call_VisitObjectEnd access attributes].

(** The reflection walk: type 21 is a vector, 22 a fixed vector, 23 a map;
    any other type is a single [s32] with a label and one more attribute. *)
Definition walk (m : Mem) (instance type : Z) : list VisitCall :=
  if type =? 21 then walk_container vector_descriptor m instance type
  else if type =? 22 then walk_container fixed_vector_descriptor m instance type
  else if type =? 23 then walk_container map_descriptor m instance type
  else [call_Visit T_s32 instance [("", "Label", Str "Count"); ("", "Min", Int64 0)]].

#[export] Instance engine : Engine := {|
  Memory := Mem;
  Json := Value;
  Primitive := Value;
  dataContainerAt := descriptor_at;
  azrtti_typeid_IDataContainer := 1;
  azrtti_typeid_string := 2;
  azrtti_typeid_bool := 3;
  load := λ T m a, cell m a;
  store := λ T m a v, set_cell m a v;
  load_string := λ m a, GetString (cell m a);
  store_string := λ m a x, set_cell m a (Str x);
  load_bool := λ m a, GetBool (cell m a);
  store_bool := λ m a x, set_cell m a (Bool x);
  sizeof := λ T, 4%nat;
  sizeof_string := 24%nat;
  ValueFromType := λ T v, v;
  ValueToType := λ T v,
    match T, v with
    | T_bool, Bool _ => Some v
    | T_bool, _ => None
    | _, Int64 _ => Some v
    | _, _ => None
    end;
  JsonSerialization_Store := Store;
  JsonSerialization_Load := Load;
  TryMarshalValueToPointer := TryMarshal;
  MarshalTypedPointerToValue := pointer;
  LoadViaJsonSerialization := λ m a type v, Load m a type v;
  StoreViaJsonSerialization := λ m a defaultObject type keepDefaults, cell m a;
  VisitRapidJsonValue := λ j, j;
  GetTypeSize := λ type, 8%nat;
  hash_instance := λ m a size, a;
  ed_enableInspectorOverrideManagement := false;
  RowAttributes := ["AutoExpand"; "ForceAutoExpand"];
  Visibility_DomToValue := λ v,
    match v with
    | Int64 0 => Some Nodes.Show
    | Int64 1 => Some Nodes.ShowChildrenOnly
    | Int64 2 => Some Nodes.Hide
    | Int64 3 => Some Nodes.HideChildren
    | _ => None
    end;
  VisitLegacyInMemoryInstance := walk
|}.

(** A state to start from: nothing generated yet, two elements in the
    container instance at 500, a counter at 700. *)
Definition memory0 : Mem :=
  {| containers := {[ 500 := [600; 601] ]};
     keys := ∅;
     cells := {[ 600 := Int64 5; 601 := Int64 6; 700 := Int64 42 ]};
     next := 1000 |}.

Definition initial (instance type : Z) : State :=
  {| m_instance := instance; m_typeId := type;
     m_builder := AdapterBuilder.empty;
     m_onChangedCallbacks := ∅; m_containers := ∅;
     GetContents := Null; memory := memory0; trace := [] |}.

(** The adapter once its base class has generated and cached the document. *)
Definition serving (s : State) : option State :=
  '(contents, s) ← GenerateContents s;
  Some {| m_instance := m_instance s; m_typeId := m_typeId s; m_builder := m_builder s;
          m_onChangedCallbacks := m_onChangedCallbacks s; m_containers := m_containers s;
          GetContents := contents; memory := memory s; trace := trace s |}.

Definition run (s : State) : State := default s (serving s).

(** A vector of two elements, a fixed vector that is full, a map. *)
Definition vector_state : State := Eval vm_compute in run (initial 500 21).
Definition fixed_vector_state : State := Eval vm_compute in run (initial 500 22).
Definition map_state : State := Eval vm_compute in run (initial 500 23).
Definition counter_state : State := Eval vm_compute in run (initial 700 20).

(** The adapter with [contents] as its cached document. *)
Definition cached (contents : Value) (s : State) : State :=
  {| m_instance := m_instance s; m_typeId := m_typeId s; m_builder := m_builder s;
     m_onChangedCallbacks := m_onChangedCallbacks s; m_containers := m_containers s;
     GetContents := contents; memory := memory s; trace := trace s |}.

(** The request to disable or enable the node at [targetNodePath]. *)
Definition set_node_disabled (shouldDisable : bool) (targetNodePath : Path) : AdapterMessage :=
  {| m_messageOrigin := []; m_message := SetNodeDisabled shouldDisable targetNodePath |}.

(** The walk over the vector as a forest. *)
Definition vector_forest : list VisitTree :=
  [visited_object {| GetType := 21; Get := 500 |}
     [("", "Label", Str "Items"); ("", "Container", pointer vector_descriptor 1);
      ("", "SerializedPath", Str "items")]
     [visited_primitive T_s32 600
        [("", "ParentContainer", pointer vector_descriptor 1);
         ("", "ParentContainerInstance", pointer 500 21);
         ("", "ContainerIndex", Int64 0)];
      visited_primitive T_s32 601
        [("", "ParentContainer", pointer vector_descriptor 1);
         ("", "ParentContainerInstance", pointer 500 21);
         ("", "ContainerIndex", Int64 1)]]].

(** The activation of the button at [origin]. *)
Definition activate (origin : Path) : AdapterMessage :=
  {| m_messageOrigin := origin; m_message := OnActivate |}.

End Toy.

(** ** Shader includes *)

Module Shader.

(** The scalar types of the shading language: [float], and [real] (which the
    pipeline compiles as [float] or as a shorter type), with the operations
    the two includes use.  [real_le] is the order the spec speaks of; the two
    laws tie the comparison the code evaluates to it, as they hold for exact
    arithmetic (a NaN would satisfy neither side). *)
Class Arith := {
  float : Type;
  real : Type;
  real_of_float : float → real;
  float_sub : float → float → float;
  real_0 : real;
  real_1 : real;
  real_0_001 : real;
  real_add : real → real → real;
  real_sub : real → real → real;
  real_mul : real → real → real;
  real_div : real → real → real;
  real_max : real → real → real;
  real_ltb : real → real → bool;
  real_le : real → real → Prop;
  real_ltb_ge : ∀ x y, real_le y x → real_ltb x y = false;
  real_ltb_lt : ∀ x y, ¬ real_le y x → real_ltb x y = true
}.

Section Vectors.
Context `{Arith}.

Record float3 := { fx : float; fy : float; fz : float }.
Record real3 := { x : real; y : real; z : real }.

Definition float3_sub (a b : float3) : float3 :=
  {| fx := float_sub (fx a) (fx b); fy := float_sub (fy a) (fy b); fz := float_sub (fz a) (fz b) |}.

(** The conversion [real3(v)]. *)
Definition real3_of_float3 (v : float3) : real3 :=
  {| x := real_of_float (fx v); y := real_of_float (fy v); z := real_of_float (fz v) |}.

Definition dot (a b : real3) : real :=
  real_add (real_add (real_mul (x a) (x b)) (real_mul (y a) (y b))) (real_mul (z a) (z b)).

Definition real3_add (a b : real3) : real3 :=
  {| x := real_add (x a) (x b); y := real_add (y a) (y b); z := real_add (z a) (z b) |}.

(** [v / s] and [v * s] with a scalar. *)
Definition real3_div (v : real3) (s : real) : real3 :=
  {| x := real_div (x v) s; y := real_div (y v) s; z := real_div (z v) s |}.

Definition real3_mul (v : real3) (s : real) : real3 :=
  {| x := real_mul (x v) s; y := real_mul (y v) s; z := real_mul (z v) s |}.

End Vectors.

End Shader.

(** *** SimplePointLight.azsli *)

Module SimplePointLight.
Import Shader.

Section SimplePointLight.
Context `{Arith}.

(** [ViewSrg::SimplePointLight]. *)
Record SimplePointLight := {
  m_position : float3;
  m_invAttenuationRadiusSquared : float;
  m_rgbIntensityCandelas : float3;
  m_lightingChannelMask : N
}.

(** What the light functions read of a [Surface] and of [LightingData] beyond
    the fields below is behind [SurfaceData] and [LightingRest]. *)
Context {SurfaceData LightingRest : Type}.

Record LitSurface := {
  position : float3;
  surfaceData : SurfaceData
}.

(** [LightingData]: the two accumulators, the lighting channels, the tile
    iterator (the light indices it has yet to yield) and the rest. *)
Record LightingData := {
  diffuseLighting : real3;
  specularLighting : real3;
  lightingChannels : N;
  tileIterator : list nat;
  lightingRest : LightingRest
}.

Definition set_diffuseLighting (v : real3) (l : LightingData) : LightingData :=
  {| diffuseLighting := v; specularLighting := specularLighting l;
     lightingChannels := lightingChannels l; tileIterator := tileIterator l;
     lightingRest := lightingRest l |}.

Definition set_specularLighting (v : real3) (l : LightingData) : LightingData :=
  {| diffuseLighting := diffuseLighting l; specularLighting := v;
     lightingChannels := lightingChannels l; tileIterator := tileIterator l;
     lightingRest := lightingRest l |}.

Definition set_tileIterator (it : list nat) (l : LightingData) : LightingData :=
  {| diffuseLighting := diffuseLighting l; specularLighting := specularLighting l;
     lightingChannels := lightingChannels l; tileIterator := it;
     lightingRest := lightingRest l |}.

(** Functions of the lighting library the include calls. *)
Context (normalize : real3 → real3).
Context (GetDiffuseLighting GetSpecularLighting :
           LitSurface → LightingData → real3 → real3 → real3).
Context (IsSameLightChannel : N → N → bool).

(** [ApplySimplePointLight]. *)
Definition ApplySimplePointLight (light : SimplePointLight) (surface : LitSurface)
  (lightingData : LightingData) : LightingData :=
  let posToLight := real3_of_float3 (float3_sub (m_position light) (position surface)) in
  let d2 := dot posToLight posToLight in
  let falloff := real_mul d2 (real_of_float (m_invAttenuationRadiusSquared light)) in
  if real_ltb falloff real_1
  then
    let radiusAttenuation := real_sub real_1 (real_mul falloff falloff) in
    let radiusAttenuation := real_mul radiusAttenuation radiusAttenuation in
    let d2 := real_max (real_mul real_0_001 real_0_001) d2 in
    let lightIntensity :=
      real3_mul (real3_div (real3_of_float3 (m_rgbIntensityCandelas light)) d2)
                radiusAttenuation in
    let posToLightDir := normalize posToLight in
    let lightingData :=
      set_diffuseLighting
        (real3_add (diffuseLighting lightingData)
                   (GetDiffuseLighting surface lightingData lightIntensity posToLightDir))
        lightingData in
    set_specularLighting
      (real3_add (specularLighting lightingData)
                 (GetSpecularLighting surface lightingData lightIntensity posToLightDir))
      lightingData
  else lightingData.

(** The body both loops of [ApplySimplePointLights] share. *)
Definition apply_if_same_channel (m_simplePointLights : nat → SimplePointLight)
  (surface : LitSurface) (lightingData : LightingData) (lightIndex : nat) : LightingData :=
  let light := m_simplePointLights lightIndex in
  if negb (IsSameLightChannel (lightingChannels lightingData) (m_lightingChannelMask light))
  then lightingData
  else ApplySimplePointLight light surface lightingData.

(** [ApplySimplePointLights] without light culling: the [for] loop over
    [ViewSrg::m_simplePointLightCount] lights of the structured buffer
    [ViewSrg::m_simplePointLights]. *)
Definition ApplySimplePointLights (m_simplePointLights : nat → SimplePointLight)
  (m_simplePointLightCount : nat) (surface : LitSurface) (lightingData : LightingData)
  : LightingData :=
  fold_left (apply_if_same_channel m_simplePointLights surface)
            (seq 0 m_simplePointLightCount) lightingData.

(** The [while] loop of the culling variant; [pending] is what the tile
    iterator has yet to yield ([GetValue] its head, [LoadAdvance] its tail). *)
Fixpoint culled_loop (m_simplePointLights : nat → SimplePointLight) (surface : LitSurface)
  (pending : list nat) (lightingData : LightingData) : LightingData :=
  match pending with
  | [] => lightingData
  | currLightIndex :: pending =>
      let lightingData := set_tileIterator pending lightingData in
      culled_loop m_simplePointLights surface pending
        (apply_if_same_channel m_simplePointLights surface lightingData currLightIndex)
  end.

(** The pairs of a light index and what the tile iterator still holds after
    it has yielded that index. *)
Fixpoint yields (pending : list nat) : list (nat * list nat) :=
  match pending with
  | [] => []
  | i :: rest => (i, rest) :: yields rest
  end.

(** [ApplySimplePointLights] under [ENABLE_LIGHT_CULLING]. *)
Definition ApplySimplePointLights_culled (m_simplePointLights : nat → SimplePointLight)
  (surface : LitSurface) (lightingData : LightingData) : LightingData :=
  culled_loop m_simplePointLights surface (tileIterator lightingData) lightingData.

End SimplePointLight.

End SimplePointLight.

(** *** EnhancedPBR surface evaluation *)

Module EnhancedPBR.
Import Shader.

Section EnhancedPBR.
Context `{Arith}.
Context {float2 float4 real4 real3x3 Texture2D sampler BlendMode : Type}.
Context {Anisotropy SurfaceRest : Type}.

(** [TransmissionSurfaceData] and [ClearCoatSurfaceData]. *)
Record Transmission := {
  tint : real3;
  thickness : real;
  transmissionParams : real4;
  transmission_scatterDistance : real3
}.

Record ClearCoat := {
  factor : real;
  roughness : real;
  clearCoat_normal : real3
}.

(** [Surface]: the fields the evaluation assigns by name; what only the
    methods of [Surface] write is [surfaceRest]. *)
Record Surface := {
  position : float3;
  vertexNormal : real3;
  normal : real3;
  alpha : real;
  specularF0 : real3;
  roughnessLinear : real;
  roughnessA : real;
  subsurfaceScatteringFactor : real;
  subsurfaceScatteringQuality : real;
  scatterDistance : real3;
  transmission : Transmission;
  anisotropy : Anisotropy;
  emissiveLighting : real3;
  diffuseAmbientOcclusion : real;
  specularOcclusion : real;
  clearCoat : ClearCoat;
  opacityAffectsSpecularFactor : real;
  surfaceRest : SurfaceRest
}.

(** The fields of [MaterialSrg] the evaluation reads. *)
Record MaterialSrg := {
  m_sampler : sampler;
  m_uvMatrix : real3x3;
  m_detailUvMatrix : real3x3;
  m_detail_allMapsUvIndex : nat;
  m_detail_blendMask_uvIndex : nat;
  m_detail_blendMask_texture : Texture2D;
  m_detail_blendFactor : float;
  m_normalMapUvIndex : nat;
  m_normalMap : Texture2D;
  m_normalFactor : float;
  m_flipNormalX : bool;
  m_flipNormalY : bool;
  m_detail_normal_factor : float;
  m_detail_normal_texture : Texture2D;
  m_detail_normal_flipX : bool;
  m_detail_normal_flipY : bool;
  m_detail_baseColor_factor : float;
  m_detail_baseColor_texture : Texture2D;
  m_baseColorMapUvIndex : nat;
  m_baseColorMap : Texture2D;
  m_baseColor : float3;
  m_baseColorFactor : float;
  m_metallicMapUvIndex : nat;
  m_metallicMap : Texture2D;
  m_metallicFactor : float;
  m_specularF0MapUvIndex : nat;
  m_specularF0Map : Texture2D;
  m_specularF0Factor : float;
  m_roughnessMapUvIndex : nat;
  m_roughnessMap : Texture2D;
  m_roughnessFactor : float;
  m_roughnessLowerBound : float;
  m_roughnessUpperBound : float;
  m_subsurfaceScatteringInfluenceMapUvIndex : nat;
  m_subsurfaceScatteringInfluenceMap : Texture2D;
  m_subsurfaceScatteringFactor : float;
  m_subsurfaceScatteringQuality : float;
  m_scatterDistance : float3;
  m_transmissionThicknessMapUvIndex : nat;
  m_transmissionThicknessMap : Texture2D;
  m_transmissionTintThickness : float4;
  m_transmissionParams : float4;
  m_anisotropicAngle : float;
  m_anisotropicFactor : float;
  m_emissiveMapUvIndex : nat;
  m_emissiveMap : Texture2D;
  m_emissiveIntensity : float;
  m_emissiveColor_rgb : float3;
  m_emissiveAffectedByAlpha : float;
  m_diffuseOcclusionMapUvIndex : nat;
  m_diffuseOcclusionMap : Texture2D;
  m_diffuseOcclusionFactor : float;
  m_specularOcclusionMapUvIndex : nat;
  m_specularOcclusionMap : Texture2D;
  m_specularOcclusionFactor : float;
  m_clearCoatInfluenceMapUvIndex : nat;
  m_clearCoatInfluenceMap : Texture2D;
  m_clearCoatFactor : float;
  m_clearCoatRoughnessMapUvIndex : nat;
  m_clearCoatRoughnessMap : Texture2D;
  m_clearCoatRoughness : float;
  m_clearCoatNormalMapUvIndex : nat;
  m_clearCoatNormalMap : Texture2D;
  m_clearCoatNormalStrength : float;
  m_opacityAffectsSpecularFactor : float
}.

(** The shader options ([o_...]) and the two preprocessor switches. *)
Record Options := {
  ENABLE_TRANSMISSION : bool;
  ENABLE_CLEAR_COAT : bool;
  o_detail_blendMask_useTexture : bool;
  o_normal_useTexture : bool;
  o_detail_normal_useTexture : bool;
  o_baseColor_useTexture : bool;
  o_baseColorTextureBlendMode : BlendMode;
  o_detail_baseColor_useTexture : bool;
  o_parallax_highlightClipping : bool;
  o_enableSubsurfaceScattering : bool;
  o_metallic_useTexture : bool;
  o_specularF0_useTexture : bool;
  o_roughness_useTexture : bool;
  o_enableAnisotropy : bool;
  o_emissiveEnabled : bool;
  o_emissive_useTexture : bool;
  o_diffuseOcclusion_useTexture : bool;
  o_specularOcclusion_useTexture : bool;
  o_clearCoat_feature_enabled : bool;
  o_clearCoat_enabled : bool;
  o_clearCoat_factor_useTexture : bool;
  o_clearCoat_roughness_useTexture : bool;
  o_clearCoat_normal_useTexture : bool
}.

(** The material functions of the included files, the methods of [Surface]
    and of its anisotropy data, and the conversions between vector types. *)
Record MaterialFunctions := {
  real4_of_float4 : float4 → real4;
  real4_rgb : real4 → real3;
  real4_w : real4 → real;
  CreateIdentity3x3 : real3x3;
  PI : real;
  GetDetailLayerBlendFactor : Texture2D → sampler → float2 → bool → real → real;
  GetDetailedNormalInputWS :
    bool → real3 →
    real3 → real3 → Texture2D → sampler → float2 → real → bool → bool → real3x3 → bool →
    real3 → real3 → Texture2D → sampler → float2 → real → bool → bool → real3x3 → bool →
    real3;
  GetDetailedBaseColorInput :
    Texture2D → sampler → float2 → bool → real3 → real → BlendMode →
    Texture2D → sampler → float2 → bool → real → real3;
  ApplyParallaxClippingHighlight : real3 → real3;
  GetAlphaAndClip : (nat → float2) → real;
  GetMetallicInput : Texture2D → sampler → float2 → real → bool → real;
  GetSpecularInput : Texture2D → sampler → float2 → real → bool → real;
  SetAlbedoAndSpecularF0 : Surface → real3 → real → real → Surface;
  GetRoughnessInput : Texture2D → sampler → float2 → real → real → real → bool → real;
  CalculateRoughnessA : Surface → Surface;
  GetSubsurfaceInput : Texture2D → sampler → float2 → real → real;
  GeTransmissionInput : Texture2D → sampler → float2 → real4 → real4;
  GetSpecularNormal : Surface → real3;
  Anisotropy_Init : Anisotropy → real3 → real3 → real3 → real → real → real → Anisotropy;
  GetEmissiveInput :
    Texture2D → sampler → float2 → real → real3 → real → real → bool → bool → real3;
  GetOcclusionInput : Texture2D → sampler → float2 → real → bool → real;
  GetClearCoatInputs :
    Texture2D → float2 → real → bool →
    Texture2D → float2 → real → bool →
    Texture2D → float2 → real3 → bool → real →
    real3x3 → real3 → real3 → sampler → bool →
    ClearCoat → ClearCoat;
  ApplyClearCoatToSpecularF0 : real3 → real → real3
}.

Context (F : MaterialFunctions) (M : MaterialSrg) (O : Options).

(** [EvaluateSurface_EnhancedPBR], the overload of eight arguments.
    [uninitialized] is what the local [Surface surface;] holds before any
    field is assigned. *)
Definition EvaluateSurface_EnhancedPBR (uninitialized : Surface)
  (positionWS : float3) (normalWS : real3) (tangents bitangents : nat → real3)
  (uvs detailUvs : nat → float2) (isFrontFace isDisplacementClipped : bool) : Surface :=
  (* Detail layer setup *)
  let detailUv := detailUvs (m_detail_allMapsUvIndex M) in
  let detailBlendMaskUv :=
    if bool_decide (m_detail_blendMask_uvIndex M = m_detail_allMapsUvIndex M)
    then detailUvs (m_detail_blendMask_uvIndex M)
    else uvs (m_detail_blendMask_uvIndex M) in
  let detailLayerBlendFactor :=
    GetDetailLayerBlendFactor F (m_detail_blendMask_texture M) (m_sampler M) detailBlendMaskUv
      (o_detail_blendMask_useTexture O) (real_of_float (m_detail_blendFactor M)) in
  (* Normal *)
  let normalUv := uvs (m_normalMapUvIndex M) in
  let uvMatrix :=
    if bool_decide (m_normalMapUvIndex M = 0%nat) then m_uvMatrix M else CreateIdentity3x3 F in
  let detailLayerNormalFactor :=
    real_mul (real_of_float (m_detail_normal_factor M)) detailLayerBlendFactor in
  let surface_normal :=
    GetDetailedNormalInputWS F isFrontFace normalWS
      (tangents (m_normalMapUvIndex M)) (bitangents (m_normalMapUvIndex M))
      (m_normalMap M) (m_sampler M) normalUv (real_of_float (m_normalFactor M))
      (m_flipNormalX M) (m_flipNormalY M) uvMatrix (o_normal_useTexture O)
      (tangents (m_detail_allMapsUvIndex M)) (bitangents (m_detail_allMapsUvIndex M))
      (m_detail_normal_texture M) (m_sampler M) detailUv detailLayerNormalFactor
      (m_detail_normal_flipX M) (m_detail_normal_flipY M) (m_detailUvMatrix M)
      (o_detail_normal_useTexture O) in
  (* Base color *)
  let detailLayerBaseColorFactor :=
    real_mul (real_of_float (m_detail_baseColor_factor M)) detailLayerBlendFactor in
  let baseColorUv := uvs (m_baseColorMapUvIndex M) in
  let baseColor :=
    GetDetailedBaseColorInput F (m_baseColorMap M) (m_sampler M) baseColorUv
      (o_baseColor_useTexture O) (real3_of_float3 (m_baseColor M))
      (real_of_float (m_baseColorFactor M)) (o_baseColorTextureBlendMode O)
      (m_detail_baseColor_texture M) (m_sampler M) detailUv
      (o_detail_baseColor_useTexture O) detailLayerBaseColorFactor in
  (* Parallax clipping *)
  let baseColor :=
    if o_parallax_highlightClipping O && isDisplacementClipped
    then ApplyParallaxClippingHighlight F baseColor
    else baseColor in
  (* Alpha and clip *)
  let surface_alpha := GetAlphaAndClip F uvs in
  (* Metallic *)
  let metallic :=
    if negb (o_enableSubsurfaceScattering O)
    then
      let metallicUv := uvs (m_metallicMapUvIndex M) in
      GetMetallicInput F (m_metallicMap M) (m_sampler M) metallicUv
        (real_of_float (m_metallicFactor M)) (o_metallic_useTexture O)
    else real_0 in
  (* Specular *)
  let specularUv := uvs (m_specularF0MapUvIndex M) in
  let specularF0Factor :=
    GetSpecularInput F (m_specularF0Map M) (m_sampler M) specularUv
      (real_of_float (m_specularF0Factor M)) (o_specularF0_useTexture O) in
  let surface :=
    {| position := positionWS;
       vertexNormal := normalWS;
       normal := surface_normal;
       alpha := surface_alpha;
       specularF0 := specularF0 uninitialized;
       roughnessLinear := roughnessLinear uninitialized;
       roughnessA := roughnessA uninitialized;
       subsurfaceScatteringFactor := subsurfaceScatteringFactor uninitialized;
       subsurfaceScatteringQuality := subsurfaceScatteringQuality uninitialized;
       scatterDistance := scatterDistance uninitialized;
       transmission := transmission uninitialized;
       anisotropy := anisotropy uninitialized;
       emissiveLighting := emissiveLighting uninitialized;
       diffuseAmbientOcclusion := diffuseAmbientOcclusion uninitialized;
       specularOcclusion := specularOcclusion uninitialized;
       clearCoat := clearCoat uninitialized;
       opacityAffectsSpecularFactor := opacityAffectsSpecularFactor uninitialized;
       surfaceRest := surfaceRest uninitialized |} in
  let surface := SetAlbedoAndSpecularF0 F surface baseColor specularF0Factor metallic in
  (* Roughness *)
  let roughnessUv := uvs (m_roughnessMapUvIndex M) in
  let surface :=
    {| position := position surface;
       vertexNormal := vertexNormal surface;
       normal := normal surface;
       alpha := alpha surface;
       specularF0 := specularF0 surface;
       roughnessLinear :=
         GetRoughnessInput F (m_roughnessMap M) (m_sampler M) roughnessUv
           (real_of_float (m_roughnessFactor M)) (real_of_float (m_roughnessLowerBound M))
           (real_of_float (m_roughnessUpperBound M)) (o_roughness_useTexture O);
       roughnessA := roughnessA surface;
       subsurfaceScatteringFactor := subsurfaceScatteringFactor surface;
       subsurfaceScatteringQuality := subsurfaceScatteringQuality surface;
       scatterDistance := scatterDistance surface;
       transmission := transmission surface;
       anisotropy := anisotropy surface;
       emissiveLighting := emissiveLighting surface;
       diffuseAmbientOcclusion := diffuseAmbientOcclusion surface;
       specularOcclusion := specularOcclusion surface;
       clearCoat := clearCoat surface;
       opacityAffectsSpecularFactor := opacityAffectsSpecularFactor surface;
       surfaceRest := surfaceRest surface |} in
  let surface := CalculateRoughnessA F surface in
  (* Subsurface, transmission *)
  let subsurfaceUv := uvs (m_subsurfaceScatteringInfluenceMapUvIndex M) in
  let surface :=
    {| position := position surface;
       vertexNormal := vertexNormal surface;
       normal := normal surface;
       alpha := alpha surface;
       specularF0 := specularF0 surface;
       roughnessLinear := roughnessLinear surface;
       roughnessA := roughnessA surface;
       subsurfaceScatteringFactor :=
         GetSubsurfaceInput F (m_subsurfaceScatteringInfluenceMap M) (m_sampler M) subsurfaceUv
           (real_of_float (m_subsurfaceScatteringFactor M));
       subsurfaceScatteringQuality := real_of_float (m_subsurfaceScatteringQuality M);
       scatterDistance := real3_of_float3 (m_scatterDistance M);
       transmission :=
         if ENABLE_TRANSMISSION O
         then
           let transmissionUv := uvs (m_transmissionThicknessMapUvIndex M) in
           let transmissionTintThickness :=
             GeTransmissionInput F (m_transmissionThicknessMap M) (m_sampler M) transmissionUv
               (real4_of_float4 F (m_transmissionTintThickness M)) in
           {| tint := real4_rgb F transmissionTintThickness;
              thickness := real4_w F transmissionTintThickness;
              transmissionParams := real4_of_float4 F (m_transmissionParams M);
              transmission_scatterDistance := real3_of_float3 (m_scatterDistance M) |}
         else transmission surface;
       anisotropy := anisotropy surface;
       emissiveLighting := emissiveLighting surface;
       diffuseAmbientOcclusion := diffuseAmbientOcclusion surface;
       specularOcclusion := specularOcclusion surface;
       clearCoat := clearCoat surface;
       opacityAffectsSpecularFactor := opacityAffectsSpecularFactor surface;
       surfaceRest := surfaceRest surface |} in
  (* Anisotropy *)
  let surface_anisotropy :=
    if o_enableAnisotropy O
    then
      let anisotropyAngle := real_mul (real_of_float (m_anisotropicAngle M)) (PI F) in
      let anisotropyFactor := real_of_float (m_anisotropicFactor M) in
      Anisotropy_Init F (anisotropy surface) (GetSpecularNormal F surface)
        (tangents 0%nat) (bitangents 0%nat) anisotropyAngle anisotropyFactor (roughnessA surface)
    else anisotropy surface in
  (* Emissive, occlusion *)
  let emissiveUv := uvs (m_emissiveMapUvIndex M) in
  let surface_emissiveLighting :=
    GetEmissiveInput F (m_emissiveMap M) (m_sampler M) emissiveUv
      (real_of_float (m_emissiveIntensity M)) (real3_of_float3 (m_emissiveColor_rgb M))
      (real_of_float (m_emissiveAffectedByAlpha M)) (alpha surface)
      (o_emissiveEnabled O) (o_emissive_useTexture O) in
  (* Clear coat *)
  let surface_clearCoat :=
    if ENABLE_CLEAR_COAT O && o_clearCoat_feature_enabled O && o_clearCoat_enabled O
    then
      let uvMatrix :=
        if bool_decide (m_clearCoatNormalMapUvIndex M = 0%nat)
        then m_uvMatrix M else CreateIdentity3x3 F in
      GetClearCoatInputs F
        (m_clearCoatInfluenceMap M) (uvs (m_clearCoatInfluenceMapUvIndex M))
        (real_of_float (m_clearCoatFactor M)) (o_clearCoat_factor_useTexture O)
        (m_clearCoatRoughnessMap M) (uvs (m_clearCoatRoughnessMapUvIndex M))
        (real_of_float (m_clearCoatRoughness M)) (o_clearCoat_roughness_useTexture O)
        (m_clearCoatNormalMap M) (uvs (m_clearCoatNormalMapUvIndex M)) normalWS
        (o_clearCoat_normal_useTexture O) (real_of_float (m_clearCoatNormalStrength M))
        uvMatrix (tangents (m_clearCoatNormalMapUvIndex M))
        (bitangents (m_clearCoatNormalMapUvIndex M)) (m_sampler M) isFrontFace
        (clearCoat surface)
    else clearCoat surface in
  let surface_specularF0 :=
    if ENABLE_CLEAR_COAT O && o_clearCoat_feature_enabled O
    then ApplyClearCoatToSpecularF0 F (specularF0 surface) (factor surface_clearCoat)
    else specularF0 surface in
  {| position := position surface;
     vertexNormal := vertexNormal surface;
     normal := normal surface;
     alpha := alpha surface;
     specularF0 := surface_specularF0;
     roughnessLinear := roughnessLinear surface;
     roughnessA := roughnessA surface;
     subsurfaceScatteringFactor := subsurfaceScatteringFactor surface;
     subsurfaceScatteringQuality := subsurfaceScatteringQuality surface;
     scatterDistance := scatterDistance surface;
     transmission := transmission surface;
     anisotropy := surface_anisotropy;
     emissiveLighting := surface_emissiveLighting;
     diffuseAmbientOcclusion :=
       GetOcclusionInput F (m_diffuseOcclusionMap M) (m_sampler M)
         (uvs (m_diffuseOcclusionMapUvIndex M)) (real_of_float (m_diffuseOcclusionFactor M))
         (o_diffuseOcclusion_useTexture O);
     specularOcclusion :=
       GetOcclusionInput F (m_specularOcclusionMap M) (m_sampler M)
         (uvs (m_specularOcclusionMapUvIndex M)) (real_of_float (m_specularOcclusionFactor M))
         (o_specularOcclusion_useTexture O);
     clearCoat := surface_clearCoat;
     opacityAffectsSpecularFactor := real_of_float (m_opacityAffectsSpecularFactor M);
     surfaceRest := surfaceRest surface |}.

(** [PixelGeometryData]. *)
Record PixelGeometryData := {
  geo_positionWS : float3;
  geo_vertexNormal : real3;
  geo_tangents : nat → real3;
  geo_bitangents : nat → real3;
  geo_uvs : nat → float2;
  geo_detailUvs : nat → float2;
  geo_isFrontFace : bool;
  geo_isDisplacementClipped : bool
}.

(** [EvaluateSurface_EnhancedPBR(VsOutput IN, PixelGeometryData geoData)]. *)
Definition EvaluateSurface_EnhancedPBR_geoData {VsOutput : Type} (uninitialized : Surface)
  (IN : VsOutput) (geoData : PixelGeometryData) : Surface :=
  EvaluateSurface_EnhancedPBR uninitialized
    (geo_positionWS geoData) (geo_vertexNormal geoData)
    (geo_tangents geoData) (geo_bitangents geoData)
    (geo_uvs geoData) (geo_detailUvs geoData)
    (geo_isFrontFace geoData) (geo_isDisplacementClipped geoData).

(** [G] with the metallic argument of [SetAlbedoAndSpecularF0] replaced by 0. *)
Definition with_metallic_0 (G : MaterialFunctions) : MaterialFunctions :=
  {|
     real4_of_float4 := real4_of_float4 G;
     real4_rgb := real4_rgb G;
     real4_w := real4_w G;
     CreateIdentity3x3 := CreateIdentity3x3 G;
     PI := PI G;
     GetDetailLayerBlendFactor := GetDetailLayerBlendFactor G;
     GetDetailedNormalInputWS := GetDetailedNormalInputWS G;
     GetDetailedBaseColorInput := GetDetailedBaseColorInput G;
     ApplyParallaxClippingHighlight := ApplyParallaxClippingHighlight G;
     GetAlphaAndClip := GetAlphaAndClip G;
     GetMetallicInput := GetMetallicInput G;
     GetSpecularInput := GetSpecularInput G;
     SetAlbedoAndSpecularF0 := λ surface baseColor specularF0Factor metallic,
       SetAlbedoAndSpecularF0 G surface baseColor specularF0Factor real_0;
     GetRoughnessInput := GetRoughnessInput G;
     CalculateRoughnessA := CalculateRoughnessA G;
     GetSubsurfaceInput := GetSubsurfaceInput G;
     GeTransmissionInput := GeTransmissionInput G;
     GetSpecularNormal := GetSpecularNormal G;
     Anisotropy_Init := Anisotropy_Init G;
     GetEmissiveInput := GetEmissiveInput G;
     GetOcclusionInput := GetOcclusionInput G;
     GetClearCoatInputs := GetClearCoatInputs G;
     ApplyClearCoatToSpecularF0 := ApplyClearCoatToSpecularF0 G |}.

(** [G] with the three arguments of [SetAlbedoAndSpecularF0] replaced by
    [baseColor], [specularF0Factor] and [metallic]. *)
Definition with_albedo_inputs (G : MaterialFunctions) (baseColor : real3)
  (specularF0Factor metallic : real) : MaterialFunctions :=
  {|
     real4_of_float4 := real4_of_float4 G;
     real4_rgb := real4_rgb G;
     real4_w := real4_w G;
     CreateIdentity3x3 := CreateIdentity3x3 G;
     PI := PI G;
     GetDetailLayerBlendFactor := GetDetailLayerBlendFactor G;
     GetDetailedNormalInputWS := GetDetailedNormalInputWS G;
     GetDetailedBaseColorInput := GetDetailedBaseColorInput G;
     ApplyParallaxClippingHighlight := ApplyParallaxClippingHighlight G;
     GetAlphaAndClip := GetAlphaAndClip G;
     GetMetallicInput := GetMetallicInput G;
     GetSpecularInput := GetSpecularInput G;
     SetAlbedoAndSpecularF0 := λ surface _ _ _,
       SetAlbedoAndSpecularF0 G surface baseColor specularF0Factor metallic;
     GetRoughnessInput := GetRoughnessInput G;
     CalculateRoughnessA := CalculateRoughnessA G;
     GetSubsurfaceInput := GetSubsurfaceInput G;
     GeTransmissionInput := GeTransmissionInput G;
     GetSpecularNormal := GetSpecularNormal G;
     Anisotropy_Init := Anisotropy_Init G;
     GetEmissiveInput := GetEmissiveInput G;
     GetOcclusionInput := GetOcclusionInput G;
     GetClearCoatInputs := GetClearCoatInputs G;
     ApplyClearCoatToSpecularF0 := ApplyClearCoatToSpecularF0 G |}.

End EnhancedPBR.

End EnhancedPBR.

(** ** Exact arithmetic to run the shader includes on *)

Module ToyShader.
Import Shader SimplePointLight.

Definition Q_ltb (a b : Q) : bool := negb (Qle_bool b a).

Lemma Q_ltb_ge (a b : Q) : (b <= a)%Q → Q_ltb a b = false.
Proof. intros Hle. unfold Q_ltb. apply Qle_bool_iff in Hle. by rewrite Hle. Qed.

Lemma Q_ltb_lt (a b : Q) : ¬ (b <= a)%Q → Q_ltb a b = true.
Proof.
  intros Hnle. unfold Q_ltb. destruct (Qle_bool b a) eqn:Hb; [| done].
  by apply Qle_bool_iff in Hb.
Qed.

(** [float] and [real] as rationals. *)
#[export] Instance Q_arith : Arith := {|
  float := Q;
  real := Q;
  real_of_float := λ q, q;
  float_sub := Qminus;
  real_0 := 0%Q;
  real_1 := 1%Q;
  real_0_001 := (1 # 1000)%Q;
  real_add := Qplus;
  real_sub := Qminus;
  real_mul := Qmult;
  real_div := Qdiv;
  real_max := λ a b, if Qle_bool a b then b else a;
  real_ltb := Q_ltb;
  real_le := Qle;
  real_ltb_ge := Q_ltb_ge;
  real_ltb_lt := Q_ltb_lt
|}.

Definition vec (a b c : Q) : real3 (H := Q_arith) := {| x := a; y := b; z := c |}.
Definition point (a b c : Q) : float3 (H := Q_arith) := {| fx := a; fy := b; fz := c |}.
Definition unit3 : float3 (H := Q_arith) := point 1 1 1.

(** A Lambert term and no specular term. *)
Definition GetDiffuse (surface : LitSurface (SurfaceData := unit))
  (lightingData : LightingData (LightingRest := unit)) (lightIntensity posToLightDir : real3)
  : real3 := lightIntensity.

Definition GetSpecular (surface : LitSurface (SurfaceData := unit))
  (lightingData : LightingData (LightingRest := unit)) (lightIntensity posToLightDir : real3)
  : real3 := vec 0 0 0.

Definition IsSameLightChannel (a b : N) : bool := negb (N.land a b =? 0)%N.

Definition origin_surface : LitSurface := {| position := point 0 0 0; surfaceData := tt |}.

Definition unlit : LightingData :=
  {| diffuseLighting := vec 0 0 0; specularLighting := vec 0 0 0;
     lightingChannels := 1%N; tileIterator := [0; 1; 2]%nat; lightingRest := tt |}.

(** Light 0 is out of range, light 1 is in range, light 2 is in range on
    another channel; the rest of the buffer reads as light 0. *)
Definition lights (i : nat) : SimplePointLight :=
  match i with
  | 1%nat => {| m_position := point 0 0 (1 # 2); m_invAttenuationRadiusSquared := 1%Q;
                m_rgbIntensityCandelas := point 1 1 1; m_lightingChannelMask := 1%N |}
  | 2%nat => {| m_position := point 0 0 (1 # 2); m_invAttenuationRadiusSquared := 1%Q;
                m_rgbIntensityCandelas := point 1 1 1; m_lightingChannelMask := 2%N |}
  | _ => {| m_position := point 0 0 2; m_invAttenuationRadiusSquared := 1%Q;
            m_rgbIntensityCandelas := point 1 1 1; m_lightingChannelMask := 1%N |}
  end.

Definition material : EnhancedPBR.MaterialSrg (H := Q_arith) (float4 := Q) (real3x3 := unit)
    (Texture2D := unit) (sampler := unit) :=
  {| EnhancedPBR.m_sampler := tt;
     EnhancedPBR.m_uvMatrix := tt;
     EnhancedPBR.m_detailUvMatrix := tt;
     EnhancedPBR.m_detail_allMapsUvIndex := 0%nat;
     EnhancedPBR.m_detail_blendMask_uvIndex := 0%nat;
     EnhancedPBR.m_detail_blendMask_texture := tt;
     EnhancedPBR.m_detail_blendFactor := (1 # 2)%Q;
     EnhancedPBR.m_normalMapUvIndex := 0%nat;
     EnhancedPBR.m_normalMap := tt;
     EnhancedPBR.m_normalFactor := (1 # 2)%Q;
     EnhancedPBR.m_flipNormalX := false;
     EnhancedPBR.m_flipNormalY := false;
     EnhancedPBR.m_detail_normal_factor := (1 # 2)%Q;
     EnhancedPBR.m_detail_normal_texture := tt;
     EnhancedPBR.m_detail_normal_flipX := false;
     EnhancedPBR.m_detail_normal_flipY := false;
     EnhancedPBR.m_detail_baseColor_factor := (1 # 2)%Q;
     EnhancedPBR.m_detail_baseColor_texture := tt;
     EnhancedPBR.m_baseColorMapUvIndex := 0%nat;
     EnhancedPBR.m_baseColorMap := tt;
     EnhancedPBR.m_baseColor := unit3;
     EnhancedPBR.m_baseColorFactor := (1 # 2)%Q;
     EnhancedPBR.m_metallicMapUvIndex := 0%nat;
     EnhancedPBR.m_metallicMap := tt;
     EnhancedPBR.m_metallicFactor := (1 # 2)%Q;
     EnhancedPBR.m_specularF0MapUvIndex := 0%nat;
     EnhancedPBR.m_specularF0Map := tt;
     EnhancedPBR.m_specularF0Factor := (1 # 2)%Q;
     EnhancedPBR.m_roughnessMapUvIndex := 0%nat;
     EnhancedPBR.m_roughnessMap := tt;
     EnhancedPBR.m_roughnessFactor := (1 # 2)%Q;
     EnhancedPBR.m_roughnessLowerBound := (1 # 2)%Q;
     EnhancedPBR.m_roughnessUpperBound := (1 # 2)%Q;
     EnhancedPBR.m_subsurfaceScatteringInfluenceMapUvIndex := 0%nat;
     EnhancedPBR.m_subsurfaceScatteringInfluenceMap := tt;
     EnhancedPBR.m_subsurfaceScatteringFactor := (1 # 2)%Q;
     EnhancedPBR.m_subsurfaceScatteringQuality := (1 # 2)%Q;
     EnhancedPBR.m_scatterDistance := unit3;
     EnhancedPBR.m_transmissionThicknessMapUvIndex := 0%nat;
     EnhancedPBR.m_transmissionThicknessMap := tt;
     EnhancedPBR.m_transmissionTintThickness := (1 # 4)%Q;
     EnhancedPBR.m_transmissionParams := (1 # 4)%Q;
     EnhancedPBR.m_anisotropicAngle := (1 # 2)%Q;
     EnhancedPBR.m_anisotropicFactor := (1 # 2)%Q;
     EnhancedPBR.m_emissiveMapUvIndex := 0%nat;
     EnhancedPBR.m_emissiveMap := tt;
     EnhancedPBR.m_emissiveIntensity := (1 # 2)%Q;
     EnhancedPBR.m_emissiveColor_rgb := unit3;
     EnhancedPBR.m_emissiveAffectedByAlpha := (1 # 2)%Q;
     EnhancedPBR.m_diffuseOcclusionMapUvIndex := 0%nat;
     EnhancedPBR.m_diffuseOcclusionMap := tt;
     EnhancedPBR.m_diffuseOcclusionFactor := (1 # 2)%Q;
     EnhancedPBR.m_specularOcclusionMapUvIndex := 0%nat;
     EnhancedPBR.m_specularOcclusionMap := tt;
     EnhancedPBR.m_specularOcclusionFactor := (1 # 2)%Q;
     EnhancedPBR.m_clearCoatInfluenceMapUvIndex := 0%nat;
     EnhancedPBR.m_clearCoatInfluenceMap := tt;
     EnhancedPBR.m_clearCoatFactor := (1 # 2)%Q;
     EnhancedPBR.m_clearCoatRoughnessMapUvIndex := 0%nat;
     EnhancedPBR.m_clearCoatRoughnessMap := tt;
     EnhancedPBR.m_clearCoatRoughness := (1 # 2)%Q;
     EnhancedPBR.m_clearCoatNormalMapUvIndex := 0%nat;
     EnhancedPBR.m_clearCoatNormalMap := tt;
     EnhancedPBR.m_clearCoatNormalStrength := (1 # 2)%Q;
     EnhancedPBR.m_opacityAffectsSpecularFactor := (1 # 2)%Q |}.

Definition options : EnhancedPBR.Options (BlendMode := unit) :=
  {| EnhancedPBR.ENABLE_TRANSMISSION := false;
     EnhancedPBR.ENABLE_CLEAR_COAT := false;
     EnhancedPBR.o_detail_blendMask_useTexture := false;
     EnhancedPBR.o_normal_useTexture := false;
     EnhancedPBR.o_detail_normal_useTexture := false;
     EnhancedPBR.o_baseColor_useTexture := false;
     EnhancedPBR.o_baseColorTextureBlendMode := tt;
     EnhancedPBR.o_detail_baseColor_useTexture := false;
     EnhancedPBR.o_parallax_highlightClipping := false;
     EnhancedPBR.o_enableSubsurfaceScattering := true;
     EnhancedPBR.o_metallic_useTexture := false;
     EnhancedPBR.o_specularF0_useTexture := false;
     EnhancedPBR.o_roughness_useTexture := false;
     EnhancedPBR.o_enableAnisotropy := false;
     EnhancedPBR.o_emissiveEnabled := false;
     EnhancedPBR.o_emissive_useTexture := false;
     EnhancedPBR.o_diffuseOcclusion_useTexture := false;
     EnhancedPBR.o_specularOcclusion_useTexture := false;
     EnhancedPBR.o_clearCoat_feature_enabled := false;
     EnhancedPBR.o_clearCoat_enabled := false;
     EnhancedPBR.o_clearCoat_factor_useTexture := false;
     EnhancedPBR.o_clearCoat_roughness_useTexture := false;
     EnhancedPBR.o_clearCoat_normal_useTexture := false |}.

(** Material functions that answer their factor; [SetAlbedoAndSpecularF0]
    keeps the metallic value in [surfaceRest] and the base colour in
    [specularF0]. *)
Definition set_albedo (s : EnhancedPBR.Surface (real4 := Q) (Anisotropy := Q) (SurfaceRest := Q))
  (baseColor : real3) (specularF0Factor metallic : Q) : EnhancedPBR.Surface :=
  {| EnhancedPBR.position := EnhancedPBR.position s;
     EnhancedPBR.vertexNormal := EnhancedPBR.vertexNormal s;
     EnhancedPBR.normal := EnhancedPBR.normal s;
     EnhancedPBR.alpha := EnhancedPBR.alpha s;
     EnhancedPBR.specularF0 := baseColor;
     EnhancedPBR.roughnessLinear := EnhancedPBR.roughnessLinear s;
     EnhancedPBR.roughnessA := EnhancedPBR.roughnessA s;
     EnhancedPBR.subsurfaceScatteringFactor := EnhancedPBR.subsurfaceScatteringFactor s;
     EnhancedPBR.subsurfaceScatteringQuality := EnhancedPBR.subsurfaceScatteringQuality s;
     EnhancedPBR.scatterDistance := EnhancedPBR.scatterDistance s;
     EnhancedPBR.transmission := EnhancedPBR.transmission s;
     EnhancedPBR.anisotropy := EnhancedPBR.anisotropy s;
     EnhancedPBR.emissiveLighting := EnhancedPBR.emissiveLighting s;
     EnhancedPBR.diffuseAmbientOcclusion := EnhancedPBR.diffuseAmbientOcclusion s;
     EnhancedPBR.specularOcclusion := EnhancedPBR.specularOcclusion s;
     EnhancedPBR.clearCoat := EnhancedPBR.clearCoat s;
     EnhancedPBR.opacityAffectsSpecularFactor := EnhancedPBR.opacityAffectsSpecularFactor s;
     EnhancedPBR.surfaceRest := metallic |}.

Definition functions : EnhancedPBR.MaterialFunctions (H := Q_arith) (float2 := Q) (float4 := Q)
    (real4 := Q) (real3x3 := unit) (Texture2D := unit) (sampler := unit)
    (BlendMode := unit) (Anisotropy := Q) (SurfaceRest := Q) :=
  {| EnhancedPBR.real4_of_float4 := λ q, q;
     EnhancedPBR.real4_rgb := λ q, vec q q q;
     EnhancedPBR.real4_w := λ q, q;
     EnhancedPBR.CreateIdentity3x3 := tt;
     EnhancedPBR.PI := (355 # 113)%Q;
     EnhancedPBR.GetDetailLayerBlendFactor := λ _ _ _ _ blendFactor, blendFactor;
     EnhancedPBR.GetDetailedNormalInputWS := λ _ normalWS _ _ _ _ _ _ _ _ _ _ _ _ _ _ _ _ _ _ _ _, normalWS;
     EnhancedPBR.GetDetailedBaseColorInput := λ _ _ _ _ baseColor _ _ _ _ _ _ _, baseColor;
     EnhancedPBR.ApplyParallaxClippingHighlight := λ _, vec 1 0 1;
     EnhancedPBR.GetAlphaAndClip := λ _, 1%Q;
     EnhancedPBR.GetMetallicInput := λ _ _ _ metallicFactor _, metallicFactor;
     EnhancedPBR.GetSpecularInput := λ _ _ _ specularF0Factor _, specularF0Factor;
     EnhancedPBR.SetAlbedoAndSpecularF0 := set_albedo;
     EnhancedPBR.GetRoughnessInput := λ _ _ _ roughnessFactor _ _ _, roughnessFactor;
     EnhancedPBR.CalculateRoughnessA := λ s, s;
     EnhancedPBR.GetSubsurfaceInput := λ _ _ _ subsurfaceFactor, subsurfaceFactor;
     EnhancedPBR.GeTransmissionInput := λ _ _ _ transmissionTintThickness, transmissionTintThickness;
     EnhancedPBR.GetSpecularNormal := λ s, EnhancedPBR.normal s;
     EnhancedPBR.Anisotropy_Init := λ _ _ _ _ anisotropyAngle _ _, anisotropyAngle;
     EnhancedPBR.GetEmissiveInput := λ _ _ _ emissiveIntensity emissiveColor _ _ _ _,
       real3_mul emissiveColor emissiveIntensity;
     EnhancedPBR.GetOcclusionInput := λ _ _ _ occlusionFactor _, occlusionFactor;
     EnhancedPBR.GetClearCoatInputs := λ _ _ _ _ _ _ _ _ _ _ _ _ _ _ _ _ _ _ clearCoat, clearCoat;
     EnhancedPBR.ApplyClearCoatToSpecularF0 := λ specularF0 _, specularF0 |}.

Definition blank : EnhancedPBR.Surface (H := Q_arith) (real4 := Q) (Anisotropy := Q) (SurfaceRest := Q) :=
  {| EnhancedPBR.position := point 9 9 9;
     EnhancedPBR.vertexNormal := vec 9 9 9;
     EnhancedPBR.normal := vec 9 9 9;
     EnhancedPBR.alpha := 9%Q;
     EnhancedPBR.specularF0 := vec 9 9 9;
     EnhancedPBR.roughnessLinear := 9%Q;
     EnhancedPBR.roughnessA := 9%Q;
     EnhancedPBR.subsurfaceScatteringFactor := 9%Q;
     EnhancedPBR.subsurfaceScatteringQuality := 9%Q;
     EnhancedPBR.scatterDistance := vec 9 9 9;
     EnhancedPBR.transmission := {| EnhancedPBR.tint := vec 9 9 9; EnhancedPBR.thickness := 9%Q; EnhancedPBR.transmissionParams := 9%Q;
                        EnhancedPBR.transmission_scatterDistance := vec 9 9 9 |};
     EnhancedPBR.anisotropy := 9%Q;
     EnhancedPBR.emissiveLighting := vec 9 9 9;
     EnhancedPBR.diffuseAmbientOcclusion := 9%Q;
     EnhancedPBR.specularOcclusion := 9%Q;
     EnhancedPBR.clearCoat := {| EnhancedPBR.factor := 9%Q; EnhancedPBR.roughness := 9%Q; EnhancedPBR.clearCoat_normal := vec 9 9 9 |};
     EnhancedPBR.opacityAffectsSpecularFactor := 9%Q;
     EnhancedPBR.surfaceRest := 9%Q |}.

End ToyShader.

(** ** What the properties of the adapter as a whole speak of *)

(** The entries of a path are all indices: it descends through children only. *)
Definition through_children (p : Path) : Prop := Forall (λ e, ∃ i, e = Index i) p.

(** [q] lies in or below one of the children [lo .. hi - 1] of the node at [p]. *)
Definition inside (p : Path) (lo hi : nat) (q : Path) : Prop :=
  ∃ i, (lo ≤ i < hi)%nat ∧ (p ++ [Index i]) `prefix_of` q.

(** What a table entry is bound to: the container and instance of its bound
    container, and its element; the reserved-element pointer is left out. *)
Definition bound_to (e : ContainerEntry.t)
  : option (Address * Address) * option ContainerElement.t :=
  ((λ bc, (BoundContainer.m_container bc, BoundContainer.m_containerInstance bc))
     <$> ContainerEntry.m_container e,
   ContainerEntry.m_element e).

(** A document reset: the base class answers it by generating the contents
    anew, and with them both tables. *)
Definition is_reset (e : Event) : bool :=
  match e with
  | NotifyResetDocument _ => true
  | _ => false
  end.

(** A key query. *)
Definition is_key_query (e : Event) : bool :=
  match e with
  | QueryKey_InvokeOnDomNode _ _ _ _ => true
  | _ => false
  end.

(** At most two events, a document reset only as the last of them. *)
Definition reset_last (events : list Event) : Prop :=
  (length events ≤ 2)%nat ∧ Forall (λ e, is_reset e = false) (removelast events).

Section WholeAdapter.
Context `{Engine}.

(** [s'] is [s] but for memory, reserved-element pointers and the [events]
    sent since. *)
Definition handled (events : list Event) (s s' : State) : Prop :=
  m_instance s' = m_instance s
  ∧ m_typeId s' = m_typeId s
  ∧ m_builder s' = m_builder s
  ∧ m_onChangedCallbacks s' = m_onChangedCallbacks s
  ∧ (∀ p, bound_to <$> (m_containers s' !! p) = bound_to <$> (m_containers s !! p))
  ∧ trace s' = trace s ++ events.

(** Both tables of [s'] are those of [s] at [q]. *)
Definition same_entries (s s' : State) (q : Path) : Prop :=
  m_onChangedCallbacks s' !! q = m_onChangedCallbacks s !! q
  ∧ m_containers s' !! q = m_containers s !! q.

(** What visiting [calls] does to the tables: nothing outside the children
    it appends to the open node. *)
Definition keeps_entries (calls : list VisitCall) (m : Memory) : Prop :=
  ∀ (s s' : State) name ms ch rest p v,
    built s (Node name ms ch :: rest) p v m →
    visit_all calls s = Some s' →
    ∃ rows,
      built s' (Node name ms (ch ++ rows) :: rest) p v m
      ∧ ∀ q, ¬ inside p (length ch) (length (ch ++ rows)) q → same_entries s s' q.

End WholeAdapter.

(** ** The property editor of an associative container's key *)

(** [AZ::Reflection::LegacyReflectionInternal]: the attribute records and the
    key entry that [CreatePropertyEditorForAssociativeContainerKey] reads. *)
Module LegacyReflectionInternal.
Record AttributeData := {
  m_group : string;
  m_name : string;
  m_value : Value
}.
Record KeyEntry := {
  m_keyInstance : PointerObject.t;
  m_keyAttributes : list AttributeData
}.
End LegacyReflectionInternal.

Section AssociativeContainerKey.
Import LegacyReflectionInternal.

(** [Dom::Utils::ValueToType<KeyEntry>] and [KeyEntry::IsValid], which are
    not part of these sources. *)
Context (ValueToType_KeyEntry : Value → option KeyEntry).
Context (KeyEntry_IsValid : KeyEntry → bool).

(** [Nodes::PropertyEditor::KeyValue.GetName()]. *)
Definition PropertyEditor_KeyValue : string := "KeyValue".

(** The predicate [FindAttributeCreator(group, name)] returns. *)
Definition FindAttributeCreator (group name : string) (attributeData : AttributeData) : bool :=
  String.eqb group (m_group attributeData) && String.eqb name (m_name attributeData).

(** [CreatePropertyEditorForAssociativeContainerKey(attributes, adapter,
    builder)]: the builder after the call.  [ValueFromType] of the key's
    pointer object is the pointer as an opaque DOM value. *)
Definition CreatePropertyEditorForAssociativeContainerKey (attributes : IAttributes)
  (builder : AdapterBuilder.t) : AdapterBuilder.t :=
  match Find PropertyEditor_KeyValue attributes with
  | None => builder
  | Some keyValueAttribute =>
      match ValueToType_KeyEntry keyValueAttribute with
      | Some keyValueEntry =>
          if KeyEntry_IsValid keyValueEntry
          then
            let keyValuePointerObject := m_keyInstance keyValueEntry in
            let keyAttributes := m_keyAttributes keyValueEntry in
            let keyPropertyHandlerName :=
              match find (FindAttributeCreator "" DescriptorAttributes.Handler) keyAttributes with
              | Some handlerIt =>
                  match m_value handlerIt with
                  | Str handler => handler
                  | _ => ""
                  end
              | None => ""
              end in
            let keyPropertyHandlerName :=
              if String.eqb keyPropertyHandlerName ""
              then
                match find (FindAttributeCreator "" Nodes.PropertyEditor_EnumType)
                        keyAttributes with
                | Some enumTypeHandlerIt =>
                    if negb (IsNull (m_value enumTypeHandlerIt))
                    then Nodes.ComboBox_Name
                    else keyPropertyHandlerName
                | None => keyPropertyHandlerName
                end
              else keyPropertyHandlerName in
            let builder :=
              AdapterBuilder.BeginPropertyEditor keyPropertyHandlerName
                (Opaque (OPointer keyValuePointerObject)) builder in
            let builder :=
              AdapterBuilder.Attribute Nodes.PropertyEditor_UseMinimumWidth (Bool true)
                builder in
            let builder := AdapterBuilder.Attribute Nodes.Disabled (Bool true) builder in
            let builder :=
              AdapterBuilder.AddMessageHandler Nodes.PropertyEditor_RequestTreeUpdate builder in
            AdapterBuilder.EndPropertyEditor builder
          else builder
      | None => builder
      end
  end.

(** The key attributes as the attributes of a visited value. *)
Definition listed (keyAttributes : list AttributeData) : IAttributes :=
  (λ a, (m_group a, m_name a, m_value a)) <$> keyAttributes.

End AssociativeContainerKey.

(** ** The clear coat compiled out *)

Section WithoutClearCoat.
Import Shader EnhancedPBR.
Context {BlendMode : Type}.

(** The options with [ENABLE_CLEAR_COAT] 0. *)
Definition without_clear_coat (O : Options (BlendMode := BlendMode)) : Options :=
  {| ENABLE_TRANSMISSION := ENABLE_TRANSMISSION O;
     ENABLE_CLEAR_COAT := false;
     o_detail_blendMask_useTexture := o_detail_blendMask_useTexture O;
     o_normal_useTexture := o_normal_useTexture O;
     o_detail_normal_useTexture := o_detail_normal_useTexture O;
     o_baseColor_useTexture := o_baseColor_useTexture O;
     o_baseColorTextureBlendMode := o_baseColorTextureBlendMode O;
     o_detail_baseColor_useTexture := o_detail_baseColor_useTexture O;
     o_parallax_highlightClipping := o_parallax_highlightClipping O;
     o_enableSubsurfaceScattering := o_enableSubsurfaceScattering O;
     o_metallic_useTexture := o_metallic_useTexture O;
     o_specularF0_useTexture := o_specularF0_useTexture O;
     o_roughness_useTexture := o_roughness_useTexture O;
     o_enableAnisotropy := o_enableAnisotropy O;
     o_emissiveEnabled := o_emissiveEnabled O;
     o_emissive_useTexture := o_emissive_useTexture O;
     o_diffuseOcclusion_useTexture := o_diffuseOcclusion_useTexture O;
     o_specularOcclusion_useTexture := o_specularOcclusion_useTexture O;
     o_clearCoat_feature_enabled := o_clearCoat_feature_enabled O;
     o_clearCoat_enabled := o_clearCoat_enabled O;
     o_clearCoat_factor_useTexture := o_clearCoat_factor_useTexture O;
     o_clearCoat_roughness_useTexture := o_clearCoat_roughness_useTexture O;
     o_clearCoat_normal_useTexture := o_clearCoat_normal_useTexture O |}.

End WithoutClearCoat.

(** ** More inputs to run the adapter and the includes on *)

Module Samples.

(** The adapter of the vector with its adapter node open and nothing visited. *)
Definition open_adapter : State := begun (Toy.initial 500 21).

(** The vector as [VisitObjectBegin] sees it. *)
Definition vector_access : IObjectAccess := {| GetType := 21; Get := 500 |}.
Definition vector_attributes : IAttributes :=
  [("", "Label", Str "Items"); ("", "Container", Toy.pointer Toy.vector_descriptor 1);
   ("", "SerializedPath", Str "items")].

(** The first element of the vector as [VisitPrimitive] sees it. *)
Definition element_attributes : IAttributes :=
  [("", "ParentContainer", Toy.pointer Toy.vector_descriptor 1);
   ("", "ParentContainerInstance", Toy.pointer 500 21);
   ("", "ContainerIndex", Int64 0)].

(** The counter as [VisitPrimitive] sees it. *)
Definition counter_attributes : IAttributes :=
  [("", "Label", Str "Count"); ("", "Min", Int64 0)].

(** The adapter once the walk over the vector has been visited. *)
Definition walked : State :=
  Eval vm_compute in
    default open_adapter (visit_all (calls_of_forest Toy.vector_forest) open_adapter).

Definition request_tree_update : AdapterMessage :=
  {| m_messageOrigin := []; m_message := RequestTreeUpdate Nodes.EntireTree |}.

(** The clear coat compiled in and enabled as a feature, but switched off
    for the material. *)
Definition feature_only : EnhancedPBR.Options (BlendMode := unit) :=
  {| EnhancedPBR.ENABLE_TRANSMISSION := false;
     EnhancedPBR.ENABLE_CLEAR_COAT := true;
     EnhancedPBR.o_detail_blendMask_useTexture := false;
     EnhancedPBR.o_normal_useTexture := false;
     EnhancedPBR.o_detail_normal_useTexture := false;
     EnhancedPBR.o_baseColor_useTexture := false;
     EnhancedPBR.o_baseColorTextureBlendMode := tt;
     EnhancedPBR.o_detail_baseColor_useTexture := false;
     EnhancedPBR.o_parallax_highlightClipping := false;
     EnhancedPBR.o_enableSubsurfaceScattering := true;
     EnhancedPBR.o_metallic_useTexture := false;
     EnhancedPBR.o_specularF0_useTexture := false;
     EnhancedPBR.o_roughness_useTexture := false;
     EnhancedPBR.o_enableAnisotropy := false;
     EnhancedPBR.o_emissiveEnabled := false;
     EnhancedPBR.o_emissive_useTexture := false;
     EnhancedPBR.o_diffuseOcclusion_useTexture := false;
     EnhancedPBR.o_specularOcclusion_useTexture := false;
     EnhancedPBR.o_clearCoat_feature_enabled := true;
     EnhancedPBR.o_clearCoat_enabled := false;
     EnhancedPBR.o_clearCoat_factor_useTexture := false;
     EnhancedPBR.o_clearCoat_roughness_useTexture := false;
     EnhancedPBR.o_clearCoat_normal_useTexture := false |}.

(** Detail UV sets that agree on set 0 only. *)
Definition detail_uvs (i : nat) : Q := if i is 0%nat then 0%Q else 1%Q.

(** The map once its add button was activated: the element reserved at
    1000 awaits its key. *)
Definition key_awaited : State :=
  Eval vm_compute in
    OnAddElement [Index 0]
      {| BoundContainer.m_container := Toy.map_descriptor;
         BoundContainer.m_containerInstance := 500;
         BoundContainer.m_reservedElementInstance := nullptr |}
      Toy.map_state [Index 0; Index 2].

(** The reply to the key query with the key held at [keyInstance]. *)
Definition add_container_key (keyInstance : Z) (containerPath : Path) : AdapterMessage :=
  {| m_messageOrigin := []; m_message := AddContainerKey keyInstance containerPath |}.

End Samples.

(** ** An engine with two more maps *)

Module Keyed.

Definition fixed_map_descriptor : Z := 103.
Definition tagged_map_descriptor : Z := 104.

(** A map whose class element declares a [KeyType] attribute that is not an
    [AttributeData<AZ::Uuid>]. *)
Definition tagged_map : IDataContainer Toy.Mem :=
  let c := Toy.container None (Some Toy.map_keyType) in
  {| IsFixedSize := IsFixedSize c;
     IsFixedCapacity := IsFixedCapacity c;
     IsSequenceContainer := IsSequenceContainer c;
     Size := Size c;
     Capacity := Capacity c;
     ReserveElement := ReserveElement c;
     StoreElement := StoreElement c;
     FreeReservedElement := FreeReservedElement c;
     RemoveElement := RemoveElement c;
     ClearElements := ClearElements c;
     SwapElements := SwapElements c;
     GetAssociativeContainerInterface := GetAssociativeContainerInterface c;
     FindAttribute_KeyType := Some AttributeData_other |}.

(** The descriptors of [Toy], a map of capacity 2 and the map above. *)
Definition keyed_descriptor_at (descriptor : Z) : IDataContainer Toy.Mem :=
  if descriptor =? fixed_map_descriptor then Toy.container (Some 2%nat) (Some Toy.map_keyType)
  else if descriptor =? tagged_map_descriptor then tagged_map
  else Toy.descriptor_at descriptor.

(** The walk of [Toy]; type 24 is the map of capacity 2, 25 the map above. *)
Definition keyed_walk (m : Toy.Mem) (instance type : Z) : list VisitCall :=
  if type =? 24 then Toy.walk_container fixed_map_descriptor m instance type
  else if type =? 25 then Toy.walk_container tagged_map_descriptor m instance type
  else Toy.walk m instance type.

(** The engine of [Toy] with these descriptors and this walk. *)
Definition keyed_engine : Engine := {|
  Memory := Toy.Mem;
  Json := Value;
  Primitive := Value;
  dataContainerAt := keyed_descriptor_at;
  azrtti_typeid_IDataContainer := 1;
  azrtti_typeid_string := 2;
  azrtti_typeid_bool := 3;
  load := λ T m a, Toy.cell m a;
  store := λ T m a v, Toy.set_cell m a v;
  load_string := λ m a, GetString (Toy.cell m a);
  store_string := λ m a x, Toy.set_cell m a (Str x);
  load_bool := λ m a, GetBool (Toy.cell m a);
  store_bool := λ m a x, Toy.set_cell m a (Bool x);
  sizeof := λ T, 4%nat;
  sizeof_string := 24%nat;
  ValueFromType := λ T v, v;
  ValueToType := λ T v,
    match T, v with
    | T_bool, Bool _ => Some v
    | T_bool, _ => None
    | _, Int64 _ => Some v
    | _, _ => None
    end;
  JsonSerialization_Store := Toy.Store;
  JsonSerialization_Load := Toy.Load;
  TryMarshalValueToPointer := Toy.TryMarshal;
  MarshalTypedPointerToValue := Toy.pointer;
  LoadViaJsonSerialization := λ m a type v, Toy.Load m a type v;
  StoreViaJsonSerialization := λ m a defaultObject type keepDefaults, Toy.cell m a;
  VisitRapidJsonValue := λ j, j;
  GetTypeSize := λ type, 8%nat;
  hash_instance := λ m a size, a;
  ed_enableInspectorOverrideManagement := false;
  RowAttributes := ["AutoExpand"; "ForceAutoExpand"];
  Visibility_DomToValue := λ v,
    match v with
    | Int64 0 => Some Nodes.Show
    | Int64 1 => Some Nodes.ShowChildrenOnly
    | Int64 2 => Some Nodes.Hide
    | Int64 3 => Some Nodes.HideChildren
    | _ => None
    end;
  VisitLegacyInMemoryInstance := keyed_walk
|}.

(** The adapter of the instance at 500 seen as [type], once its base class
    has generated and cached the document. *)
Definition keyed_serving (type : Z) : @State keyed_engine :=
  let s :=
    @Build_State keyed_engine 500 type AdapterBuilder.empty ∅ ∅ Null Toy.memory0 [] in
  match GenerateContents (H := keyed_engine) s with
  | Some (contents, s) =>
      @Build_State keyed_engine (m_instance s) (m_typeId s) (m_builder s)
        (m_onChangedCallbacks s) (m_containers s) contents (memory s) (trace s)
  | None => s
  end.

(** A map of capacity 2 that is full, and a map whose key type is declared
    by an attribute of another kind. *)
Definition fixed_map_state : @State keyed_engine := Eval vm_compute in keyed_serving 24.
Definition tagged_map_state : @State keyed_engine := Eval vm_compute in keyed_serving 25.

End Keyed.

(** * Properties *)

(** ** The container operations *)

Section ContainerOperations.
Context `{Engine}.

Ltac unfold_state :=
  unfold notify_container_changed, assign_reservedElementInstance,
    emit, with_memory, with_containers, with_onChangedCallbacks, with_builder in *;
  simpl in *.

(** The node [GetContainerNode] answers depends on the tables only through
    which paths hold a bound container of which descriptor: assignments to a
    reserved-element pointer, to memory and to the trace do not move it. *)
Lemma find_entries_alter_reserved (container : Address) (r : Address) (k : Path)
  (t : gmap Path ContainerEntry.t) (path : Path) (n : nat) :
  fst <$> find (findContainerProcedure container)
            (PrefixTree.entries_upto
               (alter (λ e, {| ContainerEntry.m_container :=
                                 BoundContainer.set_reserved r <$> ContainerEntry.m_container e;
                               ContainerEntry.m_element := ContainerEntry.m_element e |}) k t)
               path n)
  = fst <$> find (findContainerProcedure container) (PrefixTree.entries_upto t path n).
Proof.
  assert (Hproc : ∀ (p : Path) (e : ContainerEntry.t),
            findContainerProcedure container
              (p, {| ContainerEntry.m_container :=
                       BoundContainer.set_reserved r <$> ContainerEntry.m_container e;
                     ContainerEntry.m_element := ContainerEntry.m_element e |})
            = findContainerProcedure container (p, e)).
  { intros p e. unfold findContainerProcedure. simpl.
    by destruct (ContainerEntry.m_container e). }
  induction n as [| n IH]; simpl; rewrite lookup_alter; case_decide as Hk;
    try subst k; destruct (t !! take _ path) as [e |]; simpl; rewrite ?Hproc;
    try destruct (findContainerProcedure container _); simpl; auto.
Qed.

Lemma GetContainerNode_frame (container : Address) (s s' : State) (path : Path)
  (k : Path) (r : Address) :
  GetContents s' = GetContents s →
  m_containers s'
    = alter (λ e, {| ContainerEntry.m_container :=
                       BoundContainer.set_reserved r <$> ContainerEntry.m_container e;
                     ContainerEntry.m_element := ContainerEntry.m_element e |})
            k (m_containers s) →
  GetContainerNode container s' path = GetContainerNode container s path.
Proof.
  intros Hc Ht. unfold GetContainerNode, PrefixTree.VisitPath_MostToLeastSpecific.
  rewrite Hc, Ht.
  pose proof (find_entries_alter_reserved container r k (m_containers s) path (length path)) as Hf.
  destruct (find _ (PrefixTree.entries_upto (alter _ _ _) _ _)) as [[p1 e1] |],
           (find _ (PrefixTree.entries_upto (m_containers s) _ _)) as [[p2 e2] |];
    simpl in Hf; try discriminate; [| done].
  by injection Hf as ->.
Qed.

Lemma GetContainerNode_same_tables (container : Address) (s s' : State) (path : Path) :
  GetContents s' = GetContents s →
  m_containers s' = m_containers s →
  GetContainerNode container s' path = GetContainerNode container s path.
Proof. intros Hc Ht. unfold GetContainerNode. by rewrite Hc, Ht. Qed.

Lemma GetContainerNode_assign_reserved (container : Address) (k : Path) (r : Address)
  (s : State) (path : Path) :
  GetContainerNode container (assign_reservedElementInstance k r s) path
  = GetContainerNode container s path.
Proof. by apply (GetContainerNode_frame container s _ path k r). Qed.

Lemma GetContainerNode_with_memory (container : Address) (m : Memory) (s : State) (path : Path) :
  GetContainerNode container (with_memory m s) path = GetContainerNode container s path.
Proof. by apply GetContainerNode_same_tables. Qed.

Lemma notify_container_changed_spec (container : Address) (path : Path) (s : State) :
  let s' := notify_container_changed container path s in
  trace s' = trace s ++ [ChangeNotify_InvokeOnDomNode (GetContainerNode container s path);
                         NotifyResetDocument SoftReset]
  ∧ memory s' = memory s
  ∧ m_containers s' = m_containers s
  ∧ GetContents s' = GetContents s
  ∧ m_onChangedCallbacks s' = m_onChangedCallbacks s.
Proof.
  unfold notify_container_changed, emit. simpl.
  rewrite <- app_assoc. simpl. done.
Qed.

(** C8: if the bound container reports fixed capacity and its size has reached
    its capacity, [OnAddElement] returns at once and the whole state is as it
    was: live memory (so the contents of the container, and nothing reserved),
    the look-up tables (so the reserved-element pointer), and the trace (so no
    ChangeNotify and no document reset).  The same holds for the message that
    reaches it: an activation whose origin resolves to this container and whose
    node carries the action AddElement. *)
Theorem OnAddElement_at_fixed_capacity
  (entryPath : Path) (this : BoundContainer.t) (s : State) (path : Path) :
  let container := dataContainerAt (BoundContainer.m_container this) in
  let instance := BoundContainer.m_containerInstance this in
  IsFixedCapacity container = true →
  (Capacity container (memory s) instance ≤ Size container (memory s) instance)%nat →
  OnAddElement entryPath this s path = s
  ∧ ∀ (message : AdapterMessage) (containerEntry : ContainerEntry.t),
      m_message message = OnActivate →
      m_messageOrigin message = path →
      PrefixTree.ValueAtPath_ParentsOnly (m_containers s) path
        = Some (entryPath, containerEntry) →
      ContainerEntry.m_container containerEntry = Some this →
      Nodes.Action_ExtractFromDomNode (at_path (GetContents s) path) = Some Nodes.AddElement →
      HandleMessage message s = Some s.
Proof.
  intros container instance Hfixed Hfull.
  assert (Hadd : OnAddElement entryPath this s path = s).
  { unfold OnAddElement. fold container instance. rewrite Hfixed. simpl.
    destruct (Nat.leb_spec (Capacity container (memory s) instance)
                           (Size container (memory s) instance)) as [_ | Hlt]; [done | lia]. }
  split; [exact Hadd |].
  intros message containerEntry Hmsg Horigin Hentry Hbound Haction.
  unfold HandleMessage. rewrite Hmsg. unfold handleContainerOperation.
  rewrite Horigin. case_bool_decide as Hlen.
  - reflexivity.
  - rewrite Hentry, Haction, Hbound. by rewrite Hadd.
Qed.

(** C1 (amended): an activation whose non-empty origin resolves, by the
    parents-only match, to a table entry, and whose node carries an action.
    - AddElement, on an entry with a bound container that is not at fixed
      capacity and queries no key: the element is reserved and stored.
    - RemoveElement, on an entry with a bound element: it is removed from
      its parent container.
    - Clear, on an entry with a bound container: the container is cleared.
    - MoveUp and MoveDown, on an entry with a bound element and a node with
      a container index [i]: the elements at [i] and [i - 1], respectively
      [i + 1], are swapped (indices as [size_t]).
    Each is followed by ChangeNotify on the container's editor node and by a
    document reset, and by nothing else.  With an empty origin, an origin that
    resolves to no entry, or a node without action, the state is unchanged. *)
Theorem handleContainerOperation_effects (s : State) (message : AdapterMessage) :
  m_message message = OnActivate →
  let origin := m_messageOrigin message in
  let node := at_path (GetContents s) origin in
  let notified (container : Address) (s' : State) :=
    trace s' = trace s ++ [ChangeNotify_InvokeOnDomNode (GetContainerNode container s origin);
                           NotifyResetDocument SoftReset]
    ∧ GetContents s' = GetContents s
    ∧ m_onChangedCallbacks s' = m_onChangedCallbacks s in
  ((origin = []
    ∨ PrefixTree.ValueAtPath_ParentsOnly (m_containers s) origin = None
    ∨ Nodes.Action_ExtractFromDomNode node = None) →
   HandleMessage message s = Some s)
  ∧ ∀ (entryPath : Path) (containerEntry : ContainerEntry.t),
      origin ≠ [] →
      PrefixTree.ValueAtPath_ParentsOnly (m_containers s) origin
        = Some (entryPath, containerEntry) →
      (∀ this : BoundContainer.t,
         Nodes.Action_ExtractFromDomNode node = Some Nodes.AddElement →
         ContainerEntry.m_container containerEntry = Some this →
         let c := dataContainerAt (BoundContainer.m_container this) in
         let instance := BoundContainer.m_containerInstance this in
         IsFixedCapacity c && (Capacity c (memory s) instance <=? Size c (memory s) instance)%nat
           = false →
         queried_key_type c = None →
         ∃ s', HandleMessage message s = Some s'
               ∧ memory s' = StoreElement c (ReserveElement c (memory s) instance).2 instance
                               (ReserveElement c (memory s) instance).1
               ∧ notified (BoundContainer.m_container this) s')
      ∧ (∀ this : ContainerElement.t,
           Nodes.Action_ExtractFromDomNode node = Some Nodes.RemoveElement →
           ContainerEntry.m_element containerEntry = Some this →
           ∃ s', HandleMessage message s = Some s'
                 ∧ memory s' = RemoveElement (dataContainerAt (ContainerElement.m_container this))
                                 (memory s) (ContainerElement.m_containerInstance this)
                                 (ContainerElement.m_elementInstance this)
                 ∧ m_containers s' = m_containers s
                 ∧ notified (ContainerElement.m_container this) s')
      ∧ (∀ this : BoundContainer.t,
           Nodes.Action_ExtractFromDomNode node = Some Nodes.Clear →
           ContainerEntry.m_container containerEntry = Some this →
           ∃ s', HandleMessage message s = Some s'
                 ∧ memory s' = ClearElements (dataContainerAt (BoundContainer.m_container this))
                                 (memory s) (BoundContainer.m_containerInstance this)
                 ∧ m_containers s' = m_containers s
                 ∧ notified (BoundContainer.m_container this) s')
      ∧ (∀ (this : ContainerElement.t) (moveDown : bool) (containerIndex : Z),
           Nodes.Action_ExtractFromDomNode node
             = Some (if moveDown then Nodes.MoveDown else Nodes.MoveUp) →
           ContainerEntry.m_element containerEntry = Some this →
           Nodes.ContainerIndex_ExtractFromDomNode node = Some containerIndex →
           ∃ s', HandleMessage message s = Some s'
                 ∧ memory s' = SwapElements (dataContainerAt (ContainerElement.m_container this))
                                 (memory s) (ContainerElement.m_containerInstance this)
                                 (to_size_t containerIndex)
                                 (to_size_t (if moveDown then containerIndex + 1
                                             else containerIndex - 1))
                 ∧ m_containers s' = m_containers s
                 ∧ notified (ContainerElement.m_container this) s').
Proof.
  intros Hmsg origin node notified.
  unfold HandleMessage. rewrite Hmsg. unfold handleContainerOperation.
  fold origin. fold node. split.
  - intros [Hnil | [Hnone | Hnoaction]].
    + rewrite Hnil. reflexivity.
    + case_bool_decide; [done |]. by rewrite Hnone.
    + case_bool_decide; [done |].
      destruct (PrefixTree.ValueAtPath_ParentsOnly _ _) as [[p e] |]; [| done].
      by rewrite Hnoaction.
  - intros entryPath containerEntry Hne Hentry.
    assert (Hlen : bool_decide (length origin = 0%nat) = false).
    { apply bool_decide_eq_false. by destruct origin. }
    rewrite Hlen, Hentry. split; [| split; [| split]].
    + intros this Haction Hbound Hroom Hnokey.
      rewrite Haction, Hbound. eexists. split; [reflexivity |].
      unfold OnAddElement. rewrite Hroom.
      set (c := dataContainerAt (BoundContainer.m_container this)) in *.
      destruct (ReserveElement c (memory s) (BoundContainer.m_containerInstance this))
        as [reserved mem] eqn:Hres.
      assert (Hstore :
        match GetAssociativeContainerInterface c, FindAttribute_KeyType c with
        | Some _, Some (AttributeData_Uuid keyType) => true
        | _, _ => false
        end = false).
      { unfold queried_key_type in Hnokey.
        destruct (GetAssociativeContainerInterface c), (FindAttribute_KeyType c) as [[] |];
          done. }
      destruct (GetAssociativeContainerInterface c), (FindAttribute_KeyType c) as [[] |];
        try discriminate Hstore; unfold notified;
        match goal with
        | |- context [notify_container_changed ?k ?p ?st] =>
            destruct (notify_container_changed_spec k p st) as (Ht & Hm & _ & Hc & Hcb)
        end;
        rewrite Hm, Ht, Hc, Hcb; (split; [reflexivity |]);
        (split; [| done]);
        repeat (rewrite GetContainerNode_assign_reserved || rewrite GetContainerNode_with_memory);
        done.
    + intros this Haction Helement. rewrite Haction, Helement.
      eexists. split; [reflexivity |]. unfold OnRemoveElement, notified.
      match goal with
      | |- context [notify_container_changed ?k ?p ?st] =>
          destruct (notify_container_changed_spec k p st) as (Ht & Hm & Htab & Hc & Hcb)
      end.
      rewrite Hm, Ht, Htab, Hc, Hcb. done.
    + intros this Haction Hbound. rewrite Haction, Hbound.
      eexists. split; [reflexivity |]. unfold OnClear, notified.
      match goal with
      | |- context [notify_container_changed ?k ?p ?st] =>
          destruct (notify_container_changed_spec k p st) as (Ht & Hm & Htab & Hc & Hcb)
      end.
      rewrite Hm, Ht, Htab, Hc, Hcb. done.
    + intros this moveDown containerIndex Haction Helement Hindex.
      rewrite Haction. destruct moveDown; rewrite Helement, Hindex; simpl;
        (eexists; split; [reflexivity |]); unfold OnMoveElement, notified;
        match goal with
        | |- context [notify_container_changed ?k ?p ?st] =>
            destruct (notify_container_changed_spec k p st) as (Ht & Hm & Htab & Hc & Hcb)
        end;
        rewrite Hm, Ht, Htab, Hc, Hcb; done.
Qed.

(** ** The key query of associative containers *)

Lemma closest_prefix_lookup {T : Type} (t : gmap Path T) (path : Path) (n : nat)
  (p : Path) (v : T) :
  PrefixTree.closest_prefix t path n = Some (p, v) → t !! p = Some v.
Proof.
  induction n as [| n IH]; simpl; destruct (t !! take _ path) as [x |] eqn:Hx;
    intros Heq; try (injection Heq as <- <-; exact Hx); [discriminate | by apply IH].
Qed.

Lemma ValueAtPath_ParentsOnly_lookup {T : Type} (t : gmap Path T) (path p : Path) (v : T) :
  PrefixTree.ValueAtPath_ParentsOnly t path = Some (p, v) → t !! p = Some v.
Proof.
  unfold PrefixTree.ValueAtPath_ParentsOnly. destruct (length path); [done |].
  apply closest_prefix_lookup.
Qed.

Lemma bound_container_at_assign (entryPath q : Path) (r : Address) (s : State) :
  bound_container_at entryPath (assign_reservedElementInstance q r s)
  = if decide (q = entryPath)
    then BoundContainer.set_reserved r <$> bound_container_at entryPath s
    else bound_container_at entryPath s.
Proof.
  unfold bound_container_at, assign_reservedElementInstance. simpl.
  rewrite lookup_alter. case_decide as Hq; [subst q |]; [| done].
  by destruct (m_containers s !! entryPath).
Qed.

Lemma bound_container_at_same_tables (entryPath : Path) (s s' : State) :
  m_containers s' = m_containers s →
  bound_container_at entryPath s' = bound_container_at entryPath s.
Proof. unfold bound_container_at. by intros ->. Qed.

(** What a handler has sent is appended to the trace; a message other than
    the two key replies whose handler sends neither a document reset nor a
    key query leaves the container table as it was. *)
Lemma HandleMessage_quiet (message : AdapterMessage) (s s' : State) :
  HandleMessage message s = Some s' →
  ∃ events,
    trace s' = trace s ++ events
    ∧ (is_key_reply message = false →
       Forall (λ e, is_reset e = false ∧ is_key_query e = false) events →
       m_containers s' = m_containers s).
Proof.
  assert (Hnone : ∃ events : list Event,
            trace s = trace s ++ events
            ∧ (is_key_reply message = false →
               Forall (λ e, is_reset e = false ∧ is_key_query e = false) events →
               m_containers s = m_containers s)).
  { exists []. by rewrite app_nil_r. }
  assert (Hnotified : ∀ container path (s1 : State),
            trace s1 = trace s →
            ∃ events,
              trace (notify_container_changed container path s1) = trace s ++ events
              ∧ (is_key_reply message = false →
                 Forall (λ e, is_reset e = false ∧ is_key_query e = false) events →
                 m_containers (notify_container_changed container path s1)
                 = m_containers s)).
  { intros container path s1 Htrace.
    destruct (notify_container_changed_spec container path s1) as (Ht & _).
    eexists. split; [rewrite Ht, Htrace; reflexivity |].
    intros _ Hquiet. exfalso.
    apply Forall_cons in Hquiet as [_ Hquiet].
    apply Forall_cons in Hquiet as [[Hreset _] _]. discriminate Hreset. }
  unfold HandleMessage.
  destruct (m_message message) as [v ct | | level | d p | k p | p | name] eqn:Hbody.
  - intros [= <-]. unfold handlePropertyEditorChanged.
    destruct (PrefixTree.ValueAtPath_ExactPath _ _); [| exact Hnone].
    destruct (invoke _ _ _). unfold NotifyPropertyChanged, UpdateDomContents.
    eexists. split; [unfold_state; rewrite <- app_assoc; reflexivity | done].
  - unfold handleContainerOperation. case_bool_decide; [by intros [= <-] |].
    destruct (PrefixTree.ValueAtPath_ParentsOnly _ _) as [[q e] |];
      [| by intros [= <-]].
    destruct (Nodes.Action_ExtractFromDomNode _) as [[] |]; [| | | | | by intros [= <-]].
    + destruct (ContainerEntry.m_container e) as [bc |]; intros [= <-]; [| done].
      unfold OnAddElement.
      destruct (IsFixedCapacity _ && _); [done |].
      destruct (ReserveElement _ _ _) as [reserved mem].
      destruct (GetAssociativeContainerInterface _);
        [destruct (FindAttribute_KeyType _) as [[] |] |]; try (by apply Hnotified).
      eexists. split; [unfold_state; reflexivity |].
      intros _ Hquiet. exfalso.
      apply Forall_cons in Hquiet as [[_ Hquery] _]. discriminate Hquery.
    + destruct (ContainerEntry.m_element e); intros [= <-]; [| done].
      by apply Hnotified.
    + destruct (ContainerEntry.m_container e); intros [= <-]; [| done].
      by apply Hnotified.
    + destruct (ContainerEntry.m_element e); [| by intros [= <-]].
      destruct (Nodes.ContainerIndex_ExtractFromDomNode _); simpl; intros [= <-].
      by apply Hnotified.
    + destruct (ContainerEntry.m_element e); [| by intros [= <-]].
      destruct (Nodes.ContainerIndex_ExtractFromDomNode _); simpl; intros [= <-].
      by apply Hnotified.
  - intros [= <-]. eexists. split; [unfold_state; reflexivity |].
    intros _ Hquiet. exfalso.
    apply Forall_cons in Hquiet as [[Hreset _] _]. discriminate Hreset.
  - unfold handleSetNodeDisabled. destruct (_ || _); [by intros [= <-] |].
    destruct (SetNodeDisabled_patch _ _ _); simpl; intros [= <-].
    case_bool_decide; [| done]. eexists. split; [unfold_state; reflexivity | done].
  - unfold addKeyToContainer.
    destruct (PrefixTree.ValueAtPath_ParentsOnly _ _) as [[q e] |]; simpl; [| done].
    destruct (ContainerEntry.m_container e); intros [= <-]; [| done].
    unfold OnAddElementToAssociativeContainer.
    edestruct Hnotified as (events & Ht & _);
      [| exists events; split;
         [exact Ht | intros Hreply; unfold is_key_reply in Hreply; by rewrite Hbody in Hreply]].
    by destruct (GetAssociativeContainerInterface _).
  - unfold rejectKeyToContainer.
    destruct (PrefixTree.ValueAtPath_ParentsOnly _ _) as [[q e] |]; simpl; [| done].
    destruct (ContainerEntry.m_container e); intros [= <-]; [| done].
    exists []. split; [unfold_state; by rewrite app_nil_r |].
    intros Hreply. unfold is_key_reply in Hreply. by rewrite Hbody in Hreply.
  - by intros [= <-].
Qed.

Lemma HandleMessages_quiet (messages : list AdapterMessage) (s s' : State)
  (events : list Event) :
  Forall (λ message, is_key_reply message = false) messages →
  HandleMessages messages s = Some s' →
  trace s' = trace s ++ events →
  Forall (λ e, is_reset e = false ∧ is_key_query e = false) events →
  m_containers s' = m_containers s.
Proof.
  revert s events. induction messages as [| message rest IH]; intros s events Hall.
  - by intros [= <-].
  - simpl. destruct (HandleMessage message s) as [s1 |] eqn:Hstep; [| done]. simpl.
    intros Hrest Htrace Hquiet.
    inversion Hall as [| ? ? Hhead Htail]; subst.
    destruct (HandleMessage_quiet message s s1 Hstep) as (first & Hfirst & Hsame).
    assert (Hgrows : ∀ (l : list AdapterMessage) (a b : State),
              HandleMessages l a = Some b → ∃ sent, trace b = trace a ++ sent).
    { clear. induction l as [| m l IHl]; intros a b.
      - intros [= <-]. exists []. by rewrite app_nil_r.
      - simpl. destruct (HandleMessage m a) as [a1 |] eqn:Hm; [| done]. simpl.
        intros Hl. destruct (HandleMessage_quiet m a a1 Hm) as (e1 & He1 & _).
        destruct (IHl a1 b Hl) as (e2 & He2). exists (e1 ++ e2).
        by rewrite He2, He1, <- app_assoc. }
    destruct (Hgrows rest s1 s' Hrest) as (others & Hothers).
    assert (events = first ++ others) as ->.
    { apply (app_inv_head (trace s)). by rewrite <- Htrace, Hothers, Hfirst, <- app_assoc. }
    apply Forall_app in Hquiet as [Hq1 Hq2].
    rewrite <- (Hsame Hhead Hq1). by apply (IH s1 others).
Qed.

(** C7 (amended): a bound associative container whose class element declares
    a [KeyType] attribute, held by the table at [entryPath].
    - [OnAddElement] returns at once, with the state as it was, when the
      container is at fixed capacity.  Otherwise, when the attribute is an
      [AttributeData<AZ::Uuid>], it reserves an element and sends QueryKey
      with it; memory is as [ReserveElement] left it, so nothing is stored,
      and the reserved-element pointer is what [ReserveElement] answered (a
      reserved element is awaited when that is not null).  When the
      attribute is of another kind the element is stored at once and the
      pointer is null again; then the change is notified and a reset sent,
      as for any other container.
    - Through messages that are neither AddContainerKey nor
      RejectContainerKey, and whose handlers send neither a document reset
      nor a further key query, the container table stays as it was: a
      reserved element that is awaited stays awaited.  (A reset makes the
      base class generate the contents, and both tables, anew.)
    - AddContainerKey, when a reserved element is held, sets its key from
      the key adapter's instance, stores the element, resets the pointer to
      null and then sends the change notification and a reset.
    - RejectContainerKey, when a reserved element is held, frees it and
      resets the pointer to null. *)
Theorem associative_container_key_protocol
  (s : State) (entryPath : Path) (containerEntry : ContainerEntry.t)
  (this : BoundContainer.t) (associativeContainer : IAssociativeDataContainer Memory)
  (keyTypeAttribute : KeyTypeAttribute) :
  m_containers s !! entryPath = Some containerEntry →
  ContainerEntry.m_container containerEntry = Some this →
  let c := dataContainerAt (BoundContainer.m_container this) in
  let instance := BoundContainer.m_containerInstance this in
  let reserved := BoundContainer.m_reservedElementInstance this in
  GetAssociativeContainerInterface c = Some associativeContainer →
  FindAttribute_KeyType c = Some keyTypeAttribute →
  (∀ path : Path,
     let s' := OnAddElement entryPath this s path in
     let element := (ReserveElement c (memory s) instance).1 in
     let mem := (ReserveElement c (memory s) instance).2 in
     if IsFixedCapacity c && (Capacity c (memory s) instance <=? Size c (memory s) instance)%nat
     then s' = s
     else
       match keyTypeAttribute with
       | AttributeData_Uuid keyType =>
           memory s' = mem
           ∧ trace s' = trace s ++ [QueryKey_InvokeOnDomNode (GetContents s) element keyType path]
           ∧ reserved_at entryPath s' = Some element
           ∧ (element ≠ nullptr →
              awaiting_key entryPath (BoundContainer.m_container this) s')
       | AttributeData_other =>
           ∃ s1,
             s' = notify_container_changed (BoundContainer.m_container this) path s1
             ∧ memory s1 = StoreElement c mem instance element
             ∧ reserved_at entryPath s1 = Some nullptr
             ∧ trace s1 = trace s
             ∧ trace s' = trace s
                          ++ [ChangeNotify_InvokeOnDomNode
                                (GetContainerNode (BoundContainer.m_container this) s path);
                              NotifyResetDocument SoftReset]
       end)
  ∧ (∀ (messages : list AdapterMessage) (s0 s' : State) (events : list Event),
       Forall (λ message, is_key_reply message = false) messages →
       HandleMessages messages s0 = Some s' →
       trace s' = trace s0 ++ events →
       Forall (λ e, is_reset e = false ∧ is_key_query e = false) events →
       m_containers s' = m_containers s0
       ∧ reserved_at entryPath s' = reserved_at entryPath s0
       ∧ (awaiting_key entryPath (BoundContainer.m_container this) s0 →
          awaiting_key entryPath (BoundContainer.m_container this) s'))
  ∧ (∀ (message : AdapterMessage) (keyInstance : Address) (containerPath : Path),
       m_message message = AddContainerKey keyInstance containerPath →
       PrefixTree.ValueAtPath_ParentsOnly (m_containers s) containerPath
         = Some (entryPath, containerEntry) →
       reserved ≠ nullptr →
       ∃ s1 s',
         HandleMessage message s = Some s'
         ∧ s' = notify_container_changed (BoundContainer.m_container this) containerPath s1
         ∧ memory s1 = StoreElement c
                         (SetElementKey associativeContainer (memory s) reserved keyInstance)
                         instance reserved
         ∧ reserved_at entryPath s1 = Some nullptr
         ∧ trace s1 = trace s
         ∧ trace s' = trace s
                      ++ [ChangeNotify_InvokeOnDomNode
                            (GetContainerNode (BoundContainer.m_container this) s containerPath);
                          NotifyResetDocument SoftReset])
  ∧ (∀ (message : AdapterMessage) (containerPath : Path),
       m_message message = RejectContainerKey containerPath →
       PrefixTree.ValueAtPath_ParentsOnly (m_containers s) containerPath
         = Some (entryPath, containerEntry) →
       reserved ≠ nullptr →
       ∃ s', HandleMessage message s = Some s'
             ∧ memory s' = FreeReservedElement c (memory s) instance reserved
             ∧ reserved_at entryPath s' = Some nullptr
             ∧ trace s' = trace s).
Proof.
  intros Hentry Hbound c instance reserved Hassoc Hattr.
  assert (Hreset : ∀ (r : Address) (s1 : State),
            m_containers s1 = m_containers s →
            reserved_at entryPath (assign_reservedElementInstance entryPath r s1) = Some r).
  { intros r s1 Heq. unfold reserved_at. rewrite bound_container_at_assign.
    rewrite decide_True by done. unfold bound_container_at.
    rewrite Heq, Hentry. simpl. by rewrite Hbound. }
  split; [| split; [| split]].
  - intros path s' element mem. subst s' element mem. unfold OnAddElement. fold c instance.
    destruct (IsFixedCapacity c && _); [done |].
    destruct (ReserveElement c (memory s) instance) as [r mem] eqn:Hreserve.
    rewrite Hassoc, Hattr. simpl.
    destruct keyTypeAttribute as [keyType |].
    + split; [done |]. split; [done |].
      assert (Hat : reserved_at entryPath
                      (emit (QueryKey_InvokeOnDomNode
                               (GetContents
                                  (assign_reservedElementInstance entryPath r
                                     (with_memory mem s))) r keyType path)
                         (assign_reservedElementInstance entryPath r (with_memory mem s)))
                    = Some r).
      { unfold reserved_at. erewrite bound_container_at_same_tables by reflexivity.
        by apply (Hreset r (with_memory mem s)). }
      split; [exact Hat |].
      intros Hnn. unfold reserved_at in Hat.
      destruct (bound_container_at entryPath _) as [bc |] eqn:Hbc; [| done].
      exists bc. split; [done |]. injection Hat as Hr. split; [| by rewrite Hr].
      revert Hbc. unfold bound_container_at. unfold_state.
      rewrite lookup_alter, decide_True, Hentry by done. simpl. rewrite Hbound. simpl.
      by intros [= <-].
    + match goal with
      | |- context [notify_container_changed ?k ?p ?st] =>
          destruct (notify_container_changed_spec k p st) as (Ht & _);
          exists st
      end.
      split; [reflexivity |]. split; [reflexivity |]. split; [| split; [reflexivity |]].
      * unfold reserved_at.
        rewrite bound_container_at_assign, decide_True by done.
        rewrite (bound_container_at_same_tables entryPath
                   (assign_reservedElementInstance entryPath r (with_memory mem s)))
          by reflexivity.
        rewrite bound_container_at_assign, decide_True by done.
        unfold bound_container_at. simpl. rewrite Hentry. simpl. by rewrite Hbound.
      * rewrite Ht. simpl. do 3 f_equal.
        rewrite GetContainerNode_assign_reserved, GetContainerNode_with_memory.
        rewrite GetContainerNode_assign_reserved.
        by rewrite GetContainerNode_with_memory.
  - intros messages s0 s' events Hall Hrun Htrace Hquiet.
    pose proof (HandleMessages_quiet messages s0 s' events Hall Hrun Htrace Hquiet) as Hsame.
    split; [exact Hsame |].
    assert (Hat : bound_container_at entryPath s' = bound_container_at entryPath s0)
      by by apply bound_container_at_same_tables.
    split; [unfold reserved_at; by rewrite Hat |].
    intros (bc & Hbc & Hrest). exists bc. by rewrite Hat.
  - intros message keyInstance containerPath Hmsg Hresolve _.
    unfold HandleMessage. rewrite Hmsg. unfold addKeyToContainer.
    rewrite Hresolve. simpl. rewrite Hbound.
    unfold OnAddElementToAssociativeContainer. fold c instance reserved.
    rewrite Hassoc.
    match goal with
    | |- context [notify_container_changed ?k ?p ?st] =>
        destruct (notify_container_changed_spec k p st) as (Ht & _);
        exists st
    end.
    eexists. split; [reflexivity |]. split; [reflexivity |]. split; [reflexivity |].
    split; [by apply Hreset |]. split; [reflexivity |].
    rewrite Ht. simpl. do 3 f_equal.
    rewrite GetContainerNode_assign_reserved.
    by rewrite !GetContainerNode_with_memory.
  - intros message containerPath Hmsg Hresolve _. eexists.
    unfold HandleMessage. rewrite Hmsg. unfold rejectKeyToContainer.
    rewrite Hresolve. simpl. rewrite Hbound. split; [reflexivity |].
    unfold RejectAssociativeContainerKey. fold c instance reserved.
    split; [reflexivity |]. split; [| reflexivity].
    by apply Hreset.
Qed.

End ContainerOperations.

Lemma OnAddElement_at_fixed_capacity_witness :
  HandleMessage (Toy.activate [Index 0; Index 2]) Toy.fixed_vector_state
    = Some Toy.fixed_vector_state.
Proof.
  refine (proj2 (OnAddElement_at_fixed_capacity [Index 0]
            {| BoundContainer.m_container := Toy.fixed_vector_descriptor;
               BoundContainer.m_containerInstance := 500;
               BoundContainer.m_reservedElementInstance := 0 |}
            Toy.fixed_vector_state [Index 0; Index 2] _ _)
          (Toy.activate [Index 0; Index 2])
          {| ContainerEntry.m_container := Some _; ContainerEntry.m_element := None |}
          _ _ _ _ _);
    vm_compute; (reflexivity || lia).
Defined.

Lemma handleContainerOperation_effects_witness :
  ∃ s', HandleMessage (Toy.activate [Index 0; Index 5; Index 2]) Toy.vector_state = Some s'
        ∧ Toy.elements (memory s') 500 = [601; 600].
Proof.
  pose (element := {| ContainerElement.m_container := Toy.vector_descriptor;
                      ContainerElement.m_containerInstance := 500;
                      ContainerElement.m_elementInstance := 600 |}).
  assert (Hne : m_messageOrigin (Toy.activate [Index 0; Index 5; Index 2]) ≠ []) by done.
  assert (Hentry :
    PrefixTree.ValueAtPath_ParentsOnly (m_containers Toy.vector_state)
      (m_messageOrigin (Toy.activate [Index 0; Index 5; Index 2]))
    = Some ([Index 0; Index 5],
            {| ContainerEntry.m_container := None;
               ContainerEntry.m_element := Some element |}))
    by (vm_compute; reflexivity).
  destruct (proj2 (handleContainerOperation_effects Toy.vector_state
                     (Toy.activate [Index 0; Index 5; Index 2]) eq_refl)
              _ _ Hne Hentry) as (_ & _ & _ & Hmove).
  destruct (Hmove element true 0) as (s' & Hs' & Hmem & _);
    [vm_compute; reflexivity | reflexivity | vm_compute; reflexivity |].
  exists s'. split; [exact Hs' |]. rewrite Hmem. vm_compute. reflexivity.
Defined.

(** C1 as stated fails where the container is full: on the fixed vector
    (capacity 2, two elements) the activation of the add button meets every
    premise of the claim, and the state stays as it was: nothing is stored,
    nothing is notified. *)
Lemma AddElement_at_fixed_capacity_stores_nothing :
  let s := Toy.fixed_vector_state in
  let message := Toy.activate [Index 0; Index 2] in
  let this := {| BoundContainer.m_container := Toy.fixed_vector_descriptor;
                 BoundContainer.m_containerInstance := 500;
                 BoundContainer.m_reservedElementInstance := nullptr |} in
  let c := dataContainerAt Toy.fixed_vector_descriptor in
  m_messageOrigin message ≠ []
  ∧ PrefixTree.ValueAtPath_ParentsOnly (m_containers s) (m_messageOrigin message)
    = Some ([Index 0], {| ContainerEntry.m_container := Some this;
                          ContainerEntry.m_element := None |})
  ∧ Nodes.Action_ExtractFromDomNode (at_path (GetContents s) (m_messageOrigin message))
    = Some Nodes.AddElement
  ∧ HandleMessage message s = Some s
  ∧ memory s ≠ StoreElement c (ReserveElement c (memory s) 500).2 500
                 (ReserveElement c (memory s) 500).1
  ∧ trace s = [].
Proof.
  split; [done |].
  split; [vm_compute; reflexivity |].
  split; [vm_compute; reflexivity |].
  split; [reflexivity |].
  split; [| vm_compute; reflexivity].
  intros Heq. apply (f_equal (λ m, Toy.elements m 500)) in Heq.
  vm_compute in Heq. discriminate Heq.
Qed.

Lemma associative_container_key_protocol_witness :
  let this := {| BoundContainer.m_container := Toy.map_descriptor;
                 BoundContainer.m_containerInstance := 500;
                 BoundContainer.m_reservedElementInstance := nullptr |} in
  let s' := OnAddElement [Index 0] this Toy.map_state [Index 0; Index 2] in
  (Toy.elements (memory s') 500 = [600; 601]
   ∧ reserved_at [Index 0] s' = Some 1000
   ∧ awaiting_key [Index 0] Toy.map_descriptor s')
  ∧ s' = Samples.key_awaited
  ∧ ∃ s1 s2,
      HandleMessage (Samples.add_container_key 900 [Index 0; Index 2]) Samples.key_awaited
      = Some s2
      ∧ s2 = notify_container_changed Toy.map_descriptor [Index 0; Index 2] s1
      ∧ Toy.elements (memory s1) 500 = [600; 601; 1000]
      ∧ Toy.keys (memory s1) !! 1000 = Some 900
      ∧ reserved_at [Index 0] s1 = Some nullptr.
Proof.
  intros this s'. split; [| split; [reflexivity |]].
  - destruct (associative_container_key_protocol Toy.map_state [Index 0]
                {| ContainerEntry.m_container := Some this; ContainerEntry.m_element := None |}
                this _ (AttributeData_Uuid Toy.map_keyType)
                ltac:(vm_compute; reflexivity) eq_refl eq_refl eq_refl)
      as (Hadd & _).
    specialize (Hadd [Index 0; Index 2]). cbv zeta in Hadd.
    match type of Hadd with
    | if ?full then _ else _ =>
        replace full with false in Hadd by (vm_compute; reflexivity)
    end.
    destruct Hadd as (Hmem & _ & Hres & Hawait).
    split; [| split].
    + subst s'. rewrite Hmem. vm_compute. reflexivity.
    + subst s'. rewrite Hres. vm_compute. reflexivity.
    + apply Hawait. vm_compute. discriminate.
  - pose (held := BoundContainer.set_reserved 1000 this).
    destruct (associative_container_key_protocol Samples.key_awaited [Index 0]
                {| ContainerEntry.m_container := Some held; ContainerEntry.m_element := None |}
                held _ (AttributeData_Uuid Toy.map_keyType)
                ltac:(vm_compute; reflexivity) eq_refl eq_refl eq_refl)
      as (_ & _ & Hkey & _).
    destruct (Hkey (Samples.add_container_key 900 [Index 0; Index 2]) 900 [Index 0; Index 2]
                eq_refl ltac:(vm_compute; reflexivity) ltac:(vm_compute; discriminate))
      as (s1 & s2 & Hhandle & Hs2 & Hmem & Hres & _).
    exists s1, s2. split; [exact Hhandle |]. split; [exact Hs2 |].
    split; [rewrite Hmem; vm_compute; reflexivity |].
    split; [rewrite Hmem; vm_compute; reflexivity | exact Hres].
Defined.

(** C7 as stated fails on two bound associative containers whose class
    element declares a [KeyType] attribute.  On a map of capacity 2 that
    holds two elements the activation of the add button leaves the state
    as it was: nothing is reserved, no QueryKey is sent and the pointer stays
    null.  On a map whose attribute is not an [AttributeData<AZ::Uuid>] the
    reserved element is stored at once: the map holds a third element, the
    pointer is null again, and what is sent is the change notification and a
    reset, not a QueryKey. *)
Lemma keyed_containers_without_key_query :
  let message := Toy.activate [Index 0; Index 2] in
  let bound descriptor :=
    {| BoundContainer.m_container := descriptor;
       BoundContainer.m_containerInstance := 500;
       BoundContainer.m_reservedElementInstance := nullptr |} in
  let entry descriptor :=
    {| ContainerEntry.m_container := Some (bound descriptor);
       ContainerEntry.m_element := None |} in
  (let s := Keyed.fixed_map_state in
   let c := Keyed.keyed_descriptor_at Keyed.fixed_map_descriptor in
   is_Some (GetAssociativeContainerInterface c)
   ∧ FindAttribute_KeyType c = Some (AttributeData_Uuid Toy.map_keyType)
   ∧ PrefixTree.ValueAtPath_ParentsOnly (m_containers s) (m_messageOrigin message)
     = Some ([Index 0], entry Keyed.fixed_map_descriptor)
   ∧ Nodes.Action_ExtractFromDomNode (at_path (GetContents s) (m_messageOrigin message))
     = Some Nodes.AddElement
   ∧ HandleMessage message s = Some s
   ∧ OnAddElement [Index 0] (bound Keyed.fixed_map_descriptor) s (m_messageOrigin message) = s
   ∧ trace s = []
   ∧ reserved_at [Index 0] s = Some nullptr)
  ∧ (let s := Keyed.tagged_map_state in
     let c := Keyed.keyed_descriptor_at Keyed.tagged_map_descriptor in
     let s' := OnAddElement [Index 0] (bound Keyed.tagged_map_descriptor) s
                 (m_messageOrigin message) in
     is_Some (GetAssociativeContainerInterface c)
     ∧ FindAttribute_KeyType c = Some AttributeData_other
     ∧ PrefixTree.ValueAtPath_ParentsOnly (m_containers s) (m_messageOrigin message)
       = Some ([Index 0], entry Keyed.tagged_map_descriptor)
     ∧ Nodes.Action_ExtractFromDomNode (at_path (GetContents s) (m_messageOrigin message))
       = Some Nodes.AddElement
     ∧ HandleMessage message s = Some s'
     ∧ Toy.elements (memory s) 500 = [600; 601]
     ∧ Toy.elements (memory s') 500 = [600; 601; 1000]
     ∧ reserved_at [Index 0] s' = Some nullptr
     ∧ trace s'
       = [ChangeNotify_InvokeOnDomNode
            (GetContainerNode Keyed.tagged_map_descriptor s (m_messageOrigin message));
          NotifyResetDocument SoftReset]).
Proof.
  intros message bound entry. split.
  - intros s c.
    split; [by eexists |].
    split; [reflexivity |].
    split; [vm_compute; reflexivity |].
    split; [vm_compute; reflexivity |].
    split; [reflexivity |].
    split; [reflexivity |].
    split; [reflexivity |].
    vm_compute. reflexivity.
  - intros s c s'.
    split; [by eexists |].
    split; [reflexivity |].
    split; [vm_compute; reflexivity |].
    split; [vm_compute; reflexivity |].
    split; [reflexivity |].
    split; [vm_compute; reflexivity |].
    split; [vm_compute; reflexivity |].
    split; [vm_compute; reflexivity |].
    vm_compute. reflexivity.
Qed.

(** ** Property changes *)

Section PropertyChanges.
Context `{Engine}.

(** C2: an OnChanged message at an origin with a registered callback.  The
    new value is what the callback returns on the value from the editor;
    listeners are notified with the one-operation patch that replaces
    [origin / "Value"] by it, then the property-change event is signalled with
    the origin, the same new value and the change type.  Memory is as the
    callback left it; the document and the tables are untouched. *)
Theorem handlePropertyEditorChanged_registered
  (s : State) (message : AdapterMessage) (valueFromEditor : Value)
  (changeType : Nodes.ValueChangeType) (changeHandler : OnChangedCallback) :
  m_message message = OnChanged valueFromEditor changeType →
  PrefixTree.ValueAtPath_ExactPath (m_onChangedCallbacks s) (m_messageOrigin message)
    = Some changeHandler →
  let newValue := (invoke changeHandler valueFromEditor (memory s)).1 in
  ∃ s', HandleMessage message s = Some s'
        ∧ trace s' = trace s
                     ++ [NotifyContentsChanged
                           [ReplaceOperation (m_messageOrigin message ++ [Key "Value"]) newValue];
                         PropertyChangeEvent_Signal
                           {| path := m_messageOrigin message;
                              newValue := newValue;
                              changeType := changeType |}]
        ∧ memory s' = (invoke changeHandler valueFromEditor (memory s)).2
        ∧ GetContents s' = GetContents s
        ∧ m_onChangedCallbacks s' = m_onChangedCallbacks s
        ∧ m_containers s' = m_containers s.
Proof.
  intros Hmsg Hhandler newValue. eexists.
  unfold HandleMessage. rewrite Hmsg. split; [reflexivity |].
  unfold handlePropertyEditorChanged. rewrite Hhandler. subst newValue.
  destruct (invoke changeHandler valueFromEditor (memory s)) as [v mem].
  unfold NotifyPropertyChanged, UpdateDomContents, emit, with_memory. simpl.
  rewrite <- app_assoc. done.
Qed.

Lemma CreateContainerButton_onChangedCallbacks
  (action : Nodes.ContainerAction) (disabled ancestorDisabled : bool)
  (containerIndex : Z) (alignment : Nodes.Align) (s : State) :
  m_onChangedCallbacks
    (CreateContainerButton action disabled ancestorDisabled containerIndex alignment s)
  = m_onChangedCallbacks s.
Proof.
  unfold CreateContainerButton.
  destruct ancestorDisabled, disabled, (negb (containerIndex =? -1)); reflexivity.
Qed.

Lemma CheckContainerElement_onChangedCallbacks
  (instance : Address) (attributes : IAttributes) (s s' : State) :
  CheckContainerElement instance attributes s = Some s' →
  m_onChangedCallbacks s' = m_onChangedCallbacks s.
Proof.
  unfold CheckContainerElement.
  destruct (Find DescriptorAttributes.ParentContainerInstance attributes) as [v |];
    [| by intros [= <-]].
  destruct (_ && _); [| by intros [= <-]].
  destruct (CreateContainerElement instance attributes) as [element |]; [| done]. simpl.
  set (s1 := match PrefixTree.ValueAtPath_ExactPath _ _ with Some _ => _ | None => _ end).
  assert (Hs1 : m_onChangedCallbacks s1 = m_onChangedCallbacks s).
  { subst s1. by destruct (PrefixTree.ValueAtPath_ExactPath _ _). }
  destruct (_ && _); [| by intros [= <-]].
  destruct (negb _).
  - destruct (_ && _).
    + destruct (Find DescriptorAttributes.ContainerIndex attributes); [| done]. simpl.
      intros [= <-]. by rewrite !CreateContainerButton_onChangedCallbacks.
    + simpl. intros [= <-]. by rewrite CreateContainerButton_onChangedCallbacks.
  - simpl. intros [= <-]. by rewrite CreateContainerButton_onChangedCallbacks.
Qed.

Lemma Attribute_currentPath (name : string) (v : Value) (b : AdapterBuilder.t) :
  AdapterBuilder.m_currentPath (AdapterBuilder.Attribute name v b)
  = AdapterBuilder.m_currentPath b.
Proof. unfold AdapterBuilder.Attribute. by destruct (AdapterBuilder.m_entries b). Qed.

Lemma forward_attributes_currentPath (attributes : IAttributes) (b : AdapterBuilder.t) :
  AdapterBuilder.m_currentPath (fold_left forward_attribute attributes b)
  = AdapterBuilder.m_currentPath b.
Proof.
  revert b. induction attributes as [| [[group name] value] rest IH]; intros b; [done |].
  simpl. rewrite IH. unfold forward_attribute.
  destruct (negb _); [done |]. repeat case_bool_decide; try done.
  apply Attribute_currentPath.
Qed.

Lemma ExtractAndCreateLabel_onChangedCallbacks (attributes : IAttributes) (s : State) :
  m_onChangedCallbacks (ExtractAndCreateLabel attributes s) = m_onChangedCallbacks s.
Proof.
  unfold ExtractAndCreateLabel.
  by destruct (Find DescriptorAttributes.Label attributes) as [[] |].
Qed.


End PropertyChanges.

Lemma handlePropertyEditorChanged_registered_witness :
  ∃ s', HandleMessage {| m_messageOrigin := [Index 0; Index 1];
                         m_message := OnChanged (Int64 50) Nodes.FinishedEdit |}
          Toy.counter_state = Some s'
        ∧ trace s' = [NotifyContentsChanged
                        [ReplaceOperation [Index 0; Index 1; Key "Value"] (Int64 50)];
                      PropertyChangeEvent_Signal
                        {| path := [Index 0; Index 1]; newValue := Int64 50;
                           changeType := Nodes.FinishedEdit |}]
        ∧ Toy.cell (memory s') 700 = Int64 50.
Proof.
  destruct (handlePropertyEditorChanged_registered Toy.counter_state
              {| m_messageOrigin := [Index 0; Index 1];
                 m_message := OnChanged (Int64 50) Nodes.FinishedEdit |}
              (Int64 50) Nodes.FinishedEdit (VisitPrimitive_onChanged T_s32 700)
              eq_refl ltac:(vm_compute; reflexivity))
    as (s' & Hs' & Htrace & Hmem & _).
  exists s'. split; [exact Hs' |]. split.
  - rewrite Htrace. vm_compute. reflexivity.
  - rewrite Hmem. vm_compute. reflexivity.
Defined.


(** ** Writing edits back *)

Section WriteBack.
Context `{Engine}.

(** C3 (amended): what each kind of callback does with an edit.
    - The two callbacks of object values ([StoreValueIntoPointer] and the one
      of [VisitValueWithSerializedPath]) write through JSON.  When the new
      value marshals to a pointer, it is stored to JSON with the original
      value as reference object and the buffer is loaded into the original
      address; if the store halts, memory is untouched.  When it does not
      marshal, the DOM value is loaded into the address directly.
      [StoreValueIntoPointer] returns the incoming value in every case; the
      other returns the incoming value when the step halted, and the
      serialization of the instance after the write otherwise.
    - The callback of a primitive assigns the extracted value, if any, and
      returns the value of the instance after that.
    - The callbacks of strings and booleans assign and return the incoming
      value. *)
Theorem invoke_write_back (newValue : Value) (mem : Memory) :
  (∀ (valuePointer : Address) (valueType : TypeId),
     let marshalledPointer := TryMarshalValueToPointer newValue valueType in
     let stored := JsonSerialization_Store mem marshalledPointer valuePointer valueType in
     let loaded := JsonSerialization_Load mem valuePointer valueType stored.2 in
     let direct := LoadViaJsonSerialization mem valuePointer valueType newValue in
     let reflected (m : Memory) := StoreViaJsonSerialization m valuePointer nullptr valueType true in
     let plain := invoke (StoreValueIntoPointer valuePointer valueType) newValue mem in
     let serialized :=
       invoke (VisitValueWithSerializedPath_onChanged valuePointer valueType) newValue mem in
     plain.1 = newValue
     ∧ plain.2 = serialized.2
     ∧ (marshalledPointer ≠ nullptr → is_Halted stored.1 = true →
        plain.2 = mem ∧ serialized.1 = newValue)
     ∧ (marshalledPointer ≠ nullptr → is_Halted stored.1 = false →
        plain.2 = loaded.2
        ∧ serialized.1 = if is_Halted loaded.1 then newValue else reflected loaded.2)
     ∧ (marshalledPointer = nullptr →
        plain.2 = direct.2
        ∧ serialized.1 = if is_Halted direct.1 then newValue else reflected direct.2))
  ∧ (∀ (T : PrimitiveType) (value : Address),
       let written :=
         match ValueToType T newValue with
         | Some extractedValue => store T mem value extractedValue
         | None => mem
         end in
       invoke (VisitPrimitive_onChanged T value) newValue mem
       = (ValueFromType T (load T written value), written))
  ∧ (∀ value : Address,
       invoke (VisitObjectBegin_string_onChanged value) newValue mem
       = (newValue, store_string mem value (GetString newValue))
       ∧ invoke (VisitObjectBegin_bool_onChanged value) newValue mem
         = (newValue, store_bool mem value (GetBool newValue))).
Proof.
  split; [| split; [reflexivity | by split]].
  intros valuePointer valueType marshalledPointer stored loaded direct reflected plain serialized.
  subst plain serialized. unfold invoke, write_back_via_json.
  fold marshalledPointer. fold stored.
  destruct (Z.eqb_spec marshalledPointer nullptr) as [Hnull | Hnonnull]; simpl.
  - fold direct. destruct direct as [rc m] eqn:Hdirect. simpl.
    destruct (is_Halted rc); intuition (try done; try congruence).
  - destruct stored as [rc buffer] eqn:Hstored. simpl in *. fold loaded.
    destruct (is_Halted rc) eqn:Hrc.
    + simpl. rewrite ?Hrc. intuition (try done; try congruence).
    + destruct loaded as [rc' m] eqn:Hloaded. simpl.
      destruct (is_Halted rc'); intuition (try done; try congruence).
Qed.

End WriteBack.

Lemma invoke_write_back_witness :
  Toy.cell (@invoke Toy.engine (StoreValueIntoPointer 700 30) (Toy.pointer 600 30)
              Toy.memory0).2 700
  = Int64 5.
Proof.
  destruct (proj1 (@invoke_write_back Toy.engine (Toy.pointer 600 30) Toy.memory0) 700 30)
    as (_ & _ & _ & Hstored & _).
  destruct Hstored as [Hmem _]; [vm_compute; discriminate | vm_compute; reflexivity |].
  rewrite Hmem. vm_compute. reflexivity.
Defined.

(** C3 as stated fails twice on the small engine, whose JSON load clamps
    integers at 100.  The edit of a primitive is assigned directly: the
    instance holds 500, which no JSON load would have left there.  The edit of
    an object value is loaded through JSON, and the callback answers the
    incoming 500 although the instance holds 100 after the write. *)
Lemma write_back_neither_always_json_nor_reflected :
  let primitive := @invoke Toy.engine (VisitPrimitive_onChanged T_s32 700) (Int64 500) Toy.memory0 in
  let object := @invoke Toy.engine (StoreValueIntoPointer 700 30) (Int64 500) Toy.memory0 in
  Toy.cell primitive.2 700 = Int64 500
  ∧ Toy.cell (Toy.Load Toy.memory0 700 20 (Int64 500)).2 700 = Int64 100
  ∧ object.1 = Int64 500
  ∧ Toy.cell object.2 700 = Int64 100
  ∧ @StoreViaJsonSerialization Toy.engine object.2 700 nullptr 30 true = Int64 100.
Proof. vm_compute. repeat split. Qed.

(** ** Simple point lights *)

Section SimplePointLightProperties.
Import Shader SimplePointLight.
Context `{Arith} {SurfaceData LightingRest : Type}.
Context (normalize : real3 → real3).
Context (GetDiffuseLighting GetSpecularLighting :
           LitSurface (SurfaceData := SurfaceData) →
           LightingData (LightingRest := LightingRest) → real3 → real3 → real3).
Context (IsSameLightChannel : N → N → bool).

#[local] Abbreviation Apply :=
  (ApplySimplePointLight normalize GetDiffuseLighting GetSpecularLighting).

Lemma ApplySimplePointLight_frame (light : SimplePointLight) (surface : LitSurface)
  (lightingData : LightingData) :
  lightingChannels (Apply light surface lightingData) = lightingChannels lightingData
  ∧ tileIterator (Apply light surface lightingData) = tileIterator lightingData
  ∧ lightingRest (Apply light surface lightingData) = lightingRest lightingData.
Proof. unfold ApplySimplePointLight. by destruct (real_ltb _ _). Qed.

Lemma fold_same_channel (m_simplePointLights : nat → SimplePointLight)
  (surface : LitSurface) (indices : list nat) (lightingData : LightingData) :
  fold_left (apply_if_same_channel normalize GetDiffuseLighting GetSpecularLighting
               IsSameLightChannel m_simplePointLights surface) indices lightingData
  = fold_left (λ l i, Apply (m_simplePointLights i) surface l)
      (List.filter (λ i, IsSameLightChannel (lightingChannels lightingData)
                           (m_lightingChannelMask (m_simplePointLights i))) indices)
      lightingData.
Proof.
  revert lightingData. induction indices as [| i rest IH]; intros lightingData; [done |].
  simpl. unfold apply_if_same_channel at 2.
  destruct (IsSameLightChannel _ _) eqn:Hsame; simpl.
  - rewrite IH. f_equal. apply filter_ext. intros j.
    by rewrite (proj1 (ApplySimplePointLight_frame _ _ _)).
  - apply IH.
Qed.

Lemma set_tileIterator_twice (a b : list nat)
  (lightingData : LightingData (LightingRest := LightingRest)) :
  set_tileIterator a (set_tileIterator b lightingData) = set_tileIterator a lightingData.
Proof. reflexivity. Qed.

Lemma fold_yields_restart (m_simplePointLights : nat → SimplePointLight)
  (surface : LitSurface) (l : list (nat * list nat)) (a b : list nat)
  (lightingData : LightingData (LightingRest := LightingRest)) :
  set_tileIterator a
    (fold_left (λ l y, Apply (m_simplePointLights y.1) surface (set_tileIterator y.2 l))
       l (set_tileIterator b lightingData))
  = set_tileIterator a
      (fold_left (λ l y, Apply (m_simplePointLights y.1) surface (set_tileIterator y.2 l))
         l lightingData).
Proof. destruct l as [| y l']; reflexivity. Qed.

Lemma culled_loop_same_channel (m_simplePointLights : nat → SimplePointLight)
  (surface : LitSurface) (pending : list nat) (lightingData : LightingData) :
  culled_loop normalize GetDiffuseLighting GetSpecularLighting IsSameLightChannel
    m_simplePointLights surface pending lightingData
  = set_tileIterator (if pending is [] then tileIterator lightingData else [])
      (fold_left (λ l y, Apply (m_simplePointLights y.1) surface (set_tileIterator y.2 l))
         (List.filter (λ y, IsSameLightChannel (lightingChannels lightingData)
                              (m_lightingChannelMask (m_simplePointLights y.1)))
                      (yields pending))
         lightingData).
Proof.
  revert lightingData. induction pending as [| i rest IH]; intros lightingData.
  - by destruct lightingData.
  - simpl. rewrite IH. unfold apply_if_same_channel. simpl.
    destruct (IsSameLightChannel _ _) eqn:Hsame; simpl.
    + destruct (ApplySimplePointLight_frame (m_simplePointLights i) surface
                  (set_tileIterator rest lightingData)) as (Hch & Hit & _).
      rewrite Hch, Hit. simpl.
      destruct rest; [by destruct (Apply _ _ _) |]. reflexivity.
    + destruct rest as [| j rest']; [reflexivity |].
      apply fold_yields_restart.
Qed.

(** C10: with [falloff] the squared distance from the surface to the light
    times the light's inverse attenuation radius squared:
    - if [falloff] is at least 1, [ApplySimplePointLight] answers the lighting
      data it was given;
    - otherwise it adds one diffuse and then one specular contribution, both
      for the light intensity divided by the squared distance (at least
      0.001 squared) and multiplied by [(1 - falloff^2)^2]; the specular term
      is evaluated on the lighting data that already holds the diffuse one;
    - [ApplySimplePointLights] applies this, in buffer order, to exactly the
      lights whose channel mask matches the lighting channels: the first
      [m_simplePointLightCount] lights in the plain variant, the lights the
      tile iterator yields in the culling variant (which leaves the iterator
      exhausted). *)
Theorem ApplySimplePointLights_spec
  (light : SimplePointLight) (surface : LitSurface) (lightingData : LightingData)
  (m_simplePointLights : nat → SimplePointLight) (m_simplePointLightCount : nat) :
  let posToLight := real3_of_float3 (float3_sub (m_position light) (position surface)) in
  let d2 := dot posToLight posToLight in
  let falloff := real_mul d2 (real_of_float (m_invAttenuationRadiusSquared light)) in
  let matches (i : nat) :=
    IsSameLightChannel (lightingChannels lightingData)
      (m_lightingChannelMask (m_simplePointLights i)) in
  (real_le real_1 falloff → Apply light surface lightingData = lightingData)
  ∧ (¬ real_le real_1 falloff →
     let radiusAttenuation :=
       real_mul (real_sub real_1 (real_mul falloff falloff))
                (real_sub real_1 (real_mul falloff falloff)) in
     let lightIntensity :=
       real3_mul (real3_div (real3_of_float3 (m_rgbIntensityCandelas light))
                            (real_max (real_mul real_0_001 real_0_001) d2))
                 radiusAttenuation in
     let posToLightDir := normalize posToLight in
     let diffused :=
       set_diffuseLighting
         (real3_add (diffuseLighting lightingData)
                    (GetDiffuseLighting surface lightingData lightIntensity posToLightDir))
         lightingData in
     Apply light surface lightingData
     = set_specularLighting
         (real3_add (specularLighting lightingData)
                    (GetSpecularLighting surface diffused lightIntensity posToLightDir))
         diffused)
  ∧ ApplySimplePointLights normalize GetDiffuseLighting GetSpecularLighting IsSameLightChannel
      m_simplePointLights m_simplePointLightCount surface lightingData
    = fold_left (λ l i, Apply (m_simplePointLights i) surface l)
        (List.filter matches (seq 0 m_simplePointLightCount)) lightingData
  ∧ ApplySimplePointLights_culled normalize GetDiffuseLighting GetSpecularLighting
      IsSameLightChannel m_simplePointLights surface lightingData
    = set_tileIterator []
        (fold_left (λ l y, Apply (m_simplePointLights y.1) surface (set_tileIterator y.2 l))
           (List.filter (λ y, matches y.1) (yields (tileIterator lightingData)))
           lightingData).
Proof.
  intros posToLight d2 falloff matches. split; [| split; [| split]].
  - intros Hfar. unfold ApplySimplePointLight. fold posToLight d2 falloff.
    by rewrite (real_ltb_ge _ _ Hfar).
  - intros Hnear. unfold ApplySimplePointLight. fold posToLight d2 falloff.
    by rewrite (real_ltb_lt _ _ Hnear).
  - apply fold_same_channel.
  - unfold ApplySimplePointLights_culled. rewrite culled_loop_same_channel.
    destruct (tileIterator lightingData) eqn:Hpending; [| reflexivity].
    simpl. destruct lightingData. simpl in Hpending. by subst.
Qed.

End SimplePointLightProperties.

Lemma ApplySimplePointLights_spec_witness :
  SimplePointLight.ApplySimplePointLight (λ v, v) ToyShader.GetDiffuse ToyShader.GetSpecular
    (ToyShader.lights 0) ToyShader.origin_surface ToyShader.unlit
  = ToyShader.unlit.
Proof.
  apply (proj1 (ApplySimplePointLights_spec (λ v, v) ToyShader.GetDiffuse ToyShader.GetSpecular
                  ToyShader.IsSameLightChannel (ToyShader.lights 0) ToyShader.origin_surface
                  ToyShader.unlit ToyShader.lights 3)).
  vm_compute. discriminate.
Defined.

(** ** EnhancedPBR surface evaluation *)

Section EnhancedPBRProperties.
Import Shader EnhancedPBR.
Context `{Arith}.
Context {float2 float4 real4 real3x3 Texture2D sampler BlendMode : Type}.
Context {Anisotropy SurfaceRest : Type}.
Context (F : MaterialFunctions (float2 := float2) (float4 := float4) (real4 := real4)
               (real3x3 := real3x3) (Texture2D := Texture2D) (sampler := sampler)
               (BlendMode := BlendMode) (Anisotropy := Anisotropy)
               (SurfaceRest := SurfaceRest)).
Context (M : MaterialSrg (float4 := float4) (real3x3 := real3x3)
               (Texture2D := Texture2D) (sampler := sampler)).
Context (O : Options (BlendMode := BlendMode)).

(** C9: provided the two methods of [Surface] the evaluation calls
    ([SetAlbedoAndSpecularF0], [CalculateRoughnessA]) leave [position] and
    [vertexNormal] alone, the surface returned has the world-space position
    and vertex normal it was given.  With subsurface scattering enabled the
    metallic value handed to [SetAlbedoAndSpecularF0] is 0: forcing it to 0
    changes nothing.  The subsurface, emissive and occlusion fields are the
    material inputs; the overload on [PixelGeometryData] is the overload of
    eight arguments on its fields.
    The base colour, the specular F0 factor and the metallic value reach
    the surface through [SetAlbedoAndSpecularF0], and they are the material
    inputs: the base colour is [GetDetailedBaseColorInput] (with the
    parallax clipping highlight applied when the displacement is clipped and
    the highlight is on), the factor is [GetSpecularInput], the metallic
    value is [GetMetallicInput] with subsurface scattering off and 0 with it
    on; handing exactly these three to the method changes nothing.  So
    whatever the method makes of its arguments in [surfaceRest] (it holds
    the albedo) and in [specularF0] is made of these inputs, [specularF0]
    going through [ApplyClearCoatToSpecularF0] when the clear coat is
    compiled in and enabled as a feature.  [roughnessLinear] is
    [GetRoughnessInput] when [CalculateRoughnessA] leaves it alone, and
    [roughnessA] is what [CalculateRoughnessA] makes of that roughness. *)
Theorem EvaluateSurface_EnhancedPBR_fields
  (uninitialized : Surface) (positionWS : float3) (normalWS : real3)
  (tangents bitangents : nat → real3) (uvs detailUvs : nat → float2)
  (isFrontFace isDisplacementClipped : bool) :
  (∀ s baseColor specularF0Factor metallic,
     position (SetAlbedoAndSpecularF0 F s baseColor specularF0Factor metallic) = position s
     ∧ vertexNormal (SetAlbedoAndSpecularF0 F s baseColor specularF0Factor metallic)
       = vertexNormal s) →
  (∀ s, position (CalculateRoughnessA F s) = position s
        ∧ vertexNormal (CalculateRoughnessA F s) = vertexNormal s) →
  let surface :=
    EvaluateSurface_EnhancedPBR F M O uninitialized positionWS normalWS tangents bitangents
      uvs detailUvs isFrontFace isDisplacementClipped in
  position surface = positionWS
  ∧ vertexNormal surface = normalWS
  ∧ (o_enableSubsurfaceScattering O = true →
     surface = EvaluateSurface_EnhancedPBR (with_metallic_0 F) M O uninitialized positionWS
                 normalWS tangents bitangents uvs detailUvs isFrontFace isDisplacementClipped)
  ∧ subsurfaceScatteringFactor surface
    = GetSubsurfaceInput F (m_subsurfaceScatteringInfluenceMap M) (m_sampler M)
        (uvs (m_subsurfaceScatteringInfluenceMapUvIndex M))
        (real_of_float (m_subsurfaceScatteringFactor M))
  ∧ emissiveLighting surface
    = GetEmissiveInput F (m_emissiveMap M) (m_sampler M) (uvs (m_emissiveMapUvIndex M))
        (real_of_float (m_emissiveIntensity M)) (real3_of_float3 (m_emissiveColor_rgb M))
        (real_of_float (m_emissiveAffectedByAlpha M)) (alpha surface)
        (o_emissiveEnabled O) (o_emissive_useTexture O)
  ∧ diffuseAmbientOcclusion surface
    = GetOcclusionInput F (m_diffuseOcclusionMap M) (m_sampler M)
        (uvs (m_diffuseOcclusionMapUvIndex M)) (real_of_float (m_diffuseOcclusionFactor M))
        (o_diffuseOcclusion_useTexture O)
  ∧ specularOcclusion surface
    = GetOcclusionInput F (m_specularOcclusionMap M) (m_sampler M)
        (uvs (m_specularOcclusionMapUvIndex M)) (real_of_float (m_specularOcclusionFactor M))
        (o_specularOcclusion_useTexture O)
  ∧ (∀ (VsOutput : Type) (IN : VsOutput) (geoData : PixelGeometryData),
      EvaluateSurface_EnhancedPBR_geoData F M O uninitialized IN geoData
      = EvaluateSurface_EnhancedPBR F M O uninitialized
          (geo_positionWS geoData) (geo_vertexNormal geoData)
          (geo_tangents geoData) (geo_bitangents geoData)
          (geo_uvs geoData) (geo_detailUvs geoData)
          (geo_isFrontFace geoData) (geo_isDisplacementClipped geoData))
  ∧ (let detailLayerBlendFactor :=
       GetDetailLayerBlendFactor F (m_detail_blendMask_texture M) (m_sampler M)
         (if bool_decide (m_detail_blendMask_uvIndex M = m_detail_allMapsUvIndex M)
          then detailUvs (m_detail_blendMask_uvIndex M)
          else uvs (m_detail_blendMask_uvIndex M))
         (o_detail_blendMask_useTexture O) (real_of_float (m_detail_blendFactor M)) in
     let baseColorInput :=
       GetDetailedBaseColorInput F (m_baseColorMap M) (m_sampler M)
         (uvs (m_baseColorMapUvIndex M)) (o_baseColor_useTexture O)
         (real3_of_float3 (m_baseColor M)) (real_of_float (m_baseColorFactor M))
         (o_baseColorTextureBlendMode O) (m_detail_baseColor_texture M) (m_sampler M)
         (detailUvs (m_detail_allMapsUvIndex M)) (o_detail_baseColor_useTexture O)
         (real_mul (real_of_float (m_detail_baseColor_factor M)) detailLayerBlendFactor) in
     let baseColor :=
       if o_parallax_highlightClipping O && isDisplacementClipped
       then ApplyParallaxClippingHighlight F baseColorInput
       else baseColorInput in
     let metallic :=
       if o_enableSubsurfaceScattering O
       then real_0
       else GetMetallicInput F (m_metallicMap M) (m_sampler M) (uvs (m_metallicMapUvIndex M))
              (real_of_float (m_metallicFactor M)) (o_metallic_useTexture O) in
     let specularF0Factor :=
       GetSpecularInput F (m_specularF0Map M) (m_sampler M) (uvs (m_specularF0MapUvIndex M))
         (real_of_float (m_specularF0Factor M)) (o_specularF0_useTexture O) in
     let roughness :=
       GetRoughnessInput F (m_roughnessMap M) (m_sampler M) (uvs (m_roughnessMapUvIndex M))
         (real_of_float (m_roughnessFactor M)) (real_of_float (m_roughnessLowerBound M))
         (real_of_float (m_roughnessUpperBound M)) (o_roughness_useTexture O) in
     surface = EvaluateSurface_EnhancedPBR (with_albedo_inputs F baseColor specularF0Factor metallic)
                 M O uninitialized positionWS normalWS tangents bitangents uvs detailUvs
                 isFrontFace isDisplacementClipped
     ∧ (∀ albedo : real3 → real → real → SurfaceRest,
          (∀ s b f m, surfaceRest (SetAlbedoAndSpecularF0 F s b f m) = albedo b f m) →
          (∀ s, surfaceRest (CalculateRoughnessA F s) = surfaceRest s) →
          surfaceRest surface = albedo baseColor specularF0Factor metallic)
     ∧ (∀ F0 : real3 → real → real → real3,
          (∀ s b f m, specularF0 (SetAlbedoAndSpecularF0 F s b f m) = F0 b f m) →
          (∀ s, specularF0 (CalculateRoughnessA F s) = specularF0 s) →
          specularF0 surface
          = if ENABLE_CLEAR_COAT O && o_clearCoat_feature_enabled O
            then ApplyClearCoatToSpecularF0 F (F0 baseColor specularF0Factor metallic)
                   (factor (clearCoat surface))
            else F0 baseColor specularF0Factor metallic)
     ∧ ((∀ s, roughnessLinear (CalculateRoughnessA F s) = roughnessLinear s) →
        roughnessLinear surface = roughness)
     ∧ (∀ A : real → real,
          (∀ s, roughnessA (CalculateRoughnessA F s) = A (roughnessLinear s)) →
          roughnessA surface = A roughness)).
Proof.
  intros Halbedo Hroughness surface. subst surface.
  split; [| split; [| split; [| split; [| split; [| split; [| split; [| split]]]]]]].
  - lazy beta iota zeta delta [EvaluateSurface_EnhancedPBR position].
    etransitivity; [apply Hroughness |]. lazy beta iota zeta delta [position].
    etransitivity; [apply Halbedo |]. reflexivity.
  - lazy beta iota zeta delta [EvaluateSurface_EnhancedPBR vertexNormal].
    etransitivity; [apply Hroughness |]. lazy beta iota zeta delta [vertexNormal].
    etransitivity; [apply Halbedo |]. reflexivity.
  - intros Hsss. cbv beta delta [EvaluateSurface_EnhancedPBR]. rewrite Hsss. reflexivity.
  - reflexivity.
  - reflexivity.
  - reflexivity.
  - reflexivity.
  - reflexivity.
  - cbv zeta. split; [| split; [| split; [| split]]].
    + cbv beta delta [EvaluateSurface_EnhancedPBR]. destruct (o_enableSubsurfaceScattering O); reflexivity.
    + intros albedo Ha Hr. lazy beta iota zeta delta [EvaluateSurface_EnhancedPBR surfaceRest].
      etransitivity; [apply Hr |]. lazy beta iota zeta delta [surfaceRest].
      etransitivity; [apply Ha |]. by destruct (o_enableSubsurfaceScattering O).
    + intros F0 Ha Hr.
      destruct O as [? coat ? ? ? ? ? ? ? sss ? ? ? ? ? ? ? ? feature ? ? ? ?].
      cbn [ENABLE_CLEAR_COAT o_clearCoat_feature_enabled o_enableSubsurfaceScattering].
      destruct coat, feature, sss;
        lazy beta iota zeta delta [EvaluateSurface_EnhancedPBR specularF0 clearCoat andb
                                     ENABLE_CLEAR_COAT o_clearCoat_feature_enabled
                                     o_enableSubsurfaceScattering negb];
        first [ etransitivity; [apply Hr |]; lazy beta iota zeta delta [specularF0];
                etransitivity; [apply Ha |]; reflexivity
              | f_equal; etransitivity; [apply Hr |]; lazy beta iota zeta delta [specularF0];
                etransitivity; [apply Ha |]; reflexivity ].
    + intros Hr. lazy beta iota zeta delta [EvaluateSurface_EnhancedPBR roughnessLinear].
      etransitivity; [apply Hr |]. reflexivity.
    + intros A Hr. lazy beta iota zeta delta [EvaluateSurface_EnhancedPBR roughnessA].
      etransitivity; [apply Hr |]. reflexivity.
Qed.

End EnhancedPBRProperties.

Lemma EvaluateSurface_EnhancedPBR_fields_witness :
  let surface :=
    EnhancedPBR.EvaluateSurface_EnhancedPBR ToyShader.functions ToyShader.material
      ToyShader.options ToyShader.blank (ToyShader.point 1 2 3) (ToyShader.vec 0 0 1)
      (λ _, ToyShader.vec 1 0 0) (λ _, ToyShader.vec 0 1 0) (λ _, 0%Q) (λ _, 0%Q) true false in
  EnhancedPBR.position surface = ToyShader.point 1 2 3
  ∧ EnhancedPBR.vertexNormal surface = ToyShader.vec 0 0 1
  ∧ EnhancedPBR.roughnessLinear surface = (1 # 2)%Q
  ∧ EnhancedPBR.surfaceRest surface = 0%Q.
Proof.
  intros surface.
  destruct (EvaluateSurface_EnhancedPBR_fields ToyShader.functions ToyShader.material
              ToyShader.options ToyShader.blank (ToyShader.point 1 2 3) (ToyShader.vec 0 0 1)
              (λ _, ToyShader.vec 1 0 0) (λ _, ToyShader.vec 0 1 0) (λ _, 0%Q) (λ _, 0%Q)
              true false
              ltac:(intros; split; reflexivity) ltac:(intros; split; reflexivity))
    as (Hposition & Hnormal & _ & _ & _ & _ & _ & _ & Hinputs).
  destruct Hinputs as (_ & Halbedo & _ & Hroughness & _).
  split; [exact Hposition |]. split; [exact Hnormal |]. split.
  - exact (Hroughness (λ _, eq_refl)).
  - exact (Halbedo (λ _ _ metallic, metallic) (λ _ _ _ _, eq_refl) (λ _, eq_refl)).
Defined.

(** ** The generated document *)

Section GenerateContentsDocument.
Context `{Engine}.

#[local] Abbreviation B := AdapterBuilder.Build_t.

Lemma fold_forward_attribute (attributes : IAttributes) (top : Value) (rest : list Value)
  (p : Path) (v : Value) :
  fold_left forward_attribute attributes (B (top :: rest) p v)
  = B (fold_left forwarded attributes top :: rest) p v.
Proof.
  revert top. induction attributes as [| [[group name] value] attributes IH]; intros top;
    [done |].
  simpl. destruct (negb (String.eqb group "")); [apply IH |].
  destruct (bool_decide (name ∈ ignoredAttributes)); [apply IH |].
  destruct (bool_decide (name ∈ RowAttributes)); apply IH.
Qed.

Lemma fold_row_attributes (attributes : IAttributes) (names : list string)
  (name : string) (ms : list (string * Value)) (ch rest : list Value) (p : Path) (v : Value) :
  fold_left (λ b attribute,
               match Find attribute attributes with
               | Some attributeValue =>
                   if IsNull attributeValue then b
                   else AdapterBuilder.Attribute attribute attributeValue b
               | None => b
               end) names (B (Node name ms ch :: rest) p v)
  = B (Node name
         (fold_left (λ ms attribute,
                       match Find attribute attributes with
                       | Some attributeValue =>
                           if IsNull attributeValue then ms
                           else assoc_set attribute attributeValue ms
                       | None => ms
                       end) names ms) ch :: rest) p v.
Proof.
  revert ms. induction names as [| attribute names IH]; intros ms; [done |].
  simpl. destruct (Find attribute attributes) as [attributeValue |]; [| apply IH].
  destruct (IsNull attributeValue); apply IH.
Qed.

Lemma BeginNode_B n top rest p v :
  AdapterBuilder.BeginNode n (B (top :: rest) p v)
  = B (CreateNode n :: top :: rest) (p ++ [Index (length (Children top))]) v.
Proof. done. Qed.

Lemma Attribute_B n x top rest p v :
  AdapterBuilder.Attribute n x (B (top :: rest) p v) = B (SetMember n x top :: rest) p v.
Proof. done. Qed.

Lemma AddMessageHandler_B n top rest p v :
  AdapterBuilder.AddMessageHandler n (B (top :: rest) p v)
  = B (SetMember n (message_handler n p) top :: rest) p v.
Proof. done. Qed.

Lemma EndNode_B x name ms ch rest p i v :
  AdapterBuilder.EndNode (B (x :: Node name ms ch :: rest) (p ++ [i]) v)
  = B (Node name ms (ch ++ [x]) :: rest) p v.
Proof. unfold AdapterBuilder.EndNode. simpl. by rewrite removelast_last. Qed.

Ltac build :=
  simpl;
  unfold AdapterBuilder.EndPropertyEditor, AdapterBuilder.EndRow, AdapterBuilder.EndAdapter,
    AdapterBuilder.BeginPropertyEditor, AdapterBuilder.BeginRow, AdapterBuilder.BeginAdapter,
    AdapterBuilder.Label, AdapterBuilder.GetCurrentPath;
  repeat (rewrite BeginNode_B || rewrite Attribute_B || rewrite AddMessageHandler_B
          || rewrite EndNode_B || rewrite fold_forward_attribute);
  simpl.

Lemma CreateContainerButton_built action disabled ancestorDisabled containerIndex alignment
  (s : State) name ms ch rest p v m :
  built s (Node name ms ch :: rest) p v m →
  built (CreateContainerButton action disabled ancestorDisabled containerIndex alignment s)
    (Node name ms (with_button action disabled ancestorDisabled containerIndex alignment p ch)
     :: rest) p v m.
Proof.
  destruct s; intros [Hb Hm]; simpl in *; subst.
  unfold built, CreateContainerButton, with_button, button_node. simpl.
  destruct ancestorDisabled, disabled, (negb (containerIndex =? -1)); build; done.
Qed.

Lemma built_with_containers c (s : State) entries p v m :
  built s entries p v m → built (with_containers c s) entries p v m.
Proof. by destruct s. Qed.

Lemma built_with_onChangedCallbacks c (s : State) entries p v m :
  built s entries p v m → built (with_onChangedCallbacks c s) entries p v m.
Proof. by destruct s. Qed.

Lemma CreateLabel_built text serializedPath (s : State) name ms ch rest p v m :
  built s (Node name ms ch :: rest) p v m →
  built (CreateLabel text serializedPath s) (Node name ms (ch ++ [Label_node text]) :: rest)
    p v m.
Proof.
  destruct s; intros [Hb Hm]; simpl in *; subst.
  unfold built, CreateLabel, Label_node. simpl. build. done.
Qed.

Lemma ExtractAndCreateLabel_built attributes (s : State) name ms ch rest p v m :
  built s (Node name ms ch :: rest) p v m →
  built (ExtractAndCreateLabel attributes s) (Node name ms (labelled attributes ch) :: rest)
    p v m.
Proof.
  intros Hb. unfold ExtractAndCreateLabel, labelled.
  destruct (Find DescriptorAttributes.Label attributes) as [[] |]; try done.
  by apply CreateLabel_built.
Qed.

Lemma CheckContainerElement_built instance attributes (s : State) name ms ch rest p v m :
  built s (Node name ms ch :: rest) p v m →
  match element_buttons attributes m p ch with
  | Some ch' =>
      ∃ s', CheckContainerElement instance attributes s = Some s'
            ∧ built s' (Node name ms ch' :: rest) p v m
  | None => CheckContainerElement instance attributes s = None
  end.
Proof.
  intros Hb. unfold CheckContainerElement, element_buttons.
  destruct (Find DescriptorAttributes.ParentContainerInstance attributes)
    as [parentContainerInstanceValue |] eqn:Hinstance; [| by eauto].
  destruct (negb (container_of_attribute
                    (Find DescriptorAttributes.ParentContainer attributes) =? nullptr))
    eqn:Hcontainer; simpl; [| by eauto].
  destruct (negb (IsNull parentContainerInstanceValue)); simpl; [| by eauto].
  unfold CreateContainerElement. rewrite Hcontainer, Hinstance. simpl.
  match goal with |- context [memory ?x] => set (s1 := x) end.
  assert (Hs1 : built s1 (Node name ms ch :: rest) p v m).
  { subst s1. destruct (PrefixTree.ValueAtPath_ExactPath _ _); by apply built_with_containers. }
  clearbody s1. replace (memory s1) with m by (by destruct Hs1).
  destruct (negb (IsFixedSize _) && bool_attribute true _); [| by eauto].
  destruct (negb (default nullptr (valid_address_of parentContainerInstanceValue) =? nullptr));
    simpl.
  - destruct ((1 <? _) && IsSequenceContainer _).
    + destruct (Find DescriptorAttributes.ContainerIndex attributes); simpl; [| done].
      eexists. split; [done |]. by do 3 apply CreateContainerButton_built.
    + simpl. eexists. split; [done |]. by apply CreateContainerButton_built.
  - eexists. split; [done |]. by apply CreateContainerButton_built.
Qed.

Lemma BeginRow_built (s : State) name ms ch rest p v m :
  built s (Node name ms ch :: rest) p v m →
  built (on_builder AdapterBuilder.BeginRow s)
    (Node Nodes.Row_Name [] [] :: Node name ms ch :: rest) (p ++ [Index (length ch)]) v m.
Proof. destruct s; intros [Hb Hm]; simpl in *; subst. done. Qed.

Lemma EndRow_built (s : State) x name ms ch rest p i v m :
  built s (x :: Node name ms ch :: rest) (p ++ [i]) v m →
  built (on_builder AdapterBuilder.EndRow s) (Node name ms (ch ++ [x]) :: rest) p v m.
Proof.
  destruct s; intros [Hb Hm]; simpl in *; subst.
  unfold built. simpl. build. done.
Qed.

Lemma VisitValue_built value instance valueSize attributes onChanged hashValue
  (s : State) name ms ch rest p v m :
  built s (Node name ms ch :: rest) p v m →
  match value_children value instance valueSize attributes hashValue m p ch with
  | Some ch' =>
      ∃ s', VisitValue value instance valueSize attributes onChanged false hashValue s
            = Some s'
            ∧ built s' (Node name ms ch' :: rest) p v m
  | None =>
      VisitValue value instance valueSize attributes onChanged false hashValue s = None
  end.
Proof.
  intros Hb. unfold VisitValue, value_children.
  match goal with |- context [CheckContainerElement _ _ ?x] => set (s1 := x) end.
  assert (Hs1 : built s1
                  (Node name ms
                     (ch ++ [editor_node value instance valueSize attributes hashValue m
                               (p ++ [Index (length ch)])]) :: rest) p v m).
  { subst s1. destruct s; destruct Hb as [Hb Hm]; simpl in *; subst.
    unfold built, editor_node, ForwardAttributes. simpl. destruct hashValue; build; done. }
  clearbody s1.
  pose proof (CheckContainerElement_built instance attributes s1 _ _ _ _ _ _ _ Hs1) as Hcheck.
  destruct (element_buttons _ _ _ _); [| by rewrite Hcheck].
  destruct Hcheck as (s' & -> & Hs'). simpl. eauto.
Qed.

Lemma VisitValue_row_built value instance valueSize attributes onChanged hashValue
  (s : State) name ms ch rest p v m :
  built s (Node name ms ch :: rest) p v m →
  match value_children value instance valueSize attributes hashValue m
          (p ++ [Index (length ch)]) (labelled attributes []) with
  | Some rowChildren =>
      ∃ s', VisitValue value instance valueSize attributes onChanged true hashValue s
            = Some s'
            ∧ built s' (Node name ms (ch ++ [Node Nodes.Row_Name [] rowChildren]) :: rest)
                p v m
  | None =>
      VisitValue value instance valueSize attributes onChanged true hashValue s = None
  end.
Proof.
  intros Hb.
  assert (Hrow : VisitValue value instance valueSize attributes onChanged true hashValue s
                 = s' ← VisitValue value instance valueSize attributes onChanged false
                          hashValue
                          (ExtractAndCreateLabel attributes
                             (on_builder AdapterBuilder.BeginRow s));
                   Some (on_builder AdapterBuilder.EndRow s')).
  { unfold VisitValue. by destruct (CheckContainerElement _ _ _). }
  rewrite Hrow.
  pose proof (VisitValue_built value instance valueSize attributes onChanged hashValue
                _ _ _ _ _ _ _ _
                (ExtractAndCreateLabel_built attributes _ _ _ _ _ _ _ _
                   (BeginRow_built _ _ _ _ _ _ _ _ Hb))) as Hvalue.
  destruct (value_children _ _ _ _ _ _ _ _); [| by rewrite Hvalue].
  destruct Hvalue as (s' & -> & Hs'). simpl. eexists. split; [done |].
  by eapply EndRow_built.
Qed.

Lemma begin_container_built container access attributes (s : State) name ms ch rest p v m :
  built s (Node name ms ch :: rest) p v m →
  built (begin_container container access attributes s)
    (Node name ms (container_children container access attributes m p ch) :: rest) p v m.
Proof.
  intros Hb. unfold begin_container, container_children.
  match goal with |- context [with_containers ?c s] =>
    pose proof (built_with_containers c s _ _ _ _ Hb) as Hs1;
    generalize dependent (with_containers c s)
  end.
  intros s1 Hs1.
  assert (Hlabels :
    ∀ text, built (CreateLabel text (ExtractSerializedPath attributes) s1)
              (Node name ms (ch ++ [Label_node text]) :: rest) p v m)
    by (intros; by apply CreateLabel_built).
  assert (Hmemory : ∀ text, memory (CreateLabel text (ExtractSerializedPath attributes) s1) = m)
    by (intros text; by destruct (Hlabels text)).
  match goal with
  | |- built (if ?c then _ else _) (Node _ _ (if ?c then _ else _) :: _) _ _ _ =>
      destruct c
  end.
  - match goal with |- context [CreateContainerButton Nodes.AddElement _ _ _ _ ?x] =>
      set (s2 := x) end.
    match goal with |- context [with_button Nodes.AddElement _ _ _ _ _ ?x] =>
      set (ch2 := x) end.
    assert (Hs2 : built s2 (Node name ms ch2 :: rest) p v m).
    { subst s2 ch2.
      destruct (Find DescriptorAttributes.Label attributes) as [[] |]; try done.
      rewrite Hmemory.
      destruct (Find Nodes.Label_ValueText attributes) as [[] |];
        try (destruct (bool_decide _)); by apply CreateLabel_built. }
    clearbody s2 ch2.
    replace (memory (CreateContainerButton Nodes.AddElement
                       (bool_attribute false (Find Nodes.Disabled attributes)) false
                       (-1) Nodes.AlignRight s2)) with m
      by (symmetry; eapply CreateContainerButton_built; exact Hs2).
    by do 2 apply CreateContainerButton_built.
  - destruct (Find DescriptorAttributes.Label attributes) as [[] |]; try done.
    rewrite Hmemory.
    destruct (Find Nodes.Label_ValueText attributes) as [[] |];
      try (destruct (bool_decide _)); by apply CreateLabel_built.
Qed.

Lemma VisitObjectBegin_built access attributes (s : State) name ms ch rest p v m :
  built s (Node name ms ch :: rest) p v m →
  is_hidden attributes = false →
  match object_children access attributes m (p ++ [Index (length ch)]) with
  | Some rowChildren =>
      ∃ s', VisitObjectBegin access attributes s = Some s'
            ∧ built s' (Node Nodes.Row_Name (row_members attributes) rowChildren
                        :: Node name ms ch :: rest) (p ++ [Index (length ch)]) v m
  | None => VisitObjectBegin access attributes s = None
  end.
Proof.
  intros Hb Hvisible. unfold VisitObjectBegin, object_children. rewrite Hvisible.
  match goal with |- context [ExtractAndCreateLabel attributes ?x] => set (s1 := x) end.
  assert (Hs1 : built s1 (Node Nodes.Row_Name (row_members attributes) []
                          :: Node name ms ch :: rest) (p ++ [Index (length ch)]) v m).
  { subst s1. destruct s; destruct Hb as [Hb Hm]; simpl in *; subst.
    unfold built, row_members. build. unfold CreateNode. by rewrite fold_row_attributes. }
  clearbody s1.
  pose proof (ExtractAndCreateLabel_built attributes s1 _ _ _ _ _ _ _ Hs1) as Hlabel.
  replace (memory (ExtractAndCreateLabel attributes s1)) with m by (by destruct Hlabel).
  destruct (GetType access =? azrtti_typeid_string).
  { by apply VisitValue_built. }
  destruct (GetType access =? azrtti_typeid_bool).
  { by apply VisitValue_built. }
  match goal with |- context [VisitValueWithSerializedPath access attributes ?x] =>
    set (s2 := x) end.
  match goal with
  | |- context [value_children _ _ _ _ _ _ _ ?x] => set (ch2 := x)
  end.
  assert (Hs2 : built s2 (Node Nodes.Row_Name (row_members attributes) ch2
                          :: Node name ms ch :: rest) (p ++ [Index (length ch)]) v m).
  { subst s2 ch2. destruct (negb (_ =? nullptr)); [by apply begin_container_built | done]. }
  clearbody s2 ch2.
  destruct (ed_enableInspectorOverrideManagement && _).
  - unfold VisitValueWithSerializedPath.
    replace (memory s2) with m by (by destruct Hs2).
    by apply VisitValue_built.
  - by apply VisitValue_built.
Qed.

Lemma VisitObjectEnd_built access attributes (s : State) x name ms ch rest p i v m :
  built s (x :: Node name ms ch :: rest) (p ++ [i]) v m →
  is_hidden attributes = false →
  built (VisitObjectEnd access attributes s) (Node name ms (ch ++ [x]) :: rest) p v m.
Proof.
  intros Hb Hvisible. unfold VisitObjectEnd. rewrite Hvisible. by eapply EndRow_built.
Qed.

Lemma VisitPrimitive_built T value attributes (s : State) name ms ch rest p v m :
  built s (Node name ms ch :: rest) p v m →
  match document_children m (visited_primitive T value attributes) p ch with
  | Some ch' =>
      ∃ s', VisitPrimitive T value attributes s = Some s'
            ∧ built s' (Node name ms ch' :: rest) p v m
  | None => VisitPrimitive T value attributes s = None
  end.
Proof.
  intros Hb. unfold VisitPrimitive. simpl. destruct (is_hidden attributes); [by eauto |].
  unfold primitive_row. replace (memory s) with m by (by destruct Hb).
  pose proof (VisitValue_row_built (ValueFromType T (load T m value)) value (sizeof T)
                attributes (VisitPrimitive_onChanged T value) false s _ _ _ _ _ _ _ Hb)
    as Hvalue.
  destruct (value_children _ _ _ _ _ _ _ _); simpl; [| done].
  done.
Qed.

Lemma visit_all_app calls1 calls2 (s : State) :
  visit_all (calls1 ++ calls2) s = visit_all calls1 s ≫= visit_all calls2.
Proof.
  revert s. induction calls1 as [| call calls1 IH]; intros s; simpl; [done |].
  destruct (visit call s); simpl; [apply IH | done].
Qed.

Lemma VisitTree_forest_ind (P : VisitTree → Prop) :
  (∀ T value attributes, P (visited_primitive T value attributes)) →
  (∀ access attributes members,
     Forall P members → P (visited_object access attributes members)) →
  P visited_ignored →
  ∀ tree, P tree.
Proof.
  intros Hprimitive Hobject Hignored.
  fix IH 1. intros [T value attributes | access attributes members |].
  - apply Hprimitive.
  - apply Hobject. induction members as [| member members IHmembers]; constructor.
    + apply IH.
    + apply IHmembers.
  - apply Hignored.
Qed.

Lemma appends_forest m forest :
  Forall (λ tree, appends (calls_of tree) m (document_children m tree)) forest →
  appends (calls_of_forest forest) m (forest_children m forest).
Proof.
  induction 1 as [| tree forest Htree _ IH]; intros s name ms ch rest p v Hb; simpl.
  - eauto.
  - unfold calls_of_forest. simpl. rewrite visit_all_app.
    specialize (Htree s name ms ch rest p v Hb).
    destruct (document_children m tree p ch) as [ch1 |]; simpl; [| by rewrite Htree].
    destruct Htree as (s1 & -> & Hs1). simpl. by apply IH.
Qed.

Lemma appends_tree m tree : appends (calls_of tree) m (document_children m tree).
Proof.
  induction tree as [T value attributes | access attributes members IH |]
    using VisitTree_forest_ind; intros s name ms ch rest p v Hb.
  - pose proof (VisitPrimitive_built T value attributes s _ _ _ _ _ _ _ Hb) as Hvisit.
    simpl in *. destruct (if is_hidden attributes then _ else _); [| by rewrite Hvisit].
    destruct Hvisit as (s' & -> & Hs'). simpl. eauto.
  - apply appends_forest in IH. unfold appends, calls_of_forest in IH. simpl.
    destruct (is_hidden attributes) eqn:Hhidden.
    + unfold VisitObjectBegin. rewrite Hhidden. simpl.
      rewrite visit_all_app. specialize (IH s name ms ch rest p v Hb).
      fold (forest_children m members p ch).
      destruct (forest_children m members p ch); [| by rewrite IH].
      destruct IH as (s' & -> & Hs'). simpl. unfold VisitObjectEnd. rewrite Hhidden. eauto.
    + pose proof (VisitObjectBegin_built access attributes s _ _ _ _ _ _ _ Hb Hhidden)
        as Hbegin.
      destruct (object_children access attributes m _) as [rowChildren |]; simpl;
        [| by rewrite Hbegin].
      destruct Hbegin as (s1 & -> & Hs1). simpl. rewrite visit_all_app.
      specialize (IH s1 _ _ _ _ _ _ Hs1).
      fold (forest_children m members (p ++ [Index (length ch)]) rowChildren).
      destruct (forest_children m members _ rowChildren); simpl; [| by rewrite IH].
      destruct IH as (s2 & -> & Hs2). simpl. eexists. split; [done |].
      by eapply VisitObjectEnd_built.
  - simpl. eauto.
Qed.

Lemma element_buttons_extends attributes m p ch ch' :
  element_buttons attributes m p ch = Some ch' → ∃ buttons, ch' = ch ++ buttons.
Proof.
  unfold element_buttons, with_button. intros Hbuttons.
  repeat case_match; simplify_option_eq;
    try (by exists []; rewrite app_nil_r);
    rewrite <- ?app_assoc; eauto.
Qed.



Lemma value_children_extends value instance valueSize attributes hashValue m p ch ch' :
  value_children value instance valueSize attributes hashValue m p ch = Some ch' →
  ∃ buttons,
    ch' = ch ++ [editor_node value instance valueSize attributes hashValue m
                   (p ++ [Index (length ch)])] ++ buttons.
Proof.
  intros Hvalue. apply element_buttons_extends in Hvalue as [buttons ->].
  exists buttons. by rewrite <- app_assoc.
Qed.




Lemma assoc_find_set_eq {A} (k : string) (x : A) ms : assoc_find k (assoc_set k x ms) = Some x.
Proof.
  induction ms as [| [k' x'] ms IH]; simpl.
  - by rewrite String.eqb_refl.
  - destruct (String.eqb k k') eqn:Heq; simpl; [by rewrite String.eqb_refl |].
    by rewrite Heq.
Qed.

Lemma assoc_find_set_ne {A} (k k' : string) (x : A) ms :
  k ≠ k' → assoc_find k (assoc_set k' x ms) = assoc_find k ms.
Proof.
  intros Hne. apply String.eqb_neq in Hne as Hneq.
  induction ms as [| [k'' x''] ms IH]; simpl.
  - by rewrite Hneq.
  - destruct (String.eqb k' k'') eqn:Heq; simpl.
    + apply String.eqb_eq in Heq as <-. by rewrite Hneq.
    + by rewrite IH.
Qed.

Lemma FindMember_SetMember_ne k k' x n :
  k ≠ k' → FindMember k (SetMember k' x n) = FindMember k n.
Proof. intros Hne. destruct n; try done. by apply assoc_find_set_ne. Qed.






End GenerateContentsDocument.


(** ** SetNodeDisabled *)

Section SetNodeDisabled.
Context `{Engine}.

Lemma queue_from_spec (children : list Value) (index : nat) (parentPath : Path)
  (stack : list (Path * Value)) :
  queue_from children index parentPath stack
  = rev (node_children_from children index parentPath) ++ stack.
Proof.
  revert index stack. induction children as [| child rest IH]; intros index stack; [done |].
  simpl. rewrite IH, rev_app_distr, <- app_assoc. by destruct (IsNode child).
Qed.

Lemma reached_below_spec (children : list Value) (index : nat) (parentPath : Path) :
  reached_below reached_from children index parentPath
  = flat_map (λ x, reached_from x.2 x.1) (rev (node_children_from children index parentPath)).
Proof.
  revert index. induction children as [| child rest IH]; intros index; [done |].
  simpl. rewrite IH, rev_app_distr, flat_map_app. f_equal.
  destruct (IsNode child); simpl; [by rewrite app_nil_r | done].
Qed.

Lemma reached_from_unfold (node : Value) (nodePath : Path) :
  reached_from node nodePath
  = (nodePath, node)
    :: (if IsNode node && attribute_unset Nodes.Disabled node
        then flat_map (λ x, reached_from x.2 x.1) (rev (node_children node nodePath))
        else []).
Proof.
  destruct node as [| | | | | name members children]; try reflexivity.
  simpl. destruct (attribute_unset _ _); [| done].
  unfold node_children. simpl. by rewrite <- reached_below_spec.
Qed.

Lemma stack_count_app (a b : list (Path * Value)) :
  stack_count (a ++ b) = (stack_count a + stack_count b)%nat.
Proof. unfold stack_count. by rewrite map_app, list_sum_app. Qed.

Lemma stack_count_rev (a : list (Path * Value)) : stack_count (rev a) = stack_count a.
Proof.
  induction a as [| x a IH]; [done |]. simpl. rewrite stack_count_app, IH.
  unfold stack_count. simpl. lia.
Qed.

Lemma node_children_from_count (children : list Value) (index : nat) (parentPath : Path) :
  (stack_count (node_children_from children index parentPath)
   ≤ list_sum (List.map node_count children))%nat.
Proof.
  revert index. induction children as [| child rest IH]; intros index; [done |].
  simpl. rewrite stack_count_app. specialize (IH (S index)).
  destruct (IsNode child); unfold stack_count in *; simpl; lia.
Qed.

Lemma node_children_count (node : Value) (nodePath : Path) :
  IsNode node = true →
  (S (stack_count (node_children node nodePath)) ≤ node_count node)%nat.
Proof.
  destruct node as [| | | | | name members children]; try done. intros _.
  unfold node_children. simpl.
  pose proof (node_children_from_count children 0 nodePath). lia.
Qed.

Lemma node_count_pos (v : Value) : (1 ≤ node_count v)%nat.
Proof. destruct v; simpl; lia. Qed.

(** The loop, with fuel for every node on the stack and below, terminates
    with the operations for the nodes reached from the stack. *)
Lemma propagateAttributeChangeToDescendants_spec
  (fuel : nat) (shouldDisable : bool) (stack : list (Path * Value)) (patch : Patch) :
  (stack_count stack ≤ fuel)%nat →
  propagateAttributeChangeToDescendants fuel shouldDisable stack patch
  = Some (ancestor_operations shouldDisable
            (flat_map (λ x, reached_from x.2 x.1) stack) patch).
Proof.
  revert stack patch. induction fuel as [| fuel IH]; intros stack patch Hfuel.
  - destruct stack as [| [nodePath node] rest]; [done |].
    unfold stack_count in Hfuel. simpl in Hfuel. pose proof (node_count_pos node). lia.
  - destruct stack as [| [nodePath node] rest]; [done |].
    simpl propagateAttributeChangeToDescendants.
    change (flat_map (λ x, reached_from x.2 x.1) ((nodePath, node) :: rest))
      with (reached_from node nodePath ++ flat_map (λ x, reached_from x.2 x.1) rest).
    rewrite reached_from_unfold.
    unfold stack_count in Hfuel. simpl in Hfuel. fold (stack_count rest) in Hfuel.
    destruct (attribute_unset Nodes.Disabled node) eqn:Hunset.
    + unfold queueDescendantsForSearch. rewrite queue_from_spec.
      fold (node_children node nodePath).
      destruct (IsNode node) eqn:Hnode.
      * rewrite IH.
        -- simpl. by rewrite flat_map_app.
        -- rewrite stack_count_app, stack_count_rev.
           pose proof (node_children_count node nodePath Hnode). lia.
      * assert (Hnone : node_children node nodePath = []) by by destruct node.
        rewrite Hnone. simpl. rewrite IH; [done |].
        pose proof (node_count_pos node). lia.
    + rewrite andb_false_r. rewrite IH; [done |].
      pose proof (node_count_pos node). lia.
Qed.

Lemma propagate_row_from_spec (shouldDisable : bool) (children : list Value) (index : nat)
  (parentPath : Path) (patch : Patch) (stack : list (Path * Value)) :
  propagate_row_from shouldDisable children index parentPath (patch, stack)
  = (row_operations shouldDisable (node_children_from children index parentPath) patch,
     rev (flat_map (λ x, node_children x.2 x.1)
            (node_children_from children index parentPath)) ++ stack).
Proof.
  revert index patch stack.
  induction children as [| child rest IH]; intros index patch stack; [done |].
  simpl. destruct (IsNode child); simpl.
  - rewrite IH. unfold queueDescendantsForSearch. rewrite queue_from_spec.
    fold (node_children child (parentPath ++ [Index index])).
    by rewrite rev_app_distr, <- app_assoc.
  - apply IH.
Qed.

Lemma node_children_count_any (node : Value) (nodePath : Path) :
  (stack_count (node_children node nodePath) ≤ node_count node)%nat.
Proof.
  destruct (IsNode node) eqn:Hnode.
  - pose proof (node_children_count node nodePath Hnode). lia.
  - destruct node; try done; unfold node_children, stack_count; simpl; lia.
Qed.

Lemma grandchildren_count (l : list (Path * Value)) :
  (stack_count (flat_map (λ x, node_children x.2 x.1) l) ≤ stack_count l)%nat.
Proof.
  induction l as [| [q n] l IH]; [done |]. simpl. rewrite stack_count_app.
  pose proof (node_children_count_any n q).
  unfold stack_count in *. simpl in *. lia.
Qed.

Lemma procedure_operation_for (shouldDisable : bool) (attributeName : string)
  (node : Value) (nodePath : Path) (patch : Patch) :
  procedure shouldDisable attributeName node nodePath patch
  = patch ++ option_list (operation_for shouldDisable attributeName node nodePath).
Proof.
  unfold procedure, operation_for.
  destruct shouldDisable, (attribute_unset attributeName node); simpl;
    by rewrite ?app_nil_r.
Qed.

Lemma operations_elem_of (shouldDisable : bool) (attributeName : string)
  (nodes : list (Path * Value)) (patch : Patch) (op : PatchOperation) :
  op ∈ fold_left (λ patch x, if is_Row x.2 then patch
                             else procedure shouldDisable attributeName x.2 x.1 patch)
         nodes patch
  ↔ op ∈ patch
    ∨ ∃ x, x ∈ nodes ∧ is_Row x.2 = false
           ∧ operation_for shouldDisable attributeName x.2 x.1 = Some op.
Proof.
  revert patch. induction nodes as [| x nodes IH]; intros patch; simpl.
  - split; [by left | intros [Hin | (x & Hx & _)]; [done | by apply elem_of_nil in Hx]].
  - rewrite IH. destruct (is_Row x.2) eqn:Hrow.
    + split; (intros [Hin | (y & Hy & Hnrow & Hop)]; [by left | right]); exists y.
      * split; [by right | done].
      * apply elem_of_cons in Hy as [-> | Hy]; [congruence | done].
    + rewrite procedure_operation_for. split.
      * intros [Hin | (y & Hy & Hnrow & Hop)].
        -- apply elem_of_app in Hin as [Hin | Hin]; [by left | right].
           exists x. split; [by left |]. split; [done |].
           destruct (operation_for _ _ _ _); simpl in Hin; [| by apply elem_of_nil in Hin].
           apply list_elem_of_singleton in Hin. by subst.
        -- right. exists y. split; [by right | done].
      * intros [Hin | (y & Hy & Hnrow & Hop)].
        -- left. apply elem_of_app. by left.
        -- apply elem_of_cons in Hy as [-> | Hy].
           ++ left. apply elem_of_app. right. rewrite Hop. simpl. by left.
           ++ right. by exists y.
Qed.

Lemma operations_empty (shouldDisable : bool) (attributeName : string)
  (nodes : list (Path * Value)) (patch : Patch) :
  fold_left (λ patch x, if is_Row x.2 then patch
                        else procedure shouldDisable attributeName x.2 x.1 patch)
    nodes patch = []
  ↔ patch = []
    ∧ ∀ x, x ∈ nodes → is_Row x.2 = false →
           operation_for shouldDisable attributeName x.2 x.1 = None.
Proof.
  pose proof (operations_elem_of shouldDisable attributeName nodes patch) as Helem.
  split.
  - intros Hempty. rewrite Hempty in Helem. split.
    + destruct patch as [| op patch']; [done |].
      exfalso. apply (not_elem_of_nil op), Helem. left. by left.
    + intros x Hx Hrow.
      destruct (operation_for shouldDisable attributeName x.2 x.1) as [op |] eqn:Hop;
        [| done].
      exfalso. apply (not_elem_of_nil op), Helem. right. by exists x.
  - intros [-> Hnone].
    destruct (fold_left _ nodes []) as [| op rest]; [done |].
    exfalso. destruct (proj1 (Helem op)) as [Hin | (x & Hx & Hrow & Hop)]; [by left | |].
    + by apply elem_of_nil in Hin.
    + rewrite (Hnone x Hx Hrow) in Hop. discriminate Hop.
Qed.

Lemma SetNodeDisabled_patch_spec (shouldDisable : bool) (targetNode : Value)
  (targetNodePath : Path) :
  IsNode targetNode = true →
  SetNodeDisabled_patch shouldDisable targetNode targetNodePath
  = Some (ancestor_operations shouldDisable (reached_descendants targetNode targetNodePath)
            (if is_Row targetNode
             then row_operations shouldDisable (node_children targetNode targetNodePath) []
             else [if shouldDisable
                   then AddOperation (targetNodePath ++ [Key Nodes.Disabled]) (Bool true)
                   else RemoveOperation (targetNodePath ++ [Key Nodes.Disabled])])).
Proof.
  intros Hnode. unfold SetNodeDisabled_patch, reached_descendants.
  pose proof (node_children_count targetNode targetNodePath Hnode) as Hcount.
  destruct (is_Row targetNode).
  - unfold propagateAttributeChangeToRow. rewrite propagate_row_from_spec.
    fold (node_children targetNode targetNodePath). rewrite app_nil_r.
    apply propagateAttributeChangeToDescendants_spec.
    rewrite stack_count_rev.
    pose proof (grandchildren_count (node_children targetNode targetNodePath)). lia.
  - unfold queueDescendantsForSearch. rewrite queue_from_spec.
    fold (node_children targetNode targetNodePath). rewrite app_nil_r.
    apply propagateAttributeChangeToDescendants_spec.
    rewrite stack_count_rev. lia.
Qed.

Lemma HandleMessage_SetNodeDisabled (s : State) (message : AdapterMessage)
  (shouldDisable : bool) (targetNodePath : Path) (patch : Patch) :
  m_message message = SetNodeDisabled shouldDisable targetNodePath →
  IsNode (at_path (GetContents s) targetNodePath) = true →
  SetNodeDisabled_patch shouldDisable (at_path (GetContents s) targetNodePath) targetNodePath
  = Some patch →
  HandleMessage message s
  = Some (if bool_decide (patch = []) then s else emit (NotifyContentsChanged patch) s).
Proof.
  intros Hmessage Hnode Hpatch.
  unfold HandleMessage, handleSetNodeDisabled. rewrite Hmessage, Hnode.
  replace (IsNull (at_path (GetContents s) targetNodePath)) with false
    by (by destruct (at_path (GetContents s) targetNodePath)).
  simpl. rewrite Hpatch. simpl. f_equal.
  destruct patch; [done |].
  rewrite bool_decide_true by (simpl; lia). by rewrite bool_decide_false.
Qed.

Lemma operations_from (shouldDisable : bool) (attributeName : string)
  (nodes : list (Path * Value)) (patch : Patch) :
  fold_left (λ patch x, if is_Row x.2 then patch
                        else procedure shouldDisable attributeName x.2 x.1 patch)
    nodes patch
  = patch ++ fold_left (λ patch x, if is_Row x.2 then patch
                                   else procedure shouldDisable attributeName x.2 x.1 patch)
               nodes [].
Proof.
  revert patch. induction nodes as [| x nodes IH]; intros patch; simpl.
  - by rewrite app_nil_r.
  - destruct (is_Row x.2); [apply IH |].
    rewrite IH, (IH (procedure _ _ _ _ [])), !procedure_operation_for.
    by rewrite app_assoc.
Qed.

(** C6 (amended): handling [SetNodeDisabled(shouldDisable, path)] for a path
    that holds a node always returns and notifies at most once: it builds one
    patch and emits one contents-changed notification carrying it, or none
    when the patch is empty.  The patch is the target's own operations
    followed by the operations on [AncestorDisabled].
    - For a Row target the own operations are those on [Disabled] of its
      node children other than Rows: an add of [true] where the attribute is
      not truthy when disabling, a remove where it is truthy when enabling.
    - For another target the own operation is one add of [Disabled] (when
      disabling) or one remove of it (when enabling) on the target,
      whatever the target's [Disabled] holds: the patch is never empty, and
      the notification is sent every time the message is handled.
    - The operations on [AncestorDisabled] are, by the rule of the Row's
      children, those of the nodes other than Rows among the reached
      descendants: the traversal starts at the target's node children (for a
      Row target at the node children of its node children, whatever their
      [Disabled] is) and goes below a node only when its [Disabled] is not
      truthy.
    The patch is empty exactly when the target is a Row and none of these
    operations is due. *)
Theorem handleSetNodeDisabled_patch (s : State) (message : AdapterMessage)
  (shouldDisable : bool) (targetNodePath : Path) :
  m_message message = SetNodeDisabled shouldDisable targetNodePath →
  IsNode (at_path (GetContents s) targetNodePath) = true →
  let targetNode := at_path (GetContents s) targetNodePath in
  let reached := reached_descendants targetNode targetNodePath in
  let own :=
    if is_Row targetNode
    then row_operations shouldDisable (node_children targetNode targetNodePath) []
    else [if shouldDisable
          then AddOperation (targetNodePath ++ [Key Nodes.Disabled]) (Bool true)
          else RemoveOperation (targetNodePath ++ [Key Nodes.Disabled])] in
  let patch := ancestor_operations shouldDisable reached own in
  SetNodeDisabled_patch shouldDisable targetNode targetNodePath = Some patch
  ∧ HandleMessage message s
    = Some (if bool_decide (patch = []) then s else emit (NotifyContentsChanged patch) s)
  ∧ patch = own ++ ancestor_operations shouldDisable reached []
  ∧ (is_Row targetNode = true →
     ∀ op, op ∈ own
           ↔ ∃ x, x ∈ node_children targetNode targetNodePath ∧ is_Row x.2 = false
                  ∧ operation_for shouldDisable Nodes.Disabled x.2 x.1 = Some op)
  ∧ (is_Row targetNode = false →
     HandleMessage message s = Some (emit (NotifyContentsChanged patch) s)
     ∧ ∀ op, operation_for shouldDisable Nodes.Disabled targetNode targetNodePath = Some op →
             own = [op])
  ∧ (∀ op, op ∈ ancestor_operations shouldDisable reached []
           ↔ ∃ x, x ∈ reached ∧ is_Row x.2 = false
                  ∧ operation_for shouldDisable Nodes.AncestorDisabled x.2 x.1 = Some op)
  ∧ (∀ op, op ∈ patch
           ↔ op ∈ own
             ∨ ∃ x, x ∈ reached ∧ is_Row x.2 = false
                    ∧ operation_for shouldDisable Nodes.AncestorDisabled x.2 x.1 = Some op)
  ∧ (patch = []
     ↔ is_Row targetNode = true
       ∧ (∀ x, x ∈ node_children targetNode targetNodePath → is_Row x.2 = false →
               operation_for shouldDisable Nodes.Disabled x.2 x.1 = None)
       ∧ ∀ x, x ∈ reached → is_Row x.2 = false →
              operation_for shouldDisable Nodes.AncestorDisabled x.2 x.1 = None).
Proof.
  intros Hmessage Hnode targetNode reached own patch.
  pose proof (SetNodeDisabled_patch_spec shouldDisable targetNode targetNodePath Hnode)
    as Hpatch.
  fold reached own patch in Hpatch.
  pose proof (HandleMessage_SetNodeDisabled s message shouldDisable targetNodePath _
                Hmessage Hnode Hpatch) as Hhandle.
  assert (Happ : patch = own ++ ancestor_operations shouldDisable reached []).
  { unfold patch, ancestor_operations. apply operations_from. }
  split; [exact Hpatch |].
  split; [exact Hhandle |].
  split; [exact Happ |].
  split; [| split; [| split; [| split]]].
  - intros Hrow op. unfold own. rewrite Hrow.
    unfold row_operations. rewrite operations_elem_of.
    split; [intros [Hin | Hx]; [by apply elem_of_nil in Hin | done] | by right].
  - intros Hrow. split.
    + rewrite Hhandle. rewrite bool_decide_false; [done |].
      rewrite Happ. unfold own. rewrite Hrow. discriminate.
    + intros op Hop. unfold own. rewrite Hrow.
      unfold operation_for in Hop.
      destruct shouldDisable, (attribute_unset Nodes.Disabled targetNode); congruence.
  - intros op. unfold ancestor_operations. rewrite operations_elem_of.
    split; [intros [Hin | Hx]; [by apply elem_of_nil in Hin | done] | by right].
  - intros op. unfold patch, ancestor_operations. apply operations_elem_of.
  - unfold patch, ancestor_operations. rewrite operations_empty.
    unfold own. destruct (is_Row targetNode).
    + unfold row_operations. rewrite operations_empty.
      split; [intros [[_ Hchildren] Hreached] | intros (_ & Hchildren & Hreached)]; done.
    + split; [intros [Hown _]; discriminate Hown | intros [Hrow _]; discriminate Hrow].
Qed.

End SetNodeDisabled.

Lemma handleSetNodeDisabled_patch_witness :
  HandleMessage (Toy.set_node_disabled false [Index 0; Index 1]) Toy.counter_state
  = Some (emit (NotifyContentsChanged [RemoveOperation [Index 0; Index 1; Key "Disabled"]])
            Toy.counter_state)
  ∧ ∃ s', HandleMessage (Toy.set_node_disabled true [Index 0]) Toy.vector_state = Some s'
        ∧ trace s'
          = [NotifyContentsChanged
               [AddOperation [Index 0; Index 0; Key "Disabled"] (Bool true);
                AddOperation [Index 0; Index 1; Key "Disabled"] (Bool true);
                AddOperation [Index 0; Index 2; Key "Disabled"] (Bool true);
                AddOperation [Index 0; Index 3; Key "Disabled"] (Bool true);
                AddOperation [Index 0; Index 4; Key "Disabled"] (Bool true);
                AddOperation [Index 0; Index 6; Index 3; Key "AncestorDisabled"] (Bool true);
                AddOperation [Index 0; Index 6; Index 2; Key "AncestorDisabled"] (Bool true);
                AddOperation [Index 0; Index 6; Index 1; Key "AncestorDisabled"] (Bool true);
                AddOperation [Index 0; Index 6; Index 0; Key "AncestorDisabled"] (Bool true);
                AddOperation [Index 0; Index 5; Index 3; Key "AncestorDisabled"] (Bool true);
                AddOperation [Index 0; Index 5; Index 2; Key "AncestorDisabled"] (Bool true);
                AddOperation [Index 0; Index 5; Index 1; Key "AncestorDisabled"] (Bool true);
                AddOperation [Index 0; Index 5; Index 0; Key "AncestorDisabled"] (Bool true)]].
Proof.
  split.
  { destruct (handleSetNodeDisabled_patch Toy.counter_state
                (Toy.set_node_disabled false [Index 0; Index 1]) false [Index 0; Index 1]
                eq_refl ltac:(vm_compute; reflexivity))
      as (_ & _ & _ & _ & Hother & _).
    destruct (Hother ltac:(vm_compute; reflexivity)) as [Hhandle _].
    rewrite Hhandle.
    apply (f_equal (λ patch, Some (emit (NotifyContentsChanged patch) Toy.counter_state))).
    vm_compute. reflexivity. }
  destruct (handleSetNodeDisabled_patch Toy.vector_state
              (Toy.set_node_disabled true [Index 0]) true [Index 0]
              eq_refl ltac:(vm_compute; reflexivity))
    as (Hpatch & Hhandle & _).
  match type of Hpatch with _ = Some ?p => remember p as patch eqn:E; clear E end.
  replace (SetNodeDisabled_patch true (at_path (GetContents Toy.vector_state) [Index 0])
             [Index 0])
    with (Some [AddOperation [Index 0; Index 0; Key "Disabled"] (Bool true);
                AddOperation [Index 0; Index 1; Key "Disabled"] (Bool true);
                AddOperation [Index 0; Index 2; Key "Disabled"] (Bool true);
                AddOperation [Index 0; Index 3; Key "Disabled"] (Bool true);
                AddOperation [Index 0; Index 4; Key "Disabled"] (Bool true);
                AddOperation [Index 0; Index 6; Index 3; Key "AncestorDisabled"] (Bool true);
                AddOperation [Index 0; Index 6; Index 2; Key "AncestorDisabled"] (Bool true);
                AddOperation [Index 0; Index 6; Index 1; Key "AncestorDisabled"] (Bool true);
                AddOperation [Index 0; Index 6; Index 0; Key "AncestorDisabled"] (Bool true);
                AddOperation [Index 0; Index 5; Index 3; Key "AncestorDisabled"] (Bool true);
                AddOperation [Index 0; Index 5; Index 2; Key "AncestorDisabled"] (Bool true);
                AddOperation [Index 0; Index 5; Index 1; Key "AncestorDisabled"] (Bool true);
                AddOperation [Index 0; Index 5; Index 0; Key "AncestorDisabled"] (Bool true)])
    in Hpatch by (vm_compute; reflexivity).
  injection Hpatch as <-.
  rewrite bool_decide_false in Hhandle by discriminate.
  eexists. split; [exact Hhandle |]. reflexivity.
Defined.

Lemma SetNodeDisabled_rows_skipped_and_target_rewritten :
  (∃ s' patch,
     HandleMessage (Toy.set_node_disabled true []) Toy.vector_state = Some s'
     ∧ trace s' = [NotifyContentsChanged patch]
     ∧ attribute_unset Nodes.Disabled (GetContents Toy.vector_state) = true
     ∧ IsNode (at_path (GetContents Toy.vector_state) [Index 0]) = true
     ∧ attribute_unset Nodes.AncestorDisabled (at_path (GetContents Toy.vector_state) [Index 0])
       = true
     ∧ AddOperation [Index 0; Key "AncestorDisabled"] (Bool true) ∉ patch)
  ∧ (let s := Toy.cached (Node "Adapter" []
                            [Node "PropertyEditor" [("Disabled", Bool true)] []])
                Toy.counter_state in
     ∃ s', HandleMessage (Toy.set_node_disabled true [Index 0]) s = Some s'
           ∧ trace s'
             = [NotifyContentsChanged [AddOperation [Index 0; Key "Disabled"] (Bool true)]])
  ∧ FindMember Nodes.Disabled (at_path (GetContents Toy.counter_state) [Index 0; Index 1]) = None
  ∧ ∃ s1 s2,
      HandleMessage (Toy.set_node_disabled false [Index 0; Index 1]) Toy.counter_state = Some s1
      ∧ HandleMessage (Toy.set_node_disabled false [Index 0; Index 1]) s1 = Some s2
      ∧ trace s2
        = [NotifyContentsChanged [RemoveOperation [Index 0; Index 1; Key "Disabled"]];
           NotifyContentsChanged [RemoveOperation [Index 0; Index 1; Key "Disabled"]]].
Proof.
  split; [| split; [| split]].
  - eexists _, _; split;
      [apply (HandleMessage_SetNodeDisabled (H:=Toy.engine) Toy.vector_state _ true []);
       [reflexivity | vm_compute; reflexivity | vm_compute; reflexivity] |].
    rewrite bool_decide_false by discriminate.
    split; [reflexivity |].
    split; [vm_compute; reflexivity |].
    split; [vm_compute; reflexivity |].
    split; [vm_compute; reflexivity |].
    rewrite !elem_of_cons, elem_of_nil; intuition discriminate.
  - intros s. eexists. split.
    + apply (HandleMessage_SetNodeDisabled (H:=Toy.engine) s _ true [Index 0]);
        [reflexivity | vm_compute; reflexivity | vm_compute; reflexivity].
    + rewrite bool_decide_false by discriminate. reflexivity.
  - vm_compute. reflexivity.
  - eexists _, _. split; [| split].
    + apply (HandleMessage_SetNodeDisabled (H:=Toy.engine) Toy.counter_state _ false [Index 0; Index 1]);
        [reflexivity | vm_compute; reflexivity | vm_compute; reflexivity].
    + rewrite bool_decide_false by discriminate.
      apply (HandleMessage_SetNodeDisabled (H:=Toy.engine) _ _ false [Index 0; Index 1]);
        [reflexivity | vm_compute; reflexivity | vm_compute; reflexivity].
    + rewrite bool_decide_false by discriminate. reflexivity.
Qed.

(** ** What every message leaves alone *)

Section MessageHandling.
Context `{Engine}.

Lemma handled_refl (s : State) : handled [] s s.
Proof. do 5 (split; [done |]). by rewrite app_nil_r. Qed.

Lemma handled_emit events e (s s1 : State) :
  handled events s s1 → handled (events ++ [e]) s (emit e s1).
Proof.
  intros (Hi & Ht & Hb & Hc & Hk & Htrace).
  destruct s1; simpl in *. do 5 (split; [done |]).
  rewrite Htrace. symmetry. apply app_assoc.
Qed.

Lemma handled_with_memory events m (s s1 : State) :
  handled events s s1 → handled events s (with_memory m s1).
Proof. intros Hs. by destruct s1. Qed.

Lemma handled_assign events k r (s s1 : State) :
  handled events s s1 → handled events s (assign_reservedElementInstance k r s1).
Proof.
  intros (Hi & Ht & Hb & Hc & Hk & Hevents).
  destruct s1 as [? ? ? ? containers ? ? ?]; simpl in *.
  do 4 (split; [done |]). split; [| done].
  intros p. rewrite <- Hk. unfold assign_reservedElementInstance. simpl.
  destruct (decide (k = p)) as [-> | Hne].
  - rewrite lookup_alter_eq. destruct (containers !! p) as [[[bc |] e] |]; done.
  - by rewrite lookup_alter_ne.
Qed.

Lemma handled_notify events container path (s s1 : State) :
  handled events s s1 →
  handled ((events ++ [ChangeNotify_InvokeOnDomNode (GetContainerNode container s1 path)])
           ++ [NotifyResetDocument SoftReset])
    s (notify_container_changed container path s1).
Proof. intros Hs. unfold notify_container_changed. by do 2 apply handled_emit. Qed.

Lemma OnAddElement_handled entryPath this (s : State) path :
  ∃ events, handled events s (OnAddElement entryPath this s path) ∧ reset_last events.
Proof.
  unfold OnAddElement.
  destruct (IsFixedCapacity _ && _);
    [exists []; split; [apply handled_refl | split; [simpl; lia | constructor]] |].
  destruct (ReserveElement _ _ _) as [reserved mem].
  repeat case_match;
    try (eexists; split;
         [by apply handled_emit, handled_assign, handled_with_memory, handled_refl
         | split; [simpl; lia | constructor]]);
    (eexists; split;
     [by apply handled_notify, handled_assign, handled_with_memory, handled_assign,
              handled_with_memory, handled_refl
     | split; [simpl; lia | by repeat constructor]]).
Qed.

(** X1: whatever the message, a handler that returns sends at most two
    notifications, appended to those sent before, and a document reset only
    as the last of them.  When it sends no reset, it leaves the adapter's
    instance and type, the builder and the table of callbacks as they were,
    and every entry of the container table stays bound to the same
    container, instance and element (only reserved-element pointers move).
    (After a reset the base class generates the contents, and with them the
    builder and both tables, anew.) *)
Theorem HandleMessage_leaves (message : AdapterMessage) (s s' : State) :
  HandleMessage message s = Some s' →
  ∃ events,
    trace s' = trace s ++ events
    ∧ (length events ≤ 2)%nat
    ∧ Forall (λ e, is_reset e = false) (removelast events)
    ∧ (Forall (λ e, is_reset e = false) events →
       m_instance s' = m_instance s
       ∧ m_typeId s' = m_typeId s
       ∧ m_builder s' = m_builder s
       ∧ m_onChangedCallbacks s' = m_onChangedCallbacks s
       ∧ (∀ p, bound_to <$> (m_containers s' !! p) = bound_to <$> (m_containers s !! p))).
Proof.
  intros Hhandle.
  cut (∃ events, handled events s s' ∧ reset_last events).
  { intros (events & (Hi & Ht & Hb & Hc & Hk & Htrace) & Hlen & Hlast).
    exists events. by repeat split. }
  assert (Hnone : ∃ events, handled events s s ∧ reset_last events).
  { exists []. split; [apply handled_refl | split; [simpl; lia | constructor]]. }
  unfold HandleMessage in Hhandle.
  destruct (m_message message) as
    [valueFromEditor changeType | | level | shouldDisable targetNodePath
     | keyInstance containerPath | containerPath | name].
  - injection Hhandle as <-. unfold handlePropertyEditorChanged.
    destruct (PrefixTree.ValueAtPath_ExactPath _ _) as [changeHandler |]; [| exact Hnone].
    destruct (invoke _ _ _) as [newValue mem].
    unfold NotifyPropertyChanged, UpdateDomContents.
    eexists. split; [by apply handled_emit, handled_emit, handled_with_memory, handled_refl |].
    split; [simpl; lia | by repeat constructor].
  - unfold handleContainerOperation in Hhandle.
    repeat case_match; simplify_option_eq;
      try exact Hnone;
      try apply OnAddElement_handled;
      (eexists; split;
       [by apply handled_notify, handled_with_memory, handled_refl
       | split; [simpl; lia | by repeat constructor]]).
  - injection Hhandle as <-.
    eexists. split; [by apply handled_emit, handled_refl |].
    split; [simpl; lia | constructor].
  - unfold handleSetNodeDisabled in Hhandle.
    repeat case_match; simplify_option_eq; try exact Hnone.
    eexists. split; [by apply handled_emit, handled_refl |].
    split; [simpl; lia | constructor].
  - unfold addKeyToContainer in Hhandle.
    destruct (PrefixTree.ValueAtPath_ParentsOnly _ _) as [[entryPath containerEntry] |];
      simpl in Hhandle; [| done].
    destruct (ContainerEntry.m_container containerEntry); injection Hhandle as <-;
      [| exact Hnone].
    unfold OnAddElementToAssociativeContainer.
    eexists. split.
    + apply handled_notify, handled_assign, handled_with_memory.
      case_match; [apply handled_with_memory |]; apply handled_refl.
    + split; [simpl; lia | by repeat constructor].
  - unfold rejectKeyToContainer in Hhandle.
    destruct (PrefixTree.ValueAtPath_ParentsOnly _ _) as [[entryPath containerEntry] |];
      simpl in Hhandle; [| done].
    destruct (ContainerEntry.m_container containerEntry); injection Hhandle as <-;
      [| exact Hnone].
    unfold RejectAssociativeContainerKey.
    eexists. split; [by apply handled_assign, handled_with_memory, handled_refl |].
    split; [simpl; lia | constructor].
  - injection Hhandle as <-. exact Hnone.
Qed.

(** X2: a [SetNodeDisabled] message is always handled: the handler returns
    for every target path, and it changes neither memory nor the container
    table.  When the target path does not hold a node it does nothing at
    all. *)
Theorem SetNodeDisabled_returns (s : State) (message : AdapterMessage)
  (shouldDisable : bool) (targetNodePath : Path) :
  m_message message = SetNodeDisabled shouldDisable targetNodePath →
  (∃ s', HandleMessage message s = Some s'
         ∧ memory s' = memory s
         ∧ m_containers s' = m_containers s)
  ∧ (IsNode (at_path (GetContents s) targetNodePath) = false →
     HandleMessage message s = Some s).
Proof.
  intros Hmessage.
  destruct (IsNode (at_path (GetContents s) targetNodePath)) eqn:Hnode.
  - split; [| done].
    pose proof (SetNodeDisabled_patch_spec shouldDisable _ targetNodePath Hnode) as Hpatch.
    rewrite (HandleMessage_SetNodeDisabled s message shouldDisable targetNodePath _
               Hmessage Hnode Hpatch).
    eexists. split; [done |]. by destruct (bool_decide _), s.
  - assert (Hhandle : HandleMessage message s = Some s).
    { unfold HandleMessage, handleSetNodeDisabled. by rewrite Hmessage, Hnode. }
    split; [| done]. by exists s.
Qed.

(** X3: the two replies to a key query look the container entry up without
    a guard.  When no entry is found at or above the container path the
    handler dereferences a null entry (it does not return), whereas the
    activation of a button at the same path is ignored.  When an entry is
    found that has no bound container, the reply is ignored. *)
Theorem key_replies_do_not_guard_the_entry (s : State) (message : AdapterMessage)
  (keyInstance : Address) (containerPath : Path) :
  m_message message = AddContainerKey keyInstance containerPath
  ∨ m_message message = RejectContainerKey containerPath →
  (PrefixTree.ValueAtPath_ParentsOnly (m_containers s) containerPath = None →
   HandleMessage message s = None
   ∧ HandleMessage {| m_messageOrigin := containerPath; m_message := OnActivate |} s = Some s)
  ∧ (∀ entryPath containerEntry,
       PrefixTree.ValueAtPath_ParentsOnly (m_containers s) containerPath
       = Some (entryPath, containerEntry) →
       ContainerEntry.m_container containerEntry = None →
       HandleMessage message s = Some s).
Proof.
  intros Hmessage. split.
  - intros Hentry. split.
    + unfold HandleMessage, addKeyToContainer, rejectKeyToContainer.
      destruct Hmessage as [-> | ->]; by rewrite Hentry.
    + unfold HandleMessage, handleContainerOperation. simpl. rewrite Hentry.
      by destruct (bool_decide _).
  - intros entryPath containerEntry Hentry Hcontainer.
    unfold HandleMessage, addKeyToContainer, rejectKeyToContainer.
    destruct Hmessage as [-> | ->]; rewrite Hentry; simpl; by rewrite Hcontainer.
Qed.

Lemma entries_upto_elem {T : Type} (t : gmap Path T) (path : Path) (n : nat) (x : Path * T) :
  x ∈ PrefixTree.entries_upto t path n → x.1 `prefix_of` path ∧ t !! x.1 = Some x.2.
Proof.
  induction n as [| n IH]; simpl.
  - destruct (t !! take 0 path) eqn:Hlookup; [| by intros ?%elem_of_nil].
    intros ->%list_elem_of_singleton. simpl. split; [by exists path | done].
  - intros [Hhere | Hrest]%elem_of_app; [| by apply IH].
    destruct (t !! take (S n) path) eqn:Hlookup; [| by apply elem_of_nil in Hhere].
    apply list_elem_of_singleton in Hhere as ->. simpl. split; [| done].
    exists (drop (S n) path). by rewrite take_drop.
Qed.

(** X4: [GetContainerNode] answers either the null value or a child of the
    document node at a table entry at or above the given path whose bound
    container is the one asked for; that child is a PropertyEditor with a
    serialized path.  When no entry at or above the path is bound to the
    container, the answer is null. *)
Theorem GetContainerNode_result (container : Address) (s : State) (path : Path) :
  let containerNode := GetContainerNode container s path in
  (containerNode = Null
   ∨ ∃ nodePath containerEntry this,
       nodePath `prefix_of` path
       ∧ m_containers s !! nodePath = Some containerEntry
       ∧ ContainerEntry.m_container containerEntry = Some this
       ∧ BoundContainer.m_container this = container
       ∧ containerNode ∈ Children (at_path (GetContents s) nodePath)
       ∧ GetNodeName containerNode = Nodes.PropertyEditor_Name
       ∧ is_Some (FindMember DescriptorAttributes.SerializedPath containerNode))
  ∧ ((∀ nodePath containerEntry this,
        nodePath `prefix_of` path →
        m_containers s !! nodePath = Some containerEntry →
        ContainerEntry.m_container containerEntry = Some this →
        BoundContainer.m_container this ≠ container) →
     containerNode = Null).
Proof.
  intros containerNode. subst containerNode. unfold GetContainerNode.
  destruct (find (findContainerProcedure container) _) as [[nodePath containerEntry] |]
    eqn:Hfind.
  - apply find_some in Hfind as [Hin Hbound].
    apply list_elem_of_In, entries_upto_elem in Hin as [Hprefix Hentry]. simpl in *.
    unfold findContainerProcedure in Hbound. simpl in Hbound.
    destruct (ContainerEntry.m_container containerEntry) as [this |] eqn:Hthis; [| done].
    apply Z.eqb_eq in Hbound. split.
    + destruct (IsNode (at_path (GetContents s) nodePath)); [| by left].
      destruct (find is_container_editor _) as [it |] eqn:Heditor; [| by left].
      apply find_some in Heditor as [Hchild Hit]. apply list_elem_of_In in Hchild.
      unfold is_container_editor in Hit.
      apply andb_true_iff in Hit as [[Hnode Hname]%andb_true_iff Hserialized].
      apply String.eqb_eq in Hname. apply bool_decide_eq_true in Hserialized.
      right. by exists nodePath, containerEntry, this.
    + intros Hnone. by destruct (Hnone nodePath containerEntry this).
  - split; [by left | done].
Qed.

End MessageHandling.

Lemma HandleMessage_leaves_witness :
  let s' := emit (NotifyContentsChanged [RemoveOperation [Index 0; Index 1; Key "Disabled"]])
              Toy.counter_state in
  HandleMessage (Toy.set_node_disabled false [Index 0; Index 1]) Toy.counter_state = Some s'
  ∧ m_builder s' = m_builder Toy.counter_state
  ∧ m_onChangedCallbacks s' = m_onChangedCallbacks Toy.counter_state
  ∧ ∀ p, bound_to <$> (m_containers s' !! p)
         = bound_to <$> (m_containers Toy.counter_state !! p).
Proof.
  intros s'.
  assert (Hhandle : HandleMessage (Toy.set_node_disabled false [Index 0; Index 1])
                      Toy.counter_state = Some s').
  { rewrite (HandleMessage_SetNodeDisabled (H := Toy.engine) Toy.counter_state _ false
               [Index 0; Index 1] [RemoveOperation [Index 0; Index 1; Key "Disabled"]]);
      [| reflexivity | vm_compute; reflexivity | vm_compute; reflexivity].
    by rewrite bool_decide_false. }
  destruct (HandleMessage_leaves _ _ _ Hhandle) as (events & Htrace & _ & _ & Hframe).
  assert (events = [NotifyContentsChanged [RemoveOperation [Index 0; Index 1; Key "Disabled"]]])
    as ->.
  { symmetry. exact (app_inv_head _ _ _ Htrace). }
  destruct (Hframe ltac:(by repeat constructor)) as (_ & _ & Hbuilder & Hcallbacks & Hbound).
  split; [exact Hhandle |]. split; [exact Hbuilder |]. split; [exact Hcallbacks | exact Hbound].
Defined.

Lemma SetNodeDisabled_returns_witness :
  (∃ s', HandleMessage (Toy.set_node_disabled true [Index 7]) Toy.counter_state = Some s'
         ∧ memory s' = memory Toy.counter_state
         ∧ m_containers s' = m_containers Toy.counter_state)
  ∧ (IsNode (at_path (GetContents Toy.counter_state) [Index 7]) = false →
     HandleMessage (Toy.set_node_disabled true [Index 7]) Toy.counter_state
     = Some Toy.counter_state).
Proof.
  exact (SetNodeDisabled_returns Toy.counter_state (Toy.set_node_disabled true [Index 7])
           true [Index 7] eq_refl).
Defined.

Lemma key_replies_do_not_guard_the_entry_witness :
  HandleMessage {| m_messageOrigin := []; m_message := AddContainerKey 0 [Index 5] |}
    Toy.counter_state = None
  ∧ HandleMessage (Toy.activate [Index 5]) Toy.counter_state = Some Toy.counter_state.
Proof.
  apply (key_replies_do_not_guard_the_entry Toy.counter_state
           {| m_messageOrigin := []; m_message := AddContainerKey 0 [Index 5] |}
           0 [Index 5] (or_introl eq_refl)).
  vm_compute. reflexivity.
Defined.

(** ** The scope of a SetNodeDisabled patch *)

Section SetNodeDisabledScope.
Context `{Engine}.

Lemma node_children_from_elem children index parentPath x :
  x ∈ node_children_from children index parentPath →
  ∃ i, x.1 = parentPath ++ [Index (index + i)] ∧ children !! i = Some x.2
       ∧ IsNode x.2 = true.
Proof.
  revert index. induction children as [| child rest IH]; intros index Hx; simpl in Hx.
  - by apply elem_of_nil in Hx.
  - apply elem_of_app in Hx as [Hx | Hx].
    + destruct (IsNode child) eqn:Hnode; [| by apply elem_of_nil in Hx].
      apply list_elem_of_singleton in Hx as ->. exists 0%nat.
      by rewrite Nat.add_0_r.
    + destruct (IH _ Hx) as (i & Hpath & Hchild & Hnode).
      exists (S i). by rewrite Nat.add_succ_r.
Qed.

Lemma node_children_elem node nodePath x :
  x ∈ node_children node nodePath →
  ∃ i, x.1 = nodePath ++ [Index i] ∧ at_path node [Index i] = x.2 ∧ IsNode x.2 = true.
Proof.
  intros Hx. apply node_children_from_elem in Hx as (i & Hpath & Hchild & Hnode).
  exists i. simpl. by rewrite Hchild.
Qed.

Lemma stack_count_elem (stack : list (Path * Value)) x :
  x ∈ stack → (node_count x.2 ≤ stack_count stack)%nat.
Proof.
  unfold stack_count. induction 1 as [| ? ? ? _ IH]; simpl; lia.
Qed.

Lemma at_path_app v p q : at_path v (p ++ q) = at_path (at_path v p) q.
Proof. apply fold_left_app. Qed.

Lemma reached_from_elem node nodePath x :
  x ∈ reached_from node nodePath →
  ∃ below, x.1 = nodePath ++ below ∧ through_children below ∧ at_path node below = x.2
           ∧ (IsNode node = true → IsNode x.2 = true).
Proof.
  remember (node_count node) as n eqn:Hn.
  assert (Hle : (node_count node ≤ n)%nat) by lia. clear Hn.
  revert node nodePath x Hle.
  induction n as [| n IH]; intros node nodePath x Hle Hx.
  { pose proof (node_count_pos node). lia. }
  rewrite reached_from_unfold in Hx. apply elem_of_cons in Hx as [-> | Hx].
  - exists []. simpl. rewrite app_nil_r. by repeat split; [constructor |].
  - destruct (IsNode node) eqn:Hnode; [| by apply elem_of_nil in Hx].
    destruct (attribute_unset Nodes.Disabled node); [| by apply elem_of_nil in Hx].
    simpl in Hx. apply list_elem_of_In, in_flat_map in Hx as (child & Hchild & Hx).
    apply list_elem_of_In in Hx. apply in_rev, list_elem_of_In in Hchild.
    pose proof (stack_count_elem _ _ Hchild) as Hcount.
    pose proof (node_children_count node nodePath Hnode) as Hchildren.
    destruct (IH child.2 child.1 x ltac:(lia) Hx) as (below & Hpath & Hbelow & Hat & Hisnode).
    apply node_children_elem in Hchild as (i & Hchildpath & Hchildat & Hchildnode).
    exists (Index i :: below). split; [| split; [| split]].
    + rewrite Hpath, Hchildpath. by rewrite <- app_assoc.
    + constructor; [by eexists | done].
    + change (Index i :: below) with ([Index i] ++ below).
      by rewrite at_path_app, Hchildat.
    + intros _. by apply Hisnode.
Qed.

Lemma operation_for_Some shouldDisable attributeName node nodePath op :
  operation_for shouldDisable attributeName node nodePath = Some op →
  op = (if shouldDisable
        then AddOperation (nodePath ++ [Key attributeName]) (Bool true)
        else RemoveOperation (nodePath ++ [Key attributeName]))
  ∧ attribute_unset attributeName node = shouldDisable.
Proof.
  unfold operation_for.
  destruct shouldDisable, (attribute_unset attributeName node); by intros [= <-].
Qed.

(** X5: the patch a [SetNodeDisabled] message sends stays inside the
    subtree of its target.  The handler either leaves the adapter as it was
    or sends one patch, and every operation of that patch is an add of [true]
    (when disabling) or a remove (when enabling) of [Disabled] or
    [AncestorDisabled] on a node at or below the target that is reached
    through children only and is not a Row.  [Disabled] is written on the
    target itself (on the children of a Row target), [AncestorDisabled] only
    strictly below (at least two levels below a Row target).  But for the
    operation on the target itself, an operation is sent only where it changes
    whether the attribute is set. *)
Theorem SetNodeDisabled_patch_scope (s s' : State) (message : AdapterMessage)
  (shouldDisable : bool) (targetNodePath : Path) :
  m_message message = SetNodeDisabled shouldDisable targetNodePath →
  HandleMessage message s = Some s' →
  s' = s
  ∨ ∃ patch,
      s' = emit (NotifyContentsChanged patch) s
      ∧ ∀ op, op ∈ patch →
          ∃ below attributeName,
            let targetNode := at_path (GetContents s) targetNodePath in
            let node := at_path (GetContents s) (targetNodePath ++ below) in
            op = (if shouldDisable
                  then AddOperation (targetNodePath ++ below ++ [Key attributeName])
                         (Bool true)
                  else RemoveOperation (targetNodePath ++ below ++ [Key attributeName]))
            ∧ through_children below
            ∧ IsNode node = true
            ∧ is_Row node = false
            ∧ (below ≠ [] → attribute_unset attributeName node = shouldDisable)
            ∧ (attributeName = Nodes.Disabled
               ∧ length below = (if is_Row targetNode then 1 else 0)%nat
               ∨ attributeName = Nodes.AncestorDisabled
                 ∧ ((if is_Row targetNode then 2 else 1) ≤ length below)%nat).
Proof.
  intros Hmessage Hhandle.
  unfold HandleMessage in Hhandle. rewrite Hmessage in Hhandle.
  unfold handleSetNodeDisabled in Hhandle.
  set (targetNode := at_path (GetContents s) targetNodePath) in *.
  destruct (IsNode targetNode) eqn:Hnode; simpl in Hhandle;
    [| left; by injection Hhandle].
  replace (IsNull targetNode) with false in Hhandle by (by destruct targetNode).
  rewrite (SetNodeDisabled_patch_spec _ _ _ Hnode) in Hhandle. simpl in Hhandle.
  injection Hhandle as <-.
  destruct (bool_decide _); [| by left].
  right. eexists. split; [done |].
  intros op Hop. cbv zeta. fold targetNode.
  unfold ancestor_operations in Hop. apply operations_elem_of in Hop as [Hown | Hreached].
  - destruct (is_Row targetNode) eqn:Hrow.
    + unfold row_operations in Hown.
      apply operations_elem_of in Hown as [Hown | (x & Hx & Hxrow & Hxop)];
        [by apply elem_of_nil in Hown |].
      apply node_children_elem in Hx as (i & Hpath & Hat & Hxnode).
      apply operation_for_Some in Hxop as [-> Hunset].
      exists [Index i], Nodes.Disabled. rewrite at_path_app. fold targetNode.
      rewrite Hat, Hpath, <- !app_assoc.
      repeat split; try done; [by repeat constructor; eexists | by left].
    + apply list_elem_of_singleton in Hown as ->.
      exists [], Nodes.Disabled. rewrite app_nil_r. fold targetNode. simpl.
      rewrite Hrow. repeat split; try done; [constructor | by left].
  - destruct Hreached as (x & Hx & Hxrow & Hxop).
    apply operation_for_Some in Hxop as [-> Hunset].
    unfold reached_descendants in Hx.
    apply list_elem_of_In, in_flat_map in Hx as (start & Hstart & Hx).
    apply list_elem_of_In in Hx. apply in_rev in Hstart.
    apply reached_from_elem in Hx as (below & Hpath & Hbelow & Hat & Hisnode).
    assert (Hfrom : ∃ above, start.1 = targetNodePath ++ above ∧ through_children above
                             ∧ at_path targetNode above = start.2
                             ∧ IsNode start.2 = true
                             ∧ (if is_Row targetNode then 2 else 1)%nat = length above).
    { destruct (is_Row targetNode).
      - apply in_flat_map in Hstart as (child & Hchild & Hstart).
        apply list_elem_of_In, node_children_elem in Hchild as (i & Hipath & Hiat & _).
        apply list_elem_of_In, node_children_elem in Hstart as (j & Hjpath & Hjat & Hjnode).
        exists [Index i; Index j]. rewrite Hjpath, Hipath, <- app_assoc.
        repeat split; try done; [by repeat constructor; eexists |].
        change [Index i; Index j] with ([Index i] ++ [Index j]).
        by rewrite at_path_app, Hiat.
      - apply list_elem_of_In, node_children_elem in Hstart as (i & Hipath & Hiat & Hinode).
        exists [Index i]. repeat split; try done. by repeat constructor; eexists. }
    destruct Hfrom as (above & Habove & Hthrough & Hstartat & Hstartnode & Hlength).
    exists (above ++ below), Nodes.AncestorDisabled.
    rewrite !at_path_app. fold targetNode. rewrite Hstartat, Hat, Hpath, Habove.
    rewrite <- !app_assoc.
    repeat split; try done; [by apply Forall_app | by apply Hisnode |].
    right. split; [done |]. rewrite length_app. destruct (is_Row targetNode); lia.
Qed.

End SetNodeDisabledScope.

Lemma SetNodeDisabled_patch_scope_witness :
  let patch := [AddOperation [Index 0; Index 1; Key "Disabled"] (Bool true)] in
  HandleMessage (Toy.set_node_disabled true [Index 0; Index 1]) Toy.counter_state
  = Some (emit (NotifyContentsChanged patch) Toy.counter_state)
  ∧ (emit (NotifyContentsChanged patch) Toy.counter_state = Toy.counter_state
     ∨ ∃ patch',
         emit (NotifyContentsChanged patch) Toy.counter_state
         = emit (NotifyContentsChanged patch') Toy.counter_state
         ∧ ∀ op, op ∈ patch' →
             ∃ below attributeName,
               op = AddOperation ([Index 0; Index 1] ++ below ++ [Key attributeName])
                      (Bool true)
               ∧ through_children below).
Proof.
  intros patch.
  assert (Hhandle : HandleMessage (Toy.set_node_disabled true [Index 0; Index 1])
                      Toy.counter_state
                    = Some (emit (NotifyContentsChanged patch) Toy.counter_state))
    by reflexivity.
  split; [exact Hhandle |].
  destruct (SetNodeDisabled_patch_scope Toy.counter_state _
              (Toy.set_node_disabled true [Index 0; Index 1]) true [Index 0; Index 1]
              eq_refl Hhandle) as [Hsame | (patch' & Hpatch & Hscope)]; [by left |].
  right. exists patch'. split; [exact Hpatch |].
  intros op Hop. destruct (Hscope op Hop) as (below & attributeName & Hshape & Hbelow & _).
  by exists below, attributeName.
Defined.

(** ** Container rows: what is registered and which buttons appear *)

Section Generation.
Context `{Engine}.

Lemma CreateContainerButton_m_containers action disabled ancestorDisabled containerIndex
  alignment (s : State) :
  m_containers (CreateContainerButton action disabled ancestorDisabled containerIndex alignment s)
  = m_containers s.
Proof.
  unfold CreateContainerButton.
  destruct ancestorDisabled, disabled, (negb (containerIndex =? -1)); reflexivity.
Qed.

(** The element [CheckContainerElement] registers. *)
Lemma CheckContainerElement_table instance attributes (s s' : State) :
  CheckContainerElement instance attributes s = Some s' →
  let currentPath := AdapterBuilder.GetCurrentPath (m_builder s) in
  let parentContainer :=
    container_of_attribute (Find DescriptorAttributes.ParentContainer attributes) in
  match Find DescriptorAttributes.ParentContainerInstance attributes with
  | Some parentContainerInstanceValue =>
      if negb (parentContainer =? nullptr) && negb (IsNull parentContainerInstanceValue)
      then
        m_containers s'
        = <[currentPath :=
              {| ContainerEntry.m_container :=
                   m_containers s !! currentPath ≫= ContainerEntry.m_container;
                 ContainerEntry.m_element :=
                   Some {| ContainerElement.m_container := parentContainer;
                           ContainerElement.m_containerInstance :=
                             default nullptr (valid_address_of parentContainerInstanceValue);
                           ContainerElement.m_elementInstance :=
                             match Find DescriptorAttributes.ContainerElementOverride attributes
                             with
                             | Some containerElementOverrideValue =>
                                 default instance
                                   (valid_address_of containerElementOverrideValue)
                             | None => instance
                             end |} |}]> (m_containers s)
      else s' = s
  | None => s' = s
  end.
Proof.
  intros Hcheck currentPath parentContainer. subst currentPath parentContainer.
  unfold CheckContainerElement in Hcheck.
  destruct (Find DescriptorAttributes.ParentContainerInstance attributes)
    as [parentContainerInstanceValue |] eqn:Hinstance; [| by injection Hcheck].
  destruct (negb (container_of_attribute
                    (Find DescriptorAttributes.ParentContainer attributes) =? nullptr))
    eqn:Hcontainer; simpl in *; [| by injection Hcheck].
  destruct (negb (IsNull parentContainerInstanceValue)); simpl in *; [| by injection Hcheck].
  unfold CreateContainerElement in Hcheck. rewrite Hcontainer, Hinstance in Hcheck.
  simpl in Hcheck.
  match type of Hcheck with context [if _ then _ else Some ?x] => set (s1 := x) in * end.
  match goal with |- _ = ?t => assert (Hs1 : m_containers s1 = t) end.
  { subst s1. unfold PrefixTree.ValueAtPath_ExactPath, PrefixTree.SetValue.
    by destruct (m_containers s !! _). }
  clearbody s1. rewrite <- Hs1. clear Hs1 Hcontainer Hinstance. revert Hcheck.
  destruct (_ && _); [| by intros [= <-]].
  destruct (negb _).
  - destruct (_ && _).
    + destruct (Find DescriptorAttributes.ContainerIndex attributes); [| done]. simpl.
      intros [= <-]. by rewrite !CreateContainerButton_m_containers.
    + simpl. intros [= <-]. by rewrite CreateContainerButton_m_containers.
  - simpl. intros [= <-]. by rewrite CreateContainerButton_m_containers.
Qed.

Ltac build_nodes :=
  simpl;
  unfold AdapterBuilder.EndPropertyEditor, AdapterBuilder.EndRow, AdapterBuilder.EndAdapter,
    AdapterBuilder.BeginPropertyEditor, AdapterBuilder.BeginRow, AdapterBuilder.BeginAdapter,
    AdapterBuilder.Label, AdapterBuilder.GetCurrentPath;
  repeat (rewrite BeginNode_B || rewrite Attribute_B || rewrite AddMessageHandler_B
          || rewrite EndNode_B || rewrite fold_forward_attribute);
  simpl.

(** X6: for a value that names a non-null parent container and a non-null
    parent instance, [CheckContainerElement] stores, at the builder's current
    path, the element made of the parent container, the parent instance and
    the value's instance (or the address of the element override, when that
    attribute holds a valid pointer).  A bound container already registered
    at that path is kept, and no other path changes.  Without such a parent
    the adapter is left as it was. *)
Theorem CheckContainerElement_registers_element instance attributes (s s' : State) :
  CheckContainerElement instance attributes s = Some s' →
  let currentPath := AdapterBuilder.GetCurrentPath (m_builder s) in
  let parentContainer :=
    container_of_attribute (Find DescriptorAttributes.ParentContainer attributes) in
  (∀ parentContainerInstanceValue,
     Find DescriptorAttributes.ParentContainerInstance attributes
     = Some parentContainerInstanceValue →
     parentContainer ≠ nullptr →
     IsNull parentContainerInstanceValue = false →
     m_containers s' !! currentPath ≫= ContainerEntry.m_element
     = Some {| ContainerElement.m_container := parentContainer;
               ContainerElement.m_containerInstance :=
                 default nullptr (valid_address_of parentContainerInstanceValue);
               ContainerElement.m_elementInstance :=
                 match Find DescriptorAttributes.ContainerElementOverride attributes with
                 | Some containerElementOverrideValue =>
                     default instance (valid_address_of containerElementOverrideValue)
                 | None => instance
                 end |}
     ∧ m_containers s' !! currentPath ≫= ContainerEntry.m_container
       = m_containers s !! currentPath ≫= ContainerEntry.m_container
     ∧ ∀ q, q ≠ currentPath → m_containers s' !! q = m_containers s !! q)
  ∧ (match Find DescriptorAttributes.ParentContainerInstance attributes with
     | Some parentContainerInstanceValue =>
         parentContainer = nullptr ∨ IsNull parentContainerInstanceValue = true
     | None => True
     end →
     s' = s).
Proof.
  intros Hcheck currentPath parentContainer.
  pose proof (CheckContainerElement_table instance attributes s s' Hcheck) as Htable.
  simpl in Htable. fold currentPath parentContainer in Htable.
  destruct (Find DescriptorAttributes.ParentContainerInstance attributes)
    as [parentContainerInstanceValue |]; [| by split].
  split.
  - intros ? [= <-] Hcontainer%Z.eqb_neq Hnull. rewrite Hcontainer, Hnull in Htable.
    simpl in Htable. rewrite Htable.
    split; [by rewrite lookup_insert_eq |]. split; [by rewrite lookup_insert_eq |].
    intros q Hq. by rewrite lookup_insert_ne.
  - intros [Hcontainer | Hnull].
    + apply Z.eqb_eq in Hcontainer. by rewrite Hcontainer in Htable.
    + rewrite Hnull, andb_false_r in Htable. done.
Qed.

Lemma VisitValue_table value instance valueSize attributes onChanged hashValue
  (s s' : State) name ms ch rest p v m :
  built s (Node name ms ch :: rest) p v m →
  VisitValue value instance valueSize attributes onChanged false hashValue s = Some s' →
  (∀ q, q ≠ p → m_containers s' !! q = m_containers s !! q)
  ∧ m_containers s' !! p ≫= ContainerEntry.m_container
    = m_containers s !! p ≫= ContainerEntry.m_container.
Proof.
  intros Hb Hvisit. unfold VisitValue in Hvisit.
  destruct (CheckContainerElement _ _ _) as [s2 |] eqn:Hcheck; [| done].
  simpl in Hvisit. injection Hvisit as <-.
  apply CheckContainerElement_table in Hcheck.
  match type of Hcheck with context [m_builder ?x] => set (s1 := x) in * end.
  assert (Hpath : AdapterBuilder.GetCurrentPath (m_builder s1) = p).
  { unfold s1. clear Hcheck s1. destruct s; destruct Hb as [Hb Hm]; simpl in *; subst.
    unfold ForwardAttributes. destruct hashValue; build_nodes; done. }
  assert (Htables : m_containers s1 = m_containers s).
  { unfold s1. destruct hashValue; reflexivity. }
  clearbody s1. simpl in Hcheck. rewrite Hpath, Htables in Hcheck.
  destruct (Find DescriptorAttributes.ParentContainerInstance attributes);
    [| subst s2; by rewrite Htables].
  destruct (_ && _); [| subst s2; by rewrite Htables].
  rewrite Hcheck. split.
  - intros q Hq. by rewrite lookup_insert_ne.
  - rewrite lookup_insert_eq. done.
Qed.

Lemma begin_container_table container access attributes (s : State) :
  m_containers (begin_container container access attributes s)
  = <[AdapterBuilder.GetCurrentPath (m_builder s) :=
        {| ContainerEntry.m_container := CreateBoundContainer (Get access) attributes;
           ContainerEntry.m_element := None |}]> (m_containers s).
Proof.
  unfold begin_container.
  repeat case_match; rewrite ?CreateContainerButton_m_containers; reflexivity.
Qed.

Lemma closest_prefix_here {T : Type} (t : gmap Path T) (path : Path) (n : nat) (v : T) :
  t !! take n path = Some v → PrefixTree.closest_prefix t path n = Some (take n path, v).
Proof. intros Hv. destruct n; simpl; by rewrite Hv. Qed.

Lemma ValueAtPath_ParentsOnly_parent {T : Type} (t : gmap Path T) (p : Path)
  (entry : PathEntry) (v : T) :
  t !! p = Some v → PrefixTree.ValueAtPath_ParentsOnly t (p ++ [entry]) = Some (p, v).
Proof.
  intros Hv. unfold PrefixTree.ValueAtPath_ParentsOnly.
  rewrite length_app, Nat.add_1_r.
  pose proof (closest_prefix_here t (p ++ [entry]) (length p) v) as Hhere.
  rewrite take_app_length in Hhere. by apply Hhere.
Qed.

(** X7: a visible object that is neither a string nor a bool and carries a
    container is registered by [VisitObjectBegin] at the path of its Row, bound
    to that container and to the object's instance, with no reserved element.
    Looking the table up from any child of the Row (as the handlers of its
    buttons do) finds that entry, and no entry at another path changes. *)
Theorem VisitObjectBegin_registers_container access attributes (s s' : State)
  name ms ch rest p v m :
  built s (Node name ms ch :: rest) p v m →
  is_hidden attributes = false →
  GetType access ≠ azrtti_typeid_string →
  GetType access ≠ azrtti_typeid_bool →
  container_of_attribute (Find DescriptorAttributes.Container attributes) ≠ nullptr →
  VisitObjectBegin access attributes s = Some s' →
  let rowPath := p ++ [Index (length ch)] in
  ∃ containerEntry,
    m_containers s' !! rowPath = Some containerEntry
    ∧ ContainerEntry.m_container containerEntry
      = Some {| BoundContainer.m_container :=
                  container_of_attribute (Find DescriptorAttributes.Container attributes);
                BoundContainer.m_containerInstance := Get access;
                BoundContainer.m_reservedElementInstance := nullptr |}
    ∧ (∀ entry, PrefixTree.ValueAtPath_ParentsOnly (m_containers s') (rowPath ++ [entry])
                = Some (rowPath, containerEntry))
    ∧ ∀ q, q ≠ rowPath → m_containers s' !! q = m_containers s !! q.
Proof.
  intros Hb Hvisible Hstring%Z.eqb_neq Hbool%Z.eqb_neq Hcontainer%Z.eqb_neq Hvisit rowPath.
  unfold VisitObjectBegin in Hvisit.
  rewrite Hvisible, Hstring, Hbool, Hcontainer in Hvisit. simpl in Hvisit.
  match type of Hvisit with context [begin_container _ _ _ ?x] => set (s1 := x) in * end.
  assert (Hs1 : built s1 (Node Nodes.Row_Name (row_members attributes) []
                          :: Node name ms ch :: rest) rowPath v m).
  { subst s1. destruct s; destruct Hb as [Hb Hm]; simpl in *; subst.
    unfold built, row_members. build_nodes. unfold CreateNode.
    by rewrite fold_row_attributes. }
  assert (Htables1 : m_containers s1 = m_containers s) by reflexivity.
  clearbody s1.
  pose proof (begin_container_built
                (container_of_attribute (Find DescriptorAttributes.Container attributes))
                access attributes s1 _ _ _ _ _ _ _ Hs1) as Hs2.
  pose proof (begin_container_table
                (container_of_attribute (Find DescriptorAttributes.Container attributes))
                access attributes s1) as Htables2.
  replace (AdapterBuilder.GetCurrentPath (m_builder s1)) with rowPath in Htables2
    by (destruct Hs1 as [-> _]; done).
  rewrite Htables1 in Htables2.
  match type of Hs2 with built ?x _ _ _ _ => generalize dependent x end.
  intros s2 Hvisit Hs2 Htables2.
  assert (Hvalue : ∃ value valueSize onChanged hashValue,
            VisitValue value (Get access) valueSize attributes onChanged false hashValue s2
            = Some s').
  { destruct (ed_enableInspectorOverrideManagement && _); [| by eauto 10].
    unfold VisitValueWithSerializedPath in Hvisit. by eauto 10. }
  destruct Hvalue as (value & valueSize & onChanged & hashValue & Hvalue).
  destruct (VisitValue_table _ _ _ _ _ _ _ _ _ _ _ _ _ _ _ Hs2 Hvalue) as [Hother Hsame].
  rewrite Htables2, lookup_insert_eq in Hsame. simpl in Hsame.
  unfold CreateBoundContainer in Hsame. rewrite Hcontainer in Hsame.
  destruct (m_containers s' !! rowPath) as [containerEntry |] eqn:Hentry; [| done].
  simpl in Hsame. exists containerEntry.
  split; [done |]. split; [done |]. split.
  - intros entry. by apply ValueAtPath_ParentsOnly_parent.
  - intros q Hq. rewrite (Hother q Hq), Htables2. by rewrite lookup_insert_ne.
Qed.

(** X8: the buttons of a container element.  A parent of fixed size, or one
    that cannot be modified, gives no button.  Otherwise the element gets a
    remove button; when the parent instance is valid and the parent is a
    sequence of at least two elements it is preceded by a move-up and a
    move-down button carrying the element's index, the first disabled for
    index 0 and the second for the last index.  In that case an element
    without a [ContainerIndex] attribute makes the visit dereference null.  A
    button carries [Disabled] exactly when it is disabled. *)
Theorem CheckContainerElement_buttons instance attributes (s : State)
  name ms ch rest p v m parentContainerInstanceValue :
  built s (Node name ms ch :: rest) p v m →
  Find DescriptorAttributes.ParentContainerInstance attributes
  = Some parentContainerInstanceValue →
  IsNull parentContainerInstanceValue = false →
  container_of_attribute (Find DescriptorAttributes.ParentContainer attributes) ≠ nullptr →
  let parentContainer :=
    dataContainerAt
      (container_of_attribute (Find DescriptorAttributes.ParentContainer attributes)) in
  let parentContainerInstance :=
    default nullptr (valid_address_of parentContainerInstanceValue) in
  let containerSize := Size parentContainer m parentContainerInstance in
  let parentCanBeModified :=
    bool_attribute true (Find DescriptorAttributes.ParentContainerCanBeModified attributes) in
  let isAncestorDisabledValue :=
    match Find Nodes.AncestorDisabled attributes with
    | Some (Bool b) => b
    | _ => false
    end in
  let appended (buttons : list Value) :=
    ∃ s', CheckContainerElement instance attributes s = Some s'
          ∧ built s' (Node name ms (ch ++ buttons) :: rest) p v m in
  let remove (index : nat) :=
    button_node Nodes.RemoveElement false isAncestorDisabledValue (-1) Nodes.AlignRight
      (p ++ [Index index]) in
  (IsFixedSize parentContainer = true ∨ parentCanBeModified = false → appended [])
  ∧ (IsFixedSize parentContainer = false → parentCanBeModified = true →
     (parentContainerInstance = nullptr ∨ (containerSize ≤ 1)%nat
      ∨ IsSequenceContainer parentContainer = false →
      appended [remove (length ch)])
     ∧ (parentContainerInstance ≠ nullptr → (2 ≤ containerSize)%nat →
        IsSequenceContainer parentContainer = true →
        ∀ containerIndexAttribute,
          Find DescriptorAttributes.ContainerIndex attributes = Some containerIndexAttribute →
          let containerIndex := GetInt64 containerIndexAttribute in
          appended
            [button_node Nodes.MoveUp (containerIndex =? 0) isAncestorDisabledValue
               containerIndex Nodes.AlignRight (p ++ [Index (length ch)]);
             button_node Nodes.MoveDown (containerIndex =? Z.of_nat containerSize - 1)
               isAncestorDisabledValue containerIndex Nodes.AlignRight
               (p ++ [Index (S (length ch))]);
             remove (S (S (length ch)))])
     ∧ (parentContainerInstance ≠ nullptr → (2 ≤ containerSize)%nat →
        IsSequenceContainer parentContainer = true →
        Find DescriptorAttributes.ContainerIndex attributes = None →
        CheckContainerElement instance attributes s = None))
  ∧ ∀ action disabled ancestorDisabled containerIndex alignment path,
      FindMember Nodes.Disabled
        (button_node action disabled ancestorDisabled containerIndex alignment path)
      = if disabled then Some (Bool true) else None.
Proof.
  intros Hb Hinstance Hnull Hcontainer%Z.eqb_neq parentContainer parentContainerInstance
         containerSize parentCanBeModified isAncestorDisabledValue appended remove.
  pose proof (CheckContainerElement_built instance attributes s _ _ _ _ _ _ _ Hb) as Hcheck.
  unfold element_buttons in Hcheck.
  rewrite Hinstance, Hcontainer, Hnull in Hcheck. simpl in Hcheck.
  fold parentContainer parentContainerInstance parentCanBeModified isAncestorDisabledValue
    in Hcheck.
  fold containerSize in Hcheck.
  split; [| split].
  - intros Hfixed.
    replace (negb (IsFixedSize parentContainer) && parentCanBeModified) with false in Hcheck
      by (destruct Hfixed as [-> | ->]; by rewrite ?andb_false_r).
    subst appended. simpl. by rewrite app_nil_r.
  - intros Hfixed Hmodified. rewrite Hfixed, Hmodified in Hcheck. simpl in Hcheck.
    split; [| split].
    + intros Hplain.
      replace (if negb (parentContainerInstance =? nullptr)
               then if (1 <? Z.of_nat containerSize) && IsSequenceContainer parentContainer
                    then _ else Some ch
               else Some ch) with (Some ch) in Hcheck.
      * exact Hcheck.
      * destruct Hplain as [-> | [Hsize | ->]].
        -- by rewrite Z.eqb_refl.
        -- replace (1 <? Z.of_nat containerSize) with false
             by (symmetry; apply Z.ltb_ge; lia).
           by destruct (negb _).
        -- rewrite andb_false_r. by destruct (negb _).
    + intros Hvalid%Z.eqb_neq Hsize Hsequence containerIndexAttribute Hindex containerIndex.
      rewrite Hvalid, Hsequence, Hindex in Hcheck.
      replace (1 <? Z.of_nat containerSize) with true in Hcheck
        by (symmetry; apply Z.ltb_lt; lia).
      simpl in Hcheck. unfold with_button in Hcheck.
      rewrite !length_app, <- !app_assoc in Hcheck. simpl in Hcheck.
      rewrite !Nat.add_1_r in Hcheck. exact Hcheck.
    + intros Hvalid%Z.eqb_neq Hsize Hsequence Hindex.
      rewrite Hvalid, Hsequence, Hindex in Hcheck.
      replace (1 <? Z.of_nat containerSize) with true in Hcheck
        by (symmetry; apply Z.ltb_lt; lia).
      exact Hcheck.
  - intros action disabled ancestorDisabled containerIndex alignment path.
    unfold button_node.
    by destruct disabled, ancestorDisabled, (negb (containerIndex =? -1)).
Qed.

(** X9: the head of a container's Row.  With a label the Row gets the
    label and a second label that is the [ValueText] attribute if it is a
    string and otherwise the size ("1 element", or "n elements"); without a
    string label it gets neither.  Then, if the container can be modified and
    is not of fixed size, an add button and a clear button follow; the add
    button is disabled when the [Disabled] attribute is true, the clear
    button also when the container is empty. *)
Theorem begin_container_children container access attributes (s : State)
  name ms ch rest p v m :
  built s (Node name ms ch :: rest) p v m →
  let c := dataContainerAt container in
  let containerSize := Size c m (Get access) in
  let canBeModified :=
    bool_attribute true (Find Nodes.Container_ContainerCanBeModified attributes) in
  let isDisabled := bool_attribute false (Find Nodes.Disabled attributes) in
  let sizeText :=
    if bool_decide (containerSize = 1%nat) then "1 element"
    else (pretty containerSize ++ " elements")%string in
  let begun (children : list Value) :=
    built (begin_container container access attributes s)
      (Node name ms (ch ++ children) :: rest) p v m in
  let buttons (index : nat) :=
    [button_node Nodes.AddElement isDisabled false (-1) Nodes.AlignRight
       (p ++ [Index index]);
     button_node Nodes.Clear (isDisabled || bool_decide (containerSize = 0%nat)) false (-1)
       Nodes.AlignRight (p ++ [Index (S index)])] in
  (∀ label,
     Find DescriptorAttributes.Label attributes = Some (Str label) →
     match Find Nodes.Label_ValueText attributes with
     | Some (Str _) => False
     | _ => True
     end →
     if canBeModified && negb (IsFixedSize c)
     then begun ([Label_node label; Label_node sizeText] ++ buttons (S (S (length ch))))
     else begun [Label_node label; Label_node sizeText])
  ∧ (∀ label valueText,
       Find DescriptorAttributes.Label attributes = Some (Str label) →
       Find Nodes.Label_ValueText attributes = Some (Str valueText) →
       if canBeModified && negb (IsFixedSize c)
       then begun ([Label_node label; Label_node valueText] ++ buttons (S (S (length ch))))
       else begun [Label_node label; Label_node valueText])
  ∧ (match Find DescriptorAttributes.Label attributes with
     | Some (Str _) => False
     | _ => True
     end →
     if canBeModified && negb (IsFixedSize c)
     then begun (buttons (length ch))
     else begun []).
Proof.
  intros Hb c containerSize canBeModified isDisabled sizeText begun buttons.
  pose proof (begin_container_built container access attributes s _ _ _ _ _ _ _ Hb)
    as Hbegin.
  unfold container_children in Hbegin.
  fold c canBeModified isDisabled in Hbegin. fold containerSize in Hbegin.
  assert (Hclear : (if negb isDisabled then bool_decide (containerSize = 0%nat)
                    else isDisabled)
                   = isDisabled || bool_decide (containerSize = 0%nat))
    by (by destruct isDisabled).
  rewrite Hclear in Hbegin. subst begun buttons. simpl.
  split; [| split].
  - intros label Hlabel Htext. rewrite Hlabel in Hbegin.
    assert (Hsize : match Find Nodes.Label_ValueText attributes with
                    | Some (Str valueText) => (ch ++ [Label_node label]) ++ [Label_node valueText]
                    | _ => if bool_decide (containerSize = 1%nat)
                           then (ch ++ [Label_node label]) ++ [Label_node "1 element"]
                           else (ch ++ [Label_node label])
                                ++ [Label_node (pretty containerSize ++ " elements")%string]
                    end = ch ++ [Label_node label; Label_node sizeText]).
    { subst sizeText.
      destruct (Find Nodes.Label_ValueText attributes) as [[] |]; try done;
        destruct (bool_decide (containerSize = 1%nat)); by rewrite <- app_assoc. }
    rewrite Hsize in Hbegin.
    destruct (canBeModified && negb (IsFixedSize c)); [| done].
    unfold with_button in Hbegin.
    rewrite !length_app, <- !app_assoc in Hbegin. simpl in Hbegin.
    rewrite !Nat.add_1_r in Hbegin.
    replace (length ch + 2)%nat with (S (S (length ch))) in Hbegin by lia. exact Hbegin.
  - intros label valueText Hlabel Htext. rewrite Hlabel, Htext in Hbegin.
    rewrite <- app_assoc in Hbegin. simpl in Hbegin.
    destruct (canBeModified && negb (IsFixedSize c)); [| done].
    unfold with_button in Hbegin.
    rewrite !length_app, <- !app_assoc in Hbegin. simpl in Hbegin.
    rewrite !Nat.add_1_r in Hbegin.
    replace (length ch + 2)%nat with (S (S (length ch))) in Hbegin by lia. exact Hbegin.
  - intros Hlabel.
    assert (Hkept : match Find DescriptorAttributes.Label attributes with
                    | Some (Str label) =>
                        match Find Nodes.Label_ValueText attributes with
                        | Some (Str valueText) =>
                            (ch ++ [Label_node label]) ++ [Label_node valueText]
                        | _ => if bool_decide (containerSize = 1%nat)
                               then (ch ++ [Label_node label]) ++ [Label_node "1 element"]
                               else (ch ++ [Label_node label])
                                    ++ [Label_node (pretty containerSize ++ " elements")%string]
                        end
                    | _ => ch
                    end = ch).
    { by destruct (Find DescriptorAttributes.Label attributes) as [[] |]. }
    rewrite Hkept in Hbegin.
    destruct (canBeModified && negb (IsFixedSize c)); [| by rewrite app_nil_r].
    unfold with_button in Hbegin.
    rewrite !length_app, <- !app_assoc in Hbegin. simpl in Hbegin.
    rewrite !Nat.add_1_r in Hbegin. exact Hbegin.
Qed.

End Generation.

Lemma VisitObjectBegin_registers_container_witness :
  let s' := default Samples.open_adapter
              (VisitObjectBegin Samples.vector_access Samples.vector_attributes
                 Samples.open_adapter) in
  ∃ containerEntry,
    m_containers s' !! [Index 0] = Some containerEntry
    ∧ ContainerEntry.m_container containerEntry
      = Some {| BoundContainer.m_container := Toy.vector_descriptor;
                BoundContainer.m_containerInstance := 500;
                BoundContainer.m_reservedElementInstance := nullptr |}
    ∧ PrefixTree.ValueAtPath_ParentsOnly (m_containers s') [Index 0; Index 2]
      = Some ([Index 0], containerEntry).
Proof.
  intros s'.
  destruct (VisitObjectBegin_registers_container Samples.vector_access
              Samples.vector_attributes Samples.open_adapter s'
              Nodes.Adapter_Name adapter_members [] [] [] Null Toy.memory0)
    as (containerEntry & Hentry & Hbound & Hparents & _).
  - split; reflexivity.
  - reflexivity.
  - vm_compute. discriminate.
  - vm_compute. discriminate.
  - vm_compute. discriminate.
  - reflexivity.
  - exists containerEntry. split; [exact Hentry |]. split; [exact Hbound |].
    exact (Hparents (Index 2)).
Defined.

Lemma CheckContainerElement_registers_element_witness :
  let s' := default Samples.open_adapter
              (CheckContainerElement 600 Samples.element_attributes Samples.open_adapter) in
  m_containers s' !! [] ≫= ContainerEntry.m_element
  = Some {| ContainerElement.m_container := Toy.vector_descriptor;
            ContainerElement.m_containerInstance := 500;
            ContainerElement.m_elementInstance := 600 |}.
Proof.
  intros s'.
  destruct (CheckContainerElement_registers_element 600 Samples.element_attributes
              Samples.open_adapter s' eq_refl) as [Hregistered _].
  destruct (Hregistered (Toy.pointer 500 21) eq_refl) as [Helement _].
  - vm_compute. discriminate.
  - reflexivity.
  - exact Helement.
Defined.

Lemma CheckContainerElement_buttons_witness :
  ∃ s', CheckContainerElement 600 Samples.element_attributes Samples.open_adapter = Some s'
        ∧ built s'
            [Node Nodes.Adapter_Name adapter_members
               [button_node Nodes.MoveUp true false 0 Nodes.AlignRight [Index 0];
                button_node Nodes.MoveDown false false 0 Nodes.AlignRight [Index 1];
                button_node Nodes.RemoveElement false false (-1) Nodes.AlignRight [Index 2]]]
            [] Null Toy.memory0.
Proof.
  destruct (CheckContainerElement_buttons 600 Samples.element_attributes
              Samples.open_adapter Nodes.Adapter_Name adapter_members [] [] [] Null
              Toy.memory0 (Toy.pointer 500 21))
    as (_ & Hmodifiable & _).
  - split; reflexivity.
  - reflexivity.
  - reflexivity.
  - vm_compute. discriminate.
  - destruct (Hmodifiable eq_refl eq_refl) as (_ & Hsequence & _).
    apply (Hsequence ltac:(vm_compute; discriminate) ltac:(vm_compute; lia) eq_refl
             (Int64 0) eq_refl).
Defined.

Lemma begin_container_children_witness :
  built (begin_container Toy.vector_descriptor Samples.vector_access
           Samples.vector_attributes Samples.open_adapter)
    [Node Nodes.Adapter_Name adapter_members
       [Label_node "Items"; Label_node "2 elements";
        button_node Nodes.AddElement false false (-1) Nodes.AlignRight [Index 2];
        button_node Nodes.Clear false false (-1) Nodes.AlignRight [Index 3]]]
    [] Null Toy.memory0.
Proof.
  destruct (begin_container_children Toy.vector_descriptor Samples.vector_access
              Samples.vector_attributes Samples.open_adapter Nodes.Adapter_Name
              adapter_members [] [] [] Null Toy.memory0 ltac:(split; reflexivity))
    as (Hlabel & _).
  exact (Hlabel "Items" eq_refl I).
Defined.

(** ** The rows and the table entries of a walk *)

Section WalkTables.
Context `{Engine}.

Ltac build_nodes :=
  simpl;
  unfold AdapterBuilder.EndPropertyEditor, AdapterBuilder.EndRow, AdapterBuilder.EndAdapter,
    AdapterBuilder.BeginPropertyEditor, AdapterBuilder.BeginRow, AdapterBuilder.BeginAdapter,
    AdapterBuilder.Label, AdapterBuilder.GetCurrentPath;
  repeat (rewrite BeginNode_B || rewrite Attribute_B || rewrite AddMessageHandler_B
          || rewrite EndNode_B || rewrite fold_forward_attribute);
  simpl.

Lemma same_entries_refl (s : State) q : same_entries s s q.
Proof. done. Qed.

Lemma same_entries_trans (s1 s2 s3 : State) q :
  same_entries s1 s2 q → same_entries s2 s3 q → same_entries s1 s3 q.
Proof. intros [H1 H2] [H3 H4]. split; congruence. Qed.

Lemma same_entries_on_builder f (s : State) q : same_entries s (on_builder f s) q.
Proof. by destruct s. Qed.

Lemma same_entries_on_builder_end access attributes (s : State) q :
  same_entries s (VisitObjectEnd access attributes s) q.
Proof. unfold VisitObjectEnd. destruct (is_hidden attributes); by destruct s. Qed.

Lemma ExtractAndCreateLabel_entries attributes (s : State) q :
  same_entries s (ExtractAndCreateLabel attributes s) q.
Proof.
  unfold ExtractAndCreateLabel.
  by destruct (Find DescriptorAttributes.Label attributes) as [[] |], s.
Qed.

Lemma CreateContainerButton_entries action disabled ancestorDisabled containerIndex alignment
  (s : State) q :
  same_entries s
    (CreateContainerButton action disabled ancestorDisabled containerIndex alignment s) q.
Proof.
  split; [by rewrite CreateContainerButton_onChangedCallbacks
         | by rewrite CreateContainerButton_m_containers].
Qed.

Lemma begin_container_onChangedCallbacks container access attributes (s : State) :
  m_onChangedCallbacks (begin_container container access attributes s)
  = m_onChangedCallbacks s.
Proof.
  unfold begin_container.
  repeat case_match; rewrite ?CreateContainerButton_onChangedCallbacks; by destruct s.
Qed.

Lemma VisitValue_callbacks value instance valueSize attributes onChanged hashValue
  (s s' : State) name ms ch rest p v m :
  built s (Node name ms ch :: rest) p v m →
  VisitValue value instance valueSize attributes onChanged false hashValue s = Some s' →
  m_onChangedCallbacks s'
  = <[p ++ [Index (length ch)] := onChanged]> (m_onChangedCallbacks s).
Proof.
  intros [Hb _] Hvisit. unfold VisitValue in Hvisit.
  destruct (CheckContainerElement _ _ _) as [s1 |] eqn:Hcheck; [| done].
  simpl in Hvisit. injection Hvisit as <-.
  apply CheckContainerElement_onChangedCallbacks in Hcheck.
  destruct hashValue; simpl in Hcheck |- *; rewrite Hcheck;
    rewrite forward_attributes_currentPath; rewrite Hb; by build_nodes.
Qed.

Lemma VisitValue_entries value instance valueSize attributes onChanged hashValue
  (s s' : State) name ms ch rest p v m q :
  built s (Node name ms ch :: rest) p v m →
  VisitValue value instance valueSize attributes onChanged false hashValue s = Some s' →
  ¬ p `prefix_of` q →
  same_entries s s' q.
Proof.
  intros Hb Hvisit Hq. split.
  - rewrite (VisitValue_callbacks _ _ _ _ _ _ _ _ _ _ _ _ _ _ _ Hb Hvisit).
    apply lookup_insert_ne. intros <-. apply Hq. by eexists.
  - destruct (VisitValue_table _ _ _ _ _ _ _ _ _ _ _ _ _ _ _ Hb Hvisit) as [Hother _].
    apply Hother. intros ->. by apply Hq.
Qed.

Lemma VisitValue_createRow value instance valueSize attributes onChanged hashValue (s : State) :
  VisitValue value instance valueSize attributes onChanged true hashValue s
  = on_builder AdapterBuilder.EndRow
    <$> VisitValue value instance valueSize attributes onChanged false hashValue
          (ExtractAndCreateLabel attributes (on_builder AdapterBuilder.BeginRow s)).
Proof. unfold VisitValue. by destruct (CheckContainerElement _ _ _). Qed.

Lemma VisitPrimitive_entries T value attributes (s s' : State) name ms ch rest p v m q :
  built s (Node name ms ch :: rest) p v m →
  VisitPrimitive T value attributes s = Some s' →
  ¬ (p ++ [Index (length ch)]) `prefix_of` q →
  same_entries s s' q.
Proof.
  intros Hb Hvisit Hq. unfold VisitPrimitive in Hvisit.
  destruct (is_hidden attributes); [by injection Hvisit as <- |].
  rewrite VisitValue_createRow in Hvisit.
  destruct (VisitValue _ _ _ _ _ false _ _) as [s1 |] eqn:Hvalue; [| done].
  injection Hvisit as <-.
  pose proof (ExtractAndCreateLabel_built attributes _ _ _ _ _ _ _ _
                (BeginRow_built _ _ _ _ _ _ _ _ Hb)) as Hrow.
  replace (memory s) with m in Hvalue by (by destruct Hb).
  eapply same_entries_trans; [| apply same_entries_on_builder].
  eapply same_entries_trans;
    [| exact (VisitValue_entries _ _ _ _ _ _ _ _ _ _ _ _ _ _ _ q Hrow Hvalue Hq)].
  eapply same_entries_trans; [apply same_entries_on_builder |].
  apply ExtractAndCreateLabel_entries.
Qed.

Lemma begin_container_entries container access attributes (s : State) name ms ch rest p v m q :
  built s (Node name ms ch :: rest) p v m →
  q ≠ p →
  same_entries s (begin_container container access attributes s) q.
Proof.
  intros [Hb _] Hq. split.
  - apply (f_equal (λ t, t !! q)), begin_container_onChangedCallbacks.
  - rewrite begin_container_table, Hb. simpl. by apply lookup_insert_ne.
Qed.

Lemma VisitObjectBegin_entries access attributes (s s' : State) name ms ch rest p v m q :
  built s (Node name ms ch :: rest) p v m →
  VisitObjectBegin access attributes s = Some s' →
  ¬ (p ++ [Index (length ch)]) `prefix_of` q →
  same_entries s s' q.
Proof.
  intros Hb Hvisit Hq. unfold VisitObjectBegin in Hvisit.
  destruct (is_hidden attributes); [by injection Hvisit as <- |].
  match type of Hvisit with context [ExtractAndCreateLabel attributes ?x] =>
    set (s1 := x) in * end.
  assert (Hs1 : built s1 (Node Nodes.Row_Name (row_members attributes) []
                          :: Node name ms ch :: rest) (p ++ [Index (length ch)]) v m).
  { subst s1. destruct s; destruct Hb as [Hb Hm]; simpl in *; subst.
    unfold built, row_members. build_nodes. unfold CreateNode.
    by rewrite fold_row_attributes. }
  assert (Hentries1 : same_entries s s1 q) by (by destruct s).
  clearbody s1.
  pose proof (ExtractAndCreateLabel_built attributes s1 _ _ _ _ _ _ _ Hs1) as Hlabel.
  pose proof (ExtractAndCreateLabel_entries attributes s1 q) as Hentries2.
  apply (same_entries_trans _ _ _ _ Hentries1). clear Hentries1.
  destruct (GetType access =? azrtti_typeid_string).
  { apply (same_entries_trans _ _ _ _ Hentries2).
    exact (VisitValue_entries _ _ _ _ _ _ _ _ _ _ _ _ _ _ _ q Hlabel Hvisit Hq). }
  destruct (GetType access =? azrtti_typeid_bool).
  { apply (same_entries_trans _ _ _ _ Hentries2).
    exact (VisitValue_entries _ _ _ _ _ _ _ _ _ _ _ _ _ _ _ q Hlabel Hvisit Hq). }
  match type of Hvisit with context [VisitValueWithSerializedPath access attributes ?x] =>
    set (s2 := x) in * end.
  assert (Hs2 : ∃ ch2, built s2 (Node Nodes.Row_Name (row_members attributes) ch2
                                 :: Node name ms ch :: rest) (p ++ [Index (length ch)]) v m).
  { subst s2. destruct (negb (_ =? nullptr)); eexists;
      [by apply begin_container_built | done]. }
  assert (Hentries3 : same_entries s1 s2 q).
  { subst s2. destruct (negb (_ =? nullptr)); [| done].
    eapply begin_container_entries; [exact Hs1 |]. intros ->. by apply Hq. }
  clearbody s2. destruct Hs2 as [ch2 Hs2].
  apply (same_entries_trans _ _ _ _ Hentries3).
  destruct (ed_enableInspectorOverrideManagement && _).
  - unfold VisitValueWithSerializedPath in Hvisit.
    exact (VisitValue_entries _ _ _ _ _ _ _ _ _ _ _ _ _ _ _ q Hs2 Hvisit Hq).
  - exact (VisitValue_entries _ _ _ _ _ _ _ _ _ _ _ _ _ _ _ q Hs2 Hvisit Hq).
Qed.

Lemma keeps_entries_forest m forest :
  Forall (λ tree, keeps_entries (calls_of tree) m) forest →
  keeps_entries (calls_of_forest forest) m.
Proof.
  induction 1 as [| tree forest Htree _ IH]; intros s s' name ms ch rest p v Hb Hvisit.
  - injection Hvisit as <-. exists []. rewrite app_nil_r. by split.
  - unfold calls_of_forest in Hvisit. simpl in Hvisit. rewrite visit_all_app in Hvisit.
    destruct (visit_all (calls_of tree) s) as [s1 |] eqn:Hfirst; [| done].
    simpl in Hvisit.
    destruct (Htree _ _ _ _ _ _ _ _ Hb Hfirst) as (rows1 & Hs1 & Hentries1).
    destruct (IH _ _ _ _ _ _ _ _ Hs1 Hvisit) as (rows2 & Hs' & Hentries2).
    exists (rows1 ++ rows2). rewrite app_assoc. split; [done |].
    intros q Hq. eapply same_entries_trans.
    + apply Hentries1. intros (i & Hi & Hprefix). apply Hq. exists i.
      split; [| done]. rewrite !length_app in *. lia.
    + apply Hentries2. intros (i & Hi & Hprefix). apply Hq. exists i.
      split; [| done]. rewrite !length_app in *. lia.
Qed.

Lemma inside_one p n q : inside p n (S n) q ↔ (p ++ [Index n]) `prefix_of` q.
Proof.
  split.
  - intros (i & Hi & Hprefix). by replace n with i by lia.
  - intros Hprefix. exists n. split; [lia | done].
Qed.

Lemma keeps_entries_tree m tree : keeps_entries (calls_of tree) m.
Proof.
  induction tree as [T value attributes | access attributes members IH |]
    using VisitTree_forest_ind; intros s s' name ms ch rest p v Hb Hvisit.
  - simpl in Hvisit.
    destruct (VisitPrimitive T value attributes s) as [s1 |] eqn:Hprimitive; [| done].
    simpl in Hvisit. injection Hvisit as <-.
    pose proof (VisitPrimitive_built T value attributes s _ _ _ _ _ _ _ Hb) as Hbuilt.
    simpl in Hbuilt. destruct (is_hidden attributes) eqn:Hhidden.
    + destruct Hbuilt as (s2 & Hs2 & Hb2). rewrite Hprimitive in Hs2. injection Hs2 as <-.
      exists []. rewrite app_nil_r. split; [done |]. intros q _.
      unfold VisitPrimitive in Hprimitive. rewrite Hhidden in Hprimitive.
      by injection Hprimitive as <-.
    + destruct (primitive_row _ _ _ _ _) as [row |]; simpl in Hbuilt;
        [| by rewrite Hprimitive in Hbuilt].
      destruct Hbuilt as (s2 & Hs2 & Hb2). rewrite Hprimitive in Hs2. injection Hs2 as <-.
      exists [row]. split; [done |]. intros q Hq.
      apply (VisitPrimitive_entries _ _ _ _ _ _ _ _ _ _ _ _ _ Hb Hprimitive).
      intros Hprefix. apply Hq. rewrite length_app, Nat.add_1_r. by apply inside_one.
  - apply keeps_entries_forest in IH. simpl in Hvisit.
    destruct (VisitObjectBegin access attributes s) as [s1 |] eqn:Hbegin; [| done].
    simpl in Hvisit. rewrite visit_all_app in Hvisit.
    fold (calls_of_forest members) in Hvisit.
    destruct (visit_all (calls_of_forest members) s1) as [s2 |] eqn:Hmembers; [| done].
    simpl in Hvisit. injection Hvisit as <-.
    destruct (is_hidden attributes) eqn:Hhidden.
    + unfold VisitObjectBegin in Hbegin. rewrite Hhidden in Hbegin.
      injection Hbegin as <-. unfold VisitObjectEnd. rewrite Hhidden.
      exact (IH _ _ _ _ _ _ _ _ Hb Hmembers).
    + pose proof (VisitObjectBegin_built access attributes s _ _ _ _ _ _ _ Hb Hhidden)
        as Hbuilt.
      destruct (object_children _ _ _ _) as [rowChildren |];
        [| by rewrite Hbegin in Hbuilt].
      destruct Hbuilt as (s3 & Hs3 & Hb1). rewrite Hbegin in Hs3. injection Hs3 as <-.
      destruct (IH _ _ _ _ _ _ _ _ Hb1 Hmembers) as (rows & Hb2 & Hentries).
      eexists [_]. split.
      * eapply VisitObjectEnd_built; [exact Hb2 | done].
      * intros q Hq.
        assert (Hprefix : ¬ (p ++ [Index (length ch)]) `prefix_of` q).
        { intros Hprefix. apply Hq. rewrite length_app, Nat.add_1_r. by apply inside_one. }
        eapply same_entries_trans;
          [exact (VisitObjectBegin_entries _ _ _ _ _ _ _ _ _ _ _ _ Hb Hbegin Hprefix) |].
        eapply same_entries_trans; [| apply same_entries_on_builder_end].
        apply Hentries. intros (i & _ & [tail Htail]). apply Hprefix.
        exists (Index i :: tail). by rewrite Htail, <- app_assoc.
  - simpl in Hvisit. injection Hvisit as <-. exists []. rewrite app_nil_r. by split.
Qed.

Lemma children_after_rows m forest :
  Forall (λ tree, ∀ p ch ch', document_children m tree p ch = Some ch' →
                   ∃ rows, ch' = ch ++ rows
                           ∧ Forall (λ row, GetNodeName row = Nodes.Row_Name) rows
                           ∧ (length rows ≤ length (calls_of tree))%nat) forest →
  ∀ p ch ch', children_after (document_children m) forest p ch = Some ch' →
              ∃ rows, ch' = ch ++ rows
                      ∧ Forall (λ row, GetNodeName row = Nodes.Row_Name) rows
                      ∧ (length rows ≤ length (calls_of_forest forest))%nat.
Proof.
  induction 1 as [| tree forest Htree _ IH]; intros p ch ch' Hafter; simpl in Hafter.
  - injection Hafter as <-. exists []. rewrite app_nil_r. by repeat split.
  - destruct (document_children m tree p ch) as [ch1 |] eqn:Hfirst; [| done].
    simpl in Hafter.
    destruct (Htree _ _ _ Hfirst) as (rows1 & -> & Hrows1 & Hlength1).
    destruct (IH _ _ _ Hafter) as (rows2 & -> & Hrows2 & Hlength2).
    exists (rows1 ++ rows2). split; [by rewrite app_assoc |]. split; [by apply Forall_app |].
    unfold calls_of_forest in *. simpl. rewrite !length_app. lia.
Qed.

Lemma document_children_rows m tree p ch ch' :
  document_children m tree p ch = Some ch' →
  ∃ rows, ch' = ch ++ rows ∧ Forall (λ row, GetNodeName row = Nodes.Row_Name) rows
          ∧ (length rows ≤ length (calls_of tree))%nat.
Proof.
  revert p ch ch'.
  induction tree as [T value attributes | access attributes members IH |]
    using VisitTree_forest_ind; intros p ch ch' Hchildren; simpl in Hchildren.
  - destruct (is_hidden attributes).
    + injection Hchildren as <-. exists []. rewrite app_nil_r. repeat split; [done |].
      simpl. lia.
    + unfold primitive_row in Hchildren.
      destruct (value_children _ _ _ _ _ _ _ _); [| done]. simpl in Hchildren.
      injection Hchildren as <-. eexists. split; [done |]. split; [by repeat constructor |].
      simpl. lia.
  - pose proof (children_after_rows m members IH) as Hafter.
    destruct (is_hidden attributes).
    + destruct (Hafter _ _ _ Hchildren) as (rows & -> & Hrows & Hlength).
      exists rows. repeat split; [done |]. unfold calls_of_forest in Hlength.
      simpl. rewrite length_app. lia.
    + destruct (object_children _ _ _ _); [| done]. simpl in Hchildren.
      destruct (children_after _ _ _ _); [| done]. simpl in Hchildren.
      injection Hchildren as <-. eexists. split; [done |]. split; [by repeat constructor |].
      simpl. lia.
  - injection Hchildren as <-. exists []. rewrite app_nil_r. repeat split; [done |].
    simpl. lia.
Qed.

(** X10: visiting a walk appends Rows, and only Rows, to the open node: the
    children it had stay in place and at most one Row is appended per visitor
    call.  Neither table changes outside the appended Rows: an entry at a
    path that is not in or below one of them (in particular every entry
    registered for an earlier sibling) is as it was before the visit. *)
Theorem walk_appends_rows (forest : list VisitTree) (s s' : State) name ms ch rest p v m :
  built s (Node name ms ch :: rest) p v m →
  visit_all (calls_of_forest forest) s = Some s' →
  ∃ rows,
    built s' (Node name ms (ch ++ rows) :: rest) p v m
    ∧ Forall (λ row, GetNodeName row = Nodes.Row_Name) rows
    ∧ (length rows ≤ length (calls_of_forest forest))%nat
    ∧ ∀ q, (∀ i, (length ch ≤ i < length ch + length rows)%nat →
                 ¬ (p ++ [Index i]) `prefix_of` q) →
           m_onChangedCallbacks s' !! q = m_onChangedCallbacks s !! q
           ∧ m_containers s' !! q = m_containers s !! q.
Proof.
  intros Hb Hvisit.
  assert (Hkeeps : keeps_entries (calls_of_forest forest) m).
  { apply keeps_entries_forest, Forall_forall. intros tree _. apply keeps_entries_tree. }
  destruct (Hkeeps _ _ _ _ _ _ _ _ Hb Hvisit) as (rows & Hs' & Hentries).
  assert (Happends : appends (calls_of_forest forest) m (forest_children m forest)).
  { apply appends_forest, Forall_forall. intros tree _. apply appends_tree. }
  specialize (Happends s name ms ch rest p v Hb).
  destruct (forest_children m forest p ch) as [ch' |] eqn:Hchildren;
    [| by rewrite Hvisit in Happends].
  destruct Happends as (s1 & Hvisit1 & Hs1).
  rewrite Hvisit in Hvisit1. injection Hvisit1 as <-.
  assert (Hrows : Forall (λ tree, ∀ p ch ch', document_children m tree p ch = Some ch' →
                   ∃ rows, ch' = ch ++ rows
                           ∧ Forall (λ row, GetNodeName row = Nodes.Row_Name) rows
                           ∧ (length rows ≤ length (calls_of tree))%nat) forest).
  { apply Forall_forall. intros tree _ ? ? ?. apply document_children_rows. }
  destruct (children_after_rows m forest Hrows _ _ _ Hchildren)
    as (rows' & -> & Hnames & Hlength).
  assert (rows' = rows) as ->.
  { destruct Hs' as [Hbuilder _], Hs1 as [Hbuilder1 _].
    rewrite Hbuilder in Hbuilder1. injection Hbuilder1 as Hsame.
    by apply app_inv_head in Hsame. }
  exists rows. do 3 (split; [done |]).
  intros q Hq. apply Hentries. intros (i & Hi & Hprefix).
  rewrite length_app in Hi. by apply (Hq i).
Qed.

End WalkTables.

Lemma walk_appends_rows_witness :
  ∃ rows, built Samples.walked [Node Nodes.Adapter_Name adapter_members rows] [] Null
            Toy.memory0
          ∧ Forall (λ row, GetNodeName row = Nodes.Row_Name) rows
          ∧ (length rows ≤ 4)%nat.
Proof.
  destruct (walk_appends_rows Toy.vector_forest Samples.open_adapter Samples.walked
              Nodes.Adapter_Name adapter_members [] [] [] Null Toy.memory0
              ltac:(split; reflexivity) eq_refl)
    as (rows & Hbuilt & Hrows & Hlength & _).
  exists rows. split; [exact Hbuilt |]. split; [exact Hrows | exact Hlength].
Defined.

(** ** Forwarded attributes *)

Section Forwarding.
Context `{Engine}.

Lemma Find_app name (l1 l2 : IAttributes) :
  Find name (l1 ++ l2) = match Find name l1 with Some x => Some x | None => Find name l2 end.
Proof.
  induction l1 as [| [[g n] x] l1 IH]; [done |]. simpl.
  by destruct (String.eqb g "" && String.eqb n name).
Qed.

Lemma FindMember_fold_forwarded k attributes node :
  IsNode node = true →
  FindMember k (fold_left forwarded attributes node)
  = if bool_decide (k ∈ ignoredAttributes) || bool_decide (k ∈ RowAttributes)
    then FindMember k node
    else match Find k (rev attributes) with
         | Some x => Some x
         | None => FindMember k node
         end.
Proof.
  revert node. induction attributes as [| [[g n] x] attributes IH]; intros node Hnode.
  - simpl. by destruct (_ || _).
  - change (fold_left forwarded ((g, n, x) :: attributes) node)
      with (fold_left forwarded attributes (forwarded node (g, n, x))).
    change (rev ((g, n, x) :: attributes)) with (rev attributes ++ [(g, n, x)]).
    rewrite Find_app. cbn [Find].
    assert (Hforwarded : IsNode (forwarded node (g, n, x)) = true).
    { destruct node; try done. unfold forwarded. by repeat case_match. }
    rewrite (IH _ Hforwarded).
    destruct (bool_decide (k ∈ ignoredAttributes) || bool_decide (k ∈ RowAttributes))
      eqn:Hskip.
    + unfold forwarded. destruct (negb (String.eqb g "")); [done |].
      destruct (bool_decide (n ∈ ignoredAttributes)) eqn:Hignored; [done |].
      destruct (bool_decide (n ∈ RowAttributes)) eqn:Hrow; [done |].
      apply FindMember_SetMember_ne. intros ->. by rewrite Hignored, Hrow in Hskip.
    + destruct (Find k (rev attributes)); [done |].
      apply orb_false_iff in Hskip as [Hignored Hrow].
      unfold forwarded. destruct (String.eqb g "") eqn:Hg; simpl; [| done].
      destruct (String.eqb n k) eqn:Hn.
      * apply String.eqb_eq in Hn as ->. rewrite Hignored, Hrow.
        destruct node; try done. simpl. apply assoc_find_set_eq.
      * apply String.eqb_neq in Hn.
        destruct (bool_decide (n ∈ ignoredAttributes)); [done |].
        destruct (bool_decide (n ∈ RowAttributes)); [done |].
        by apply FindMember_SetMember_ne.
Qed.

Lemma fold_forwarded_members attributes name ms ch :
  ∃ ms', fold_left forwarded attributes (Node name ms ch) = Node name ms' ch.
Proof.
  revert ms. induction attributes as [| [[g n] x] attributes IH]; intros ms; [by eexists |].
  simpl. destruct (negb (String.eqb g "")); [apply IH |].
  destruct (bool_decide (n ∈ ignoredAttributes)); [apply IH |].
  destruct (bool_decide (n ∈ RowAttributes)); apply IH.
Qed.

(** X11: what [ForwardAttributes] does to the members of the open node.  A
    member named like an ignored attribute ([Label], [Handler], [Container],
    [Visibility]) or like a row attribute is never written.  Any other member
    takes the value of the last attribute of that name in the default group,
    and stays as it was if there is none; attributes of other groups are not
    forwarded.  The children of the node are untouched. *)
Theorem ForwardAttributes_members (attributes : IAttributes) (s : State)
  name ms ch rest p v m :
  built s (Node name ms ch :: rest) p v m →
  ∃ ms',
    built (ForwardAttributes attributes s) (Node name ms' ch :: rest) p v m
    ∧ (∀ k, k ∈ ignoredAttributes ∨ k ∈ RowAttributes →
            assoc_find k ms' = assoc_find k ms)
    ∧ (∀ k, k ∉ ignoredAttributes → k ∉ RowAttributes →
            assoc_find k ms' = match Find k (rev attributes) with
                               | Some x => Some x
                               | None => assoc_find k ms
                               end).
Proof.
  intros [Hb Hm].
  destruct (fold_forwarded_members attributes name ms ch) as [ms' Hms'].
  pose proof (λ k, FindMember_fold_forwarded k attributes (Node name ms ch) eq_refl)
    as Hmembers.
  rewrite Hms' in Hmembers. unfold FindMember in Hmembers. simpl in Hmembers.
  exists ms'. split; [| split].
  - destruct s; simpl in *; subst. unfold built, ForwardAttributes. simpl.
    by rewrite fold_forward_attribute, Hms'.
  - intros k Hk. rewrite Hmembers.
    destruct Hk as [Hk | Hk].
    + by rewrite (bool_decide_true _ Hk).
    + rewrite (bool_decide_true (k ∈ RowAttributes) Hk). by rewrite orb_true_r.
  - intros k Hignored Hrow. rewrite Hmembers.
    by rewrite (bool_decide_false _ Hignored), (bool_decide_false _ Hrow).
Qed.

End Forwarding.

Lemma ForwardAttributes_members_witness :
  ∃ ms',
    built (ForwardAttributes Samples.counter_attributes Samples.open_adapter)
      [Node Nodes.Adapter_Name ms' []] [] Null Toy.memory0
    ∧ assoc_find "Label" ms' = None
    ∧ assoc_find "Min" ms' = Some (Int64 0).
Proof.
  destruct (ForwardAttributes_members Samples.counter_attributes Samples.open_adapter
              Nodes.Adapter_Name adapter_members [] [] [] Null Toy.memory0
              ltac:(split; reflexivity)) as (ms' & Hbuilt & Hkept & Hforwarded).
  exists ms'. split; [exact Hbuilt |]. split.
  - rewrite (Hkept "Label"); [reflexivity |]. left. vm_compute. by left.
  - rewrite (Hforwarded "Min"); [reflexivity | |].
    + apply (proj1 (bool_decide_eq_false _)). vm_compute. reflexivity.
    + apply (proj1 (bool_decide_eq_false _)). vm_compute. reflexivity.
Defined.

(** ** From the generated editor to the edit *)

Section GeneratedEditors.
Context `{Engine}.

Ltac build_nodes :=
  simpl;
  unfold AdapterBuilder.EndPropertyEditor, AdapterBuilder.EndRow, AdapterBuilder.EndAdapter,
    AdapterBuilder.BeginPropertyEditor, AdapterBuilder.BeginRow, AdapterBuilder.BeginAdapter,
    AdapterBuilder.Label, AdapterBuilder.GetCurrentPath;
  repeat (rewrite BeginNode_B || rewrite Attribute_B || rewrite AddMessageHandler_B
          || rewrite EndNode_B || rewrite fold_forward_attribute);
  simpl.

Lemma VisitValue_row_callbacks value instance valueSize attributes onChanged hashValue
  (s s' : State) name ms ch rest p v m :
  built s (Node name ms ch :: rest) p v m →
  VisitValue value instance valueSize attributes onChanged true hashValue s = Some s' →
  m_onChangedCallbacks s'
  = <[p ++ [Index (length ch); Index (length (labelled attributes []))] := onChanged]>
      (m_onChangedCallbacks s).
Proof.
  intros Hb Hvisit. unfold VisitValue in Hvisit.
  destruct (CheckContainerElement _ _ _) as [s1 |] eqn:Hcheck; [| done].
  simpl in Hvisit. injection Hvisit as <-.
  apply CheckContainerElement_onChangedCallbacks in Hcheck.
  assert (Hlabel : m_builder (ExtractAndCreateLabel attributes
                                (on_builder AdapterBuilder.BeginRow s))
                   = AdapterBuilder.Build_t
                       (Node Nodes.Row_Name [] (labelled attributes [])
                        :: Node name ms ch :: rest) (p ++ [Index (length ch)]) v).
  { by destruct (ExtractAndCreateLabel_built attributes _ _ _ _ _ _ _ _
                   (BeginRow_built _ _ _ _ _ _ _ _ Hb)). }
  destruct hashValue; simpl in Hcheck |- *; rewrite Hcheck;
    rewrite forward_attributes_currentPath, ExtractAndCreateLabel_onChangedCallbacks;
    rewrite Hlabel; build_nodes; by rewrite <- app_assoc.
Qed.

(** X12: an edit reaches the value it was generated for.  After a visible
    primitive is visited, its Row holds (after the label, if any) a property
    editor whose [OnChanged] handler is bound to the editor's path; an
    [OnChanged] message from that path stores the converted value into the
    visited variable (or stores nothing when the conversion fails), replaces
    [Value] at that path by the variable's content read back, and signals
    the change, leaving builder and tables alone. *)
Theorem generated_editor_takes_edits (T : PrimitiveType) (value : Address)
  (attributes : IAttributes) (s s' : State) name ms ch rest p v m
  (valueFromEditor : Value) (changeType : Nodes.ValueChangeType) :
  built s (Node name ms ch :: rest) p v m →
  is_hidden attributes = false →
  VisitPrimitive T value attributes s = Some s' →
  let editorPath := p ++ [Index (length ch); Index (length (labelled attributes []))] in
  let written :=
    match ValueToType T valueFromEditor with
    | Some extractedValue => store T m value extractedValue
    | None => m
    end in
  let shown := ValueFromType T (load T written value) in
  (∃ rowChildren editor,
     built s' (Node name ms (ch ++ [Node Nodes.Row_Name [] rowChildren]) :: rest) p v m
     ∧ rowChildren !! length (labelled attributes []) = Some editor
     ∧ FindMember Nodes.PropertyEditor_OnChanged editor
       = Some (message_handler Nodes.PropertyEditor_OnChanged editorPath))
  ∧ ∃ s'',
      HandleMessage {| m_messageOrigin := editorPath;
                       m_message := OnChanged valueFromEditor changeType |} s' = Some s''
      ∧ memory s'' = written
      ∧ trace s'' = trace s'
                    ++ [NotifyContentsChanged
                          [ReplaceOperation (editorPath ++ [Key "Value"]) shown];
                        PropertyChangeEvent_Signal
                          {| path := editorPath; newValue := shown;
                             changeType := changeType |}]
      ∧ m_builder s'' = m_builder s'
      ∧ m_onChangedCallbacks s'' = m_onChangedCallbacks s'
      ∧ m_containers s'' = m_containers s'.
Proof.
  intros Hb Hvisible Hvisit editorPath written shown.
  unfold VisitPrimitive in Hvisit. rewrite Hvisible in Hvisit.
  pose proof (VisitValue_row_callbacks _ _ _ _ _ _ _ _ _ _ _ _ _ _ _ Hb Hvisit) as Htable.
  pose proof (VisitValue_row_built (ValueFromType T (load T (memory s) value)) value
                (sizeof T) attributes (VisitPrimitive_onChanged T value) false
                s _ _ _ _ _ _ _ Hb) as Hbuilt.
  destruct (value_children _ _ _ _ _ _ _ _) as [rowChildren |] eqn:Hchildren;
    [| by rewrite Hvisit in Hbuilt].
  destruct Hbuilt as (s1 & Hvisit1 & Hs1).
  rewrite Hvisit in Hvisit1. injection Hvisit1 as <-.
  apply value_children_extends in Hchildren as [buttons ->].
  split.
  - eexists _, _. split; [exact Hs1 |]. split.
    + rewrite lookup_app_r by done. rewrite Nat.sub_diag. done.
    + unfold editor_node, CreateNode. simpl.
      destruct (fold_forwarded_members attributes Nodes.PropertyEditor_Name
                  (assoc_set Nodes.PropertyEditor_Value
                     (ValueFromType T (load T (memory s) value))
                     (assoc_set Nodes.PropertyEditor_Type
                        (Str (GetPropertyEditor attributes)) [])) []) as [ms' Hms'].
      simpl in Hms'. rewrite Hms'. unfold FindMember. simpl.
      rewrite assoc_find_set_ne by done. rewrite assoc_find_set_eq.
      subst editorPath. by rewrite <- app_assoc.
  - unfold HandleMessage, handlePropertyEditorChanged. simpl.
    unfold PrefixTree.ValueAtPath_ExactPath. rewrite Htable.
    fold editorPath. rewrite lookup_insert_eq. simpl.
    destruct Hs1 as [_ ->]. fold written shown.
    eexists. split; [done |]. simpl. rewrite <- app_assoc. by rewrite Htable.
Qed.

End GeneratedEditors.

Lemma generated_editor_takes_edits_witness :
  let s' := default Samples.open_adapter
              (VisitPrimitive T_s32 700 Samples.counter_attributes Samples.open_adapter) in
  ∃ s'',
    HandleMessage {| m_messageOrigin := [Index 0; Index 1];
                     m_message := OnChanged (Int64 50) Nodes.FinishedEdit |} s' = Some s''
    ∧ memory s'' = Toy.set_cell Toy.memory0 700 (Int64 50)
    ∧ trace s''
      = trace s'
        ++ [NotifyContentsChanged [ReplaceOperation [Index 0; Index 1; Key "Value"] (Int64 50)];
            PropertyChangeEvent_Signal
              {| path := [Index 0; Index 1]; newValue := Int64 50;
                 changeType := Nodes.FinishedEdit |}].
Proof.
  intros s'.
  destruct (generated_editor_takes_edits T_s32 700 Samples.counter_attributes
              Samples.open_adapter s' Nodes.Adapter_Name adapter_members [] [] [] Null
              Toy.memory0 (Int64 50) Nodes.FinishedEdit
              ltac:(split; reflexivity) eq_refl eq_refl)
    as (_ & s'' & Hhandle & Hmemory & Htrace & _).
  exists s''. split; [exact Hhandle |]. split; [exact Hmemory | exact Htrace].
Defined.

(** ** The property editor of a key *)

Section KeyEditors.
Import LegacyReflectionInternal.
Context (ValueToType_KeyEntry : Value → option KeyEntry).
Context (KeyEntry_IsValid : KeyEntry → bool).

Lemma find_Find name (keyAttributes : list AttributeData) :
  m_value <$> find (FindAttributeCreator "" name) keyAttributes
  = Find name (listed keyAttributes).
Proof.
  induction keyAttributes as [| a rest IH]; [done |]. simpl.
  unfold FindAttributeCreator at 1.
  rewrite (String.eqb_sym "" (m_group a)), (String.eqb_sym name (m_name a)).
  by destruct (String.eqb (m_group a) "" && String.eqb (m_name a) name).
Qed.

(** X13: [CreatePropertyEditorForAssociativeContainerKey] leaves the builder
    alone unless the [KeyValue] attribute converts to a valid key entry.
    Then it appends one property editor to the open node: its value is the
    pointer to the key, it is disabled, uses the minimum width, has a
    [RequestTreeUpdate] handler bound to its path and no [OnChanged] handler.
    Its type is the property editor [GetPropertyEditor] picks for the key's
    attributes, except that an empty [Handler] string does not stop an enum
    key from getting the combo box. *)
Theorem CreatePropertyEditorForAssociativeContainerKey_editor
  (attributes : IAttributes) name ms ch rest p v :
  let builder := AdapterBuilder.Build_t (Node name ms ch :: rest) p v in
  let result :=
    CreatePropertyEditorForAssociativeContainerKey ValueToType_KeyEntry KeyEntry_IsValid
      attributes builder in
  match Find PropertyEditor_KeyValue attributes ≫= ValueToType_KeyEntry with
  | Some keyValueEntry =>
      if KeyEntry_IsValid keyValueEntry
      then
        let keyAttributes := listed (m_keyAttributes keyValueEntry) in
        let comboBox :=
          match Find Nodes.PropertyEditor_EnumType keyAttributes with
          | Some enumTypeHandler => negb (IsNull enumTypeHandler)
          | None => false
          end in
        let keyPropertyHandlerName :=
          match Find DescriptorAttributes.Handler keyAttributes with
          | Some (Str EmptyString) => if comboBox then Nodes.ComboBox_Name else EmptyString
          | _ => GetPropertyEditor keyAttributes
          end in
        result
        = AdapterBuilder.Build_t
            (Node name ms
               (ch ++ [Node Nodes.PropertyEditor_Name
                         [(Nodes.PropertyEditor_Type, Str keyPropertyHandlerName);
                          (Nodes.PropertyEditor_Value,
                           Opaque (OPointer (m_keyInstance keyValueEntry)));
                          (Nodes.PropertyEditor_UseMinimumWidth, Bool true);
                          (Nodes.Disabled, Bool true);
                          (Nodes.PropertyEditor_RequestTreeUpdate,
                           message_handler Nodes.PropertyEditor_RequestTreeUpdate
                             (p ++ [Index (length ch)]))] []]) :: rest) p v
      else result = builder
  | None => result = builder
  end.
Proof.
  intros builder result. subst result.
  unfold CreatePropertyEditorForAssociativeContainerKey.
  destruct (Find PropertyEditor_KeyValue attributes) as [keyValueAttribute |]; [| done].
  simpl. destruct (ValueToType_KeyEntry keyValueAttribute) as [keyValueEntry |]; [| done].
  destruct (KeyEntry_IsValid keyValueEntry); [| done].
  cbv zeta.
  set (handlerName := if String.eqb _ "" then _ else _).
  set (keyPropertyHandlerName := match Find DescriptorAttributes.Handler _ with
                                 | Some (Str EmptyString) => _
                                 | _ => _
                                 end).
  assert (Hname : handlerName = keyPropertyHandlerName).
  { subst handlerName keyPropertyHandlerName.
    unfold GetPropertyEditor.
    rewrite <- !find_Find.
    destruct (find (FindAttributeCreator "" DescriptorAttributes.Handler) _)
      as [handlerIt |]; simpl.
    - destruct (m_value handlerIt) as [| | | handler | |]; simpl;
        try (by destruct (find _ _) as [e |]; simpl; [destruct (IsNull (m_value e)) |]).
      destruct handler as [| c handler]; simpl; [| done].
      destruct (find _ _) as [e |]; simpl; [by destruct (IsNull (m_value e)) | done].
    - by destruct (find _ _) as [e |]; simpl; [destruct (IsNull (m_value e)) |]. }
  rewrite Hname. subst builder.
  unfold AdapterBuilder.BeginPropertyEditor, AdapterBuilder.EndPropertyEditor.
  rewrite BeginNode_B, !Attribute_B, AddMessageHandler_B, EndNode_B. reflexivity.
Qed.

End KeyEditors.

(** ** The loops over the simple point lights *)

Section SimplePointLightLoops.
Import Shader SimplePointLight.
Context `{Arith} {SurfaceData LightingRest : Type}.
Context (normalize : real3 → real3).
Context (GetDiffuseLighting GetSpecularLighting :
           LitSurface (SurfaceData := SurfaceData) →
           LightingData (LightingRest := LightingRest) → real3 → real3 → real3).
Context (IsSameLightChannel : N → N → bool).

#[local] Abbreviation Apply :=
  (ApplySimplePointLight normalize GetDiffuseLighting GetSpecularLighting).
#[local] Abbreviation apply_one :=
  (apply_if_same_channel normalize GetDiffuseLighting GetSpecularLighting IsSameLightChannel).
#[local] Abbreviation plain :=
  (ApplySimplePointLights normalize GetDiffuseLighting GetSpecularLighting IsSameLightChannel).
#[local] Abbreviation culled :=
  (ApplySimplePointLights_culled normalize GetDiffuseLighting GetSpecularLighting
     IsSameLightChannel).

Lemma apply_one_frame m_simplePointLights surface (lightingData : LightingData) i :
  lightingChannels (apply_one m_simplePointLights surface lightingData i)
  = lightingChannels lightingData
  ∧ tileIterator (apply_one m_simplePointLights surface lightingData i)
    = tileIterator lightingData
  ∧ lightingRest (apply_one m_simplePointLights surface lightingData i)
    = lightingRest lightingData.
Proof.
  unfold apply_if_same_channel. destruct (negb _); [done |].
  apply ApplySimplePointLight_frame.
Qed.

Lemma fold_apply_one_frame m_simplePointLights surface indices (lightingData : LightingData) :
  let result := fold_left (apply_one m_simplePointLights surface) indices lightingData in
  lightingChannels result = lightingChannels lightingData
  ∧ tileIterator result = tileIterator lightingData
  ∧ lightingRest result = lightingRest lightingData.
Proof.
  revert lightingData. induction indices as [| i rest IH]; intros lightingData; [done |].
  simpl. destruct (IH (apply_one m_simplePointLights surface lightingData i))
    as (-> & -> & ->).
  apply apply_one_frame.
Qed.

Lemma culled_loop_frame m_simplePointLights surface pending (lightingData : LightingData) :
  let result :=
    culled_loop normalize GetDiffuseLighting GetSpecularLighting IsSameLightChannel
      m_simplePointLights surface pending lightingData in
  lightingChannels result = lightingChannels lightingData
  ∧ tileIterator result = (if pending is [] then tileIterator lightingData else [])
  ∧ lightingRest result = lightingRest lightingData.
Proof.
  revert lightingData. induction pending as [| i rest IH]; intros lightingData; [done |].
  simpl.
  destruct (IH (apply_one m_simplePointLights surface (set_tileIterator rest lightingData) i))
    as (-> & -> & ->).
  destruct (apply_one_frame m_simplePointLights surface (set_tileIterator rest lightingData) i)
    as (-> & -> & ->).
  simpl. by destruct rest.
Qed.

(** X14: [ApplySimplePointLights] touches the two lighting accumulators
    only.  Both variants keep the lighting channels and the rest of the
    lighting data; the plain loop keeps the tile iterator, the culling loop
    leaves it exhausted.  With a light count of 0, or with a tile iterator
    that has nothing to yield, the lighting data is returned as it was. *)
Theorem ApplySimplePointLights_accumulators_only
  (m_simplePointLights : nat → SimplePointLight) (m_simplePointLightCount : nat)
  (surface : LitSurface) (lightingData : LightingData) :
  let looped := plain m_simplePointLights m_simplePointLightCount surface lightingData in
  let tiled := culled m_simplePointLights surface lightingData in
  (lightingChannels looped = lightingChannels lightingData
   ∧ tileIterator looped = tileIterator lightingData
   ∧ lightingRest looped = lightingRest lightingData)
  ∧ (lightingChannels tiled = lightingChannels lightingData
     ∧ tileIterator tiled = []
     ∧ lightingRest tiled = lightingRest lightingData)
  ∧ (m_simplePointLightCount = 0%nat → looped = lightingData)
  ∧ (tileIterator lightingData = [] → tiled = lightingData).
Proof.
  intros looped tiled. split; [| split; [| split]].
  - apply fold_apply_one_frame.
  - subst tiled. unfold ApplySimplePointLights_culled.
    destruct (culled_loop_frame m_simplePointLights surface (tileIterator lightingData)
                lightingData) as (-> & -> & ->).
    by destruct (tileIterator lightingData).
  - by intros ->.
  - intros Hdone. subst tiled. unfold ApplySimplePointLights_culled. by rewrite Hdone.
Qed.

Lemma apply_one_out_of_range m_simplePointLights surface (lightingData : LightingData) i :
  (IsSameLightChannel (lightingChannels lightingData)
     (m_lightingChannelMask (m_simplePointLights i)) = true →
   let posToLight :=
     real3_of_float3 (float3_sub (m_position (m_simplePointLights i)) (position surface)) in
   real_le real_1
     (real_mul (dot posToLight posToLight)
        (real_of_float (m_invAttenuationRadiusSquared (m_simplePointLights i))))) →
  apply_one m_simplePointLights surface lightingData i = lightingData.
Proof.
  intros Hfar. unfold apply_if_same_channel.
  destruct (IsSameLightChannel _ _); [| done]. simpl.
  unfold ApplySimplePointLight.
  by rewrite (real_ltb_ge _ _ (Hfar eq_refl)).
Qed.

(** X15: lights that are out of range add nothing.  If every light of the
    buffer whose channel matches has a falloff of at least 1, the plain loop
    returns the lighting data unchanged; likewise the culling loop over the
    lights the tile iterator yields, up to the exhausted iterator. *)
Theorem lights_out_of_range_add_nothing
  (m_simplePointLights : nat → SimplePointLight) (m_simplePointLightCount : nat)
  (surface : LitSurface) (lightingData : LightingData) :
  let falloff (light : SimplePointLight) :=
    let posToLight := real3_of_float3 (float3_sub (m_position light) (position surface)) in
    real_mul (dot posToLight posToLight)
      (real_of_float (m_invAttenuationRadiusSquared light)) in
  let far (i : nat) :=
    IsSameLightChannel (lightingChannels lightingData)
      (m_lightingChannelMask (m_simplePointLights i)) = true →
    real_le real_1 (falloff (m_simplePointLights i)) in
  ((∀ i, (i < m_simplePointLightCount)%nat → far i) →
   plain m_simplePointLights m_simplePointLightCount surface lightingData = lightingData)
  ∧ ((∀ i, i ∈ tileIterator lightingData → far i) →
     culled m_simplePointLights surface lightingData = set_tileIterator [] lightingData).
Proof.
  intros falloff far. split.
  - intros Hfar. unfold ApplySimplePointLights.
    assert (Hall : ∀ i, i ∈ seq 0 m_simplePointLightCount → far i).
    { intros i Hi. apply Hfar. apply elem_of_seq in Hi. lia. }
    clear Hfar. induction (seq 0 m_simplePointLightCount) as [| i rest IH]; [done |].
    simpl. rewrite apply_one_out_of_range by (apply Hall; left).
    apply IH. intros j Hj. apply Hall. by right.
  - intros Hfar. unfold ApplySimplePointLights_culled.
    assert (Hgeneral : ∀ pending l,
              lightingChannels l = lightingChannels lightingData →
              (∀ i, i ∈ pending → far i) →
              culled_loop normalize GetDiffuseLighting GetSpecularLighting IsSameLightChannel
                m_simplePointLights surface pending l
              = if pending is [] then l else set_tileIterator [] l).
    { induction pending as [| i rest IH]; intros l Hchannels Hall; [done |].
      simpl. rewrite apply_one_out_of_range.
      - rewrite IH; [by destruct rest | done | intros j Hj; apply Hall; by right].
      - simpl. rewrite Hchannels. apply Hall. left. }
    rewrite Hgeneral by done.
    destruct (tileIterator lightingData) eqn:Hpending; [| done].
    destruct lightingData. simpl in Hpending. by subst.
Qed.

Lemma Apply_set_tileIterator (light : SimplePointLight) surface it (l : LightingData) :
  (∀ surface l it lightIntensity posToLightDir,
     GetDiffuseLighting surface (set_tileIterator it l) lightIntensity posToLightDir
     = GetDiffuseLighting surface l lightIntensity posToLightDir) →
  (∀ surface l it lightIntensity posToLightDir,
     GetSpecularLighting surface (set_tileIterator it l) lightIntensity posToLightDir
     = GetSpecularLighting surface l lightIntensity posToLightDir) →
  Apply light surface (set_tileIterator it l) = set_tileIterator it (Apply light surface l).
Proof.
  intros Hdiffuse Hspecular. unfold ApplySimplePointLight.
  destruct (real_ltb _ _); [| done].
  rewrite Hdiffuse.
  match goal with
  | |- context [set_diffuseLighting ?v (set_tileIterator it l)] =>
      change (set_diffuseLighting v (set_tileIterator it l))
        with (set_tileIterator it (set_diffuseLighting v l))
  end.
  by rewrite Hspecular.
Qed.

(** X16: culling does not change the lighting.  Provided the two lighting
    functions do not read the tile iterator, the culling loop computes what
    the plain body computes over the indices the iterator yields; when the
    iterator yields every index below the light count, the result is that of
    the plain loop with the iterator exhausted. *)
Theorem culling_keeps_the_lighting
  (m_simplePointLights : nat → SimplePointLight) (m_simplePointLightCount : nat)
  (surface : LitSurface) (lightingData : LightingData) :
  (∀ surface l it lightIntensity posToLightDir,
     GetDiffuseLighting surface (set_tileIterator it l) lightIntensity posToLightDir
     = GetDiffuseLighting surface l lightIntensity posToLightDir) →
  (∀ surface l it lightIntensity posToLightDir,
     GetSpecularLighting surface (set_tileIterator it l) lightIntensity posToLightDir
     = GetSpecularLighting surface l lightIntensity posToLightDir) →
  culled m_simplePointLights surface lightingData
  = set_tileIterator []
      (fold_left (apply_one m_simplePointLights surface) (tileIterator lightingData)
         lightingData)
  ∧ (tileIterator lightingData = seq 0 m_simplePointLightCount →
     culled m_simplePointLights surface lightingData
     = set_tileIterator []
         (plain m_simplePointLights m_simplePointLightCount surface lightingData)).
Proof.
  intros Hdiffuse Hspecular.
  assert (Hone : ∀ it l i,
            apply_one m_simplePointLights surface (set_tileIterator it l) i
            = set_tileIterator it (apply_one m_simplePointLights surface l i)).
  { intros it l i. unfold apply_if_same_channel. simpl.
    destruct (negb _); [done |]. by apply Apply_set_tileIterator. }
  assert (Hfold : ∀ indices it l,
            fold_left (apply_one m_simplePointLights surface) indices (set_tileIterator it l)
            = set_tileIterator it (fold_left (apply_one m_simplePointLights surface) indices l)).
  { induction indices as [| i rest IH]; intros it l; [done |]. simpl. by rewrite Hone, IH. }
  assert (Hloop : ∀ pending l,
            culled_loop normalize GetDiffuseLighting GetSpecularLighting IsSameLightChannel
              m_simplePointLights surface pending l
            = if pending is [] then l
              else set_tileIterator []
                     (fold_left (apply_one m_simplePointLights surface) pending l)).
  { induction pending as [| i rest IH]; intros l; [done |].
    simpl. rewrite IH, Hone. destruct rest as [| j rest]; [done |].
    by rewrite Hfold. }
  assert (Hculled : culled m_simplePointLights surface lightingData
                    = set_tileIterator []
                        (fold_left (apply_one m_simplePointLights surface)
                           (tileIterator lightingData) lightingData)).
  { unfold ApplySimplePointLights_culled. rewrite Hloop.
    destruct (tileIterator lightingData) eqn:Hpending; [| done].
    destruct lightingData. simpl in Hpending. by subst. }
  split; [exact Hculled |].
  intros Hall. rewrite Hculled. by rewrite Hall.
Qed.

End SimplePointLightLoops.

Lemma lights_out_of_range_add_nothing_witness :
  SimplePointLight.ApplySimplePointLights (λ v, v) ToyShader.GetDiffuse ToyShader.GetSpecular
    ToyShader.IsSameLightChannel ToyShader.lights 1 ToyShader.origin_surface ToyShader.unlit
  = ToyShader.unlit.
Proof.
  apply (proj1 (lights_out_of_range_add_nothing (λ v, v) ToyShader.GetDiffuse
                  ToyShader.GetSpecular ToyShader.IsSameLightChannel ToyShader.lights 1
                  ToyShader.origin_surface ToyShader.unlit)).
  intros i Hi _. replace i with 0%nat by lia. vm_compute. discriminate.
Defined.

Lemma culling_keeps_the_lighting_witness :
  SimplePointLight.ApplySimplePointLights_culled (λ v, v) ToyShader.GetDiffuse
    ToyShader.GetSpecular ToyShader.IsSameLightChannel ToyShader.lights
    ToyShader.origin_surface ToyShader.unlit
  = SimplePointLight.set_tileIterator []
      (SimplePointLight.ApplySimplePointLights (λ v, v) ToyShader.GetDiffuse
         ToyShader.GetSpecular ToyShader.IsSameLightChannel ToyShader.lights 3
         ToyShader.origin_surface ToyShader.unlit).
Proof.
  apply (proj2 (culling_keeps_the_lighting (λ v, v) ToyShader.GetDiffuse
                  ToyShader.GetSpecular ToyShader.IsSameLightChannel ToyShader.lights 3
                  ToyShader.origin_surface ToyShader.unlit
                  ltac:(reflexivity) ltac:(reflexivity))).
  reflexivity.
Defined.

(** ** EnhancedPBR: what the evaluation reads and what it leaves unassigned *)

Section EnhancedPBRInputs.
Import Shader EnhancedPBR.
Context `{Arith}.
Context {float2 float4 real4 real3x3 Texture2D sampler BlendMode : Type}.
Context {Anisotropy SurfaceRest : Type}.
Context (F : MaterialFunctions (float2 := float2) (float4 := float4) (real4 := real4)
               (real3x3 := real3x3) (Texture2D := Texture2D) (sampler := sampler)
               (BlendMode := BlendMode) (Anisotropy := Anisotropy)
               (SurfaceRest := SurfaceRest)).
Context (M : MaterialSrg (float4 := float4) (real3x3 := real3x3)
               (Texture2D := Texture2D) (sampler := sampler)).
Context (O : Options (BlendMode := BlendMode)).

(** X17: the evaluation reads the detail UV sets at one index only,
    [m_detail_allMapsUvIndex]: two families of detail UVs that agree there
    give the same surface (the blend mask is sampled with the detail UVs only
    when it uses that same set). *)
Theorem EvaluateSurface_EnhancedPBR_reads_one_detail_uv
  (uninitialized : Surface) (positionWS : float3) (normalWS : real3)
  (tangents bitangents : nat → real3) (uvs detailUvs detailUvs' : nat → float2)
  (isFrontFace isDisplacementClipped : bool) :
  detailUvs' (m_detail_allMapsUvIndex M) = detailUvs (m_detail_allMapsUvIndex M) →
  EvaluateSurface_EnhancedPBR F M O uninitialized positionWS normalWS tangents bitangents
    uvs detailUvs' isFrontFace isDisplacementClipped
  = EvaluateSurface_EnhancedPBR F M O uninitialized positionWS normalWS tangents bitangents
      uvs detailUvs isFrontFace isDisplacementClipped.
Proof.
  intros Hdetail.
  assert (Hmask : (if bool_decide (m_detail_blendMask_uvIndex M = m_detail_allMapsUvIndex M)
                   then detailUvs' (m_detail_blendMask_uvIndex M)
                   else uvs (m_detail_blendMask_uvIndex M))
                  = (if bool_decide (m_detail_blendMask_uvIndex M = m_detail_allMapsUvIndex M)
                     then detailUvs (m_detail_blendMask_uvIndex M)
                     else uvs (m_detail_blendMask_uvIndex M))).
  { case_bool_decide as Hsame; [| done]. by rewrite Hsame. }
  cbv beta delta [EvaluateSurface_EnhancedPBR].
  rewrite Hmask, Hdetail. reflexivity.
Qed.

(** X18: what the clear coat changes.  Compiling the clear coat in or out
    changes two fields of the evaluated surface only.  [clearCoat] is read
    from the material when the clear coat is compiled in, enabled as a
    feature and enabled for the material.  [specularF0] is passed through
    [ApplyClearCoatToSpecularF0] as soon as the clear coat is compiled in and
    enabled as a feature, with the factor of the surface's clear coat,
    whether or not that was read from the material. *)
Theorem clear_coat_switch
  (uninitialized : Surface) (positionWS : float3) (normalWS : real3)
  (tangents bitangents : nat → real3) (uvs detailUvs : nat → float2)
  (isFrontFace isDisplacementClipped : bool) :
  let surface :=
    EvaluateSurface_EnhancedPBR F M O uninitialized positionWS normalWS tangents bitangents
      uvs detailUvs isFrontFace isDisplacementClipped in
  let uncoated :=
    EvaluateSurface_EnhancedPBR F M (without_clear_coat O) uninitialized positionWS normalWS
      tangents bitangents uvs detailUvs isFrontFace isDisplacementClipped in
  position surface = position uncoated
  ∧ vertexNormal surface = vertexNormal uncoated
  ∧ normal surface = normal uncoated
  ∧ alpha surface = alpha uncoated
  ∧ roughnessLinear surface = roughnessLinear uncoated
  ∧ roughnessA surface = roughnessA uncoated
  ∧ subsurfaceScatteringFactor surface = subsurfaceScatteringFactor uncoated
  ∧ subsurfaceScatteringQuality surface = subsurfaceScatteringQuality uncoated
  ∧ scatterDistance surface = scatterDistance uncoated
  ∧ transmission surface = transmission uncoated
  ∧ anisotropy surface = anisotropy uncoated
  ∧ emissiveLighting surface = emissiveLighting uncoated
  ∧ diffuseAmbientOcclusion surface = diffuseAmbientOcclusion uncoated
  ∧ specularOcclusion surface = specularOcclusion uncoated
  ∧ opacityAffectsSpecularFactor surface = opacityAffectsSpecularFactor uncoated
  ∧ surfaceRest surface = surfaceRest uncoated
  ∧ clearCoat surface
    = (if ENABLE_CLEAR_COAT O && o_clearCoat_feature_enabled O && o_clearCoat_enabled O
       then
         GetClearCoatInputs F
           (m_clearCoatInfluenceMap M) (uvs (m_clearCoatInfluenceMapUvIndex M))
           (real_of_float (m_clearCoatFactor M)) (o_clearCoat_factor_useTexture O)
           (m_clearCoatRoughnessMap M) (uvs (m_clearCoatRoughnessMapUvIndex M))
           (real_of_float (m_clearCoatRoughness M)) (o_clearCoat_roughness_useTexture O)
           (m_clearCoatNormalMap M) (uvs (m_clearCoatNormalMapUvIndex M)) normalWS
           (o_clearCoat_normal_useTexture O) (real_of_float (m_clearCoatNormalStrength M))
           (if bool_decide (m_clearCoatNormalMapUvIndex M = 0%nat)
            then m_uvMatrix M else CreateIdentity3x3 F)
           (tangents (m_clearCoatNormalMapUvIndex M))
           (bitangents (m_clearCoatNormalMapUvIndex M)) (m_sampler M) isFrontFace
           (clearCoat uncoated)
       else clearCoat uncoated)
  ∧ specularF0 surface
    = (if ENABLE_CLEAR_COAT O && o_clearCoat_feature_enabled O
       then ApplyClearCoatToSpecularF0 F (specularF0 uncoated) (factor (clearCoat surface))
       else specularF0 uncoated).
Proof.
  cbv zeta. do 16 (split; [reflexivity |]).
  destruct O as [? enable ? ? ? ? ? ? ? ? ? ? ? ? ? ? ? ? feature enabled ? ? ?].
  destruct enable; [destruct feature; [destruct enabled |] |]; split; reflexivity.
Qed.

(** X19: fields the evaluation never assigns.  Provided the two methods of
    [Surface] it calls leave [transmission], [anisotropy] and [clearCoat]
    alone, the surface returned holds what the uninitialized local held in
    [transmission] when transmission is compiled out, in [anisotropy] when
    anisotropy is off, and in [clearCoat] unless the clear coat is compiled
    in, enabled as a feature and enabled for the material.  With the feature
    on and the material's clear coat off, [specularF0] is adjusted with that
    unassigned clear coat factor. *)
Theorem fields_left_unassigned
  (uninitialized : Surface) (positionWS : float3) (normalWS : real3)
  (tangents bitangents : nat → real3) (uvs detailUvs : nat → float2)
  (isFrontFace isDisplacementClipped : bool) :
  (∀ s baseColor specularF0Factor metallic,
     transmission (SetAlbedoAndSpecularF0 F s baseColor specularF0Factor metallic)
     = transmission s
     ∧ anisotropy (SetAlbedoAndSpecularF0 F s baseColor specularF0Factor metallic)
       = anisotropy s
     ∧ clearCoat (SetAlbedoAndSpecularF0 F s baseColor specularF0Factor metallic)
       = clearCoat s) →
  (∀ s, transmission (CalculateRoughnessA F s) = transmission s
        ∧ anisotropy (CalculateRoughnessA F s) = anisotropy s
        ∧ clearCoat (CalculateRoughnessA F s) = clearCoat s) →
  let surface :=
    EvaluateSurface_EnhancedPBR F M O uninitialized positionWS normalWS tangents bitangents
      uvs detailUvs isFrontFace isDisplacementClipped in
  let uncoated :=
    EvaluateSurface_EnhancedPBR F M (without_clear_coat O) uninitialized positionWS normalWS
      tangents bitangents uvs detailUvs isFrontFace isDisplacementClipped in
  (ENABLE_TRANSMISSION O = false → transmission surface = transmission uninitialized)
  ∧ (o_enableAnisotropy O = false → anisotropy surface = anisotropy uninitialized)
  ∧ (ENABLE_CLEAR_COAT O && o_clearCoat_feature_enabled O && o_clearCoat_enabled O = false →
     clearCoat surface = clearCoat uninitialized)
  ∧ (ENABLE_CLEAR_COAT O = true → o_clearCoat_feature_enabled O = true →
     o_clearCoat_enabled O = false →
     specularF0 surface
     = ApplyClearCoatToSpecularF0 F (specularF0 uncoated) (factor (clearCoat uninitialized))).
Proof.
  intros Halbedo Hroughness surface uncoated.
  assert (Htransmission : ENABLE_TRANSMISSION O = false →
                          transmission surface = transmission uninitialized).
  { intros Hoff. subst surface. clear uncoated. destruct O. simpl in Hoff. subst.
    pose proof (λ s, proj1 (Hroughness s)) as Hr.
    pose proof (λ s c f m, proj1 (Halbedo s c f m)) as Ha.
    unfold transmission in Hr, Ha.
    lazy beta iota zeta delta [EvaluateSurface_EnhancedPBR transmission].
    etransitivity; [apply Hr |]. lazy beta iota.
    etransitivity; [apply Ha |]. reflexivity. }
  assert (Hanisotropy : o_enableAnisotropy O = false →
                        anisotropy surface = anisotropy uninitialized).
  { intros Hoff. subst surface. clear uncoated Htransmission. destruct O. simpl in Hoff. subst.
    pose proof (λ s, proj1 (proj2 (Hroughness s))) as Hr.
    pose proof (λ s c f m, proj1 (proj2 (Halbedo s c f m))) as Ha.
    unfold anisotropy in Hr, Ha.
    lazy beta iota zeta delta [EvaluateSurface_EnhancedPBR anisotropy].
    etransitivity; [apply Hr |]. lazy beta iota.
    etransitivity; [apply Ha |]. reflexivity. }
  assert (HclearCoat : ENABLE_CLEAR_COAT O && o_clearCoat_feature_enabled O
                       && o_clearCoat_enabled O = false →
                       clearCoat surface = clearCoat uninitialized).
  { intros Hoff. subst surface. clear uncoated Htransmission Hanisotropy.
    pose proof (λ s, proj2 (proj2 (Hroughness s))) as Hr.
    pose proof (λ s c f m, proj2 (proj2 (Halbedo s c f m))) as Ha.
    unfold clearCoat in Hr, Ha.
    destruct O as [? enable ? ? ? ? ? ? ? ? ? ? ? ? ? ? ? ? feature enabled ? ? ?].
    simpl in Hoff.
    destruct enable; [destruct feature; [destruct enabled; [done |] |] |];
      lazy beta iota zeta delta [EvaluateSurface_EnhancedPBR clearCoat andb];
      (etransitivity; [apply Hr |]); lazy beta iota;
      (etransitivity; [apply Ha |]); reflexivity. }
  split; [exact Htransmission |]. split; [exact Hanisotropy |]. split; [exact HclearCoat |].
  intros Henable Hfeature Henabled.
  rewrite <- HclearCoat by (by rewrite Henable, Hfeature, Henabled).
  clear Htransmission Hanisotropy HclearCoat Halbedo Hroughness. subst surface uncoated.
  destruct O as [? enable ? ? ? ? ? ? ? ? ? ? ? ? ? ? ? ? feature enabled ? ? ?].
  simpl in Henable, Hfeature, Henabled. subst. reflexivity.
Qed.

End EnhancedPBRInputs.

Lemma EvaluateSurface_EnhancedPBR_reads_one_detail_uv_witness :
  EnhancedPBR.EvaluateSurface_EnhancedPBR ToyShader.functions ToyShader.material
    ToyShader.options ToyShader.blank (ToyShader.point 1 2 3) (ToyShader.vec 0 0 1)
    (λ _, ToyShader.vec 1 0 0) (λ _, ToyShader.vec 0 1 0) (λ _, 0%Q) Samples.detail_uvs
    true false
  = EnhancedPBR.EvaluateSurface_EnhancedPBR ToyShader.functions ToyShader.material
      ToyShader.options ToyShader.blank (ToyShader.point 1 2 3) (ToyShader.vec 0 0 1)
      (λ _, ToyShader.vec 1 0 0) (λ _, ToyShader.vec 0 1 0) (λ _, 0%Q) (λ _, 0%Q)
      true false.
Proof.
  apply (EvaluateSurface_EnhancedPBR_reads_one_detail_uv ToyShader.functions
           ToyShader.material ToyShader.options).
  reflexivity.
Defined.

Lemma fields_left_unassigned_witness :
  let surface :=
    EnhancedPBR.EvaluateSurface_EnhancedPBR ToyShader.functions ToyShader.material
      Samples.feature_only ToyShader.blank (ToyShader.point 1 2 3) (ToyShader.vec 0 0 1)
      (λ _, ToyShader.vec 1 0 0) (λ _, ToyShader.vec 0 1 0) (λ _, 0%Q) (λ _, 0%Q)
      true false in
  EnhancedPBR.transmission surface = EnhancedPBR.transmission ToyShader.blank
  ∧ EnhancedPBR.anisotropy surface = 9%Q
  ∧ EnhancedPBR.clearCoat surface = EnhancedPBR.clearCoat ToyShader.blank.
Proof.
  intros surface.
  destruct (fields_left_unassigned ToyShader.functions ToyShader.material
              Samples.feature_only ToyShader.blank (ToyShader.point 1 2 3)
              (ToyShader.vec 0 0 1) (λ _, ToyShader.vec 1 0 0) (λ _, ToyShader.vec 0 1 0)
              (λ _, 0%Q) (λ _, 0%Q) true false
              ltac:(intros; repeat split) ltac:(intros; repeat split))
    as (Htransmission & Hanisotropy & HclearCoat & _).
  split; [exact (Htransmission eq_refl) |].
  split; [exact (Hanisotropy eq_refl) | exact (HclearCoat eq_refl)].
Defined.
